(** * Lockfile inventory: the parsers, the dispatcher and the deduplicator

    A shallow embedding of the lockfile parsing script (the nine parsers of
    [parseNpmLockfile] .. [parseMavenPom], the dispatch loop and the
    deduplication of [main], and [writeInventory]) together with the
    properties the specification states about them.

    Conventions of the embedding.
    - Text is a [string] of bytes.  The character classes of the script's
      regular expressions ([\s], [A-Z], case mapping, line terminators) are
      taken on the ASCII range, where the embedding is exact; a byte above
      127 is an ordinary character (no whitespace, no letter).
    - A JavaScript value is a [value]; the result of [JSON.parse] is such a
      value, an object being the list of its own properties in the order
      [Object.entries] enumerates them.
    - An exception is an [outcome] [Throw]; the body of a parser's [try]
      block runs in the monad [M], which accumulates the records pushed on
      [dependencies] and stops at the first exception.
    - The file system, the environment variables and the clock are a
      [World]; console output and file writes are a list of [effect]s, in
      the order the script makes them (writing a file is taken to succeed).
    - A scan that jumps over what it matched ([split], a global [replace]
      or [match]) runs for as many rounds as the string has characters;
      the facts below show that this is always enough. *)

From Stdlib Require Import Ascii String NArith ZArith Lia.
From Stdlib Require Import Numbers.DecimalString.
From stdpp Require Import base strings gmap list.

(* ================================================================= *)
(** ** JavaScript strings

    A string is the sequence of the bytes of the file, which is the
    sequence of the characters of the JavaScript string when the text is
    ASCII.  The searches for the literals of the script ([split],
    [includes], [startsWith], the fixed parts of its patterns) are the same
    on any UTF-8 text.  The classes of characters below are those of
    JavaScript on ASCII text: outside ASCII, [\s] and [trim] know more
    spaces (U+00A0, U+FEFF, U+2028, ...), [^] and [.] more line terminators
    (U+2028, U+2029), and [toLowerCase] more letters.  The properties that
    rest on these classes are stated for ASCII text ([is_ascii]). *)

Module JS.

(** [String.prototype.length] and the slices the script takes. *)
Fixpoint drop (n : nat) (s : string) : string :=
  match n, s with
  | S k, String _ s' => drop k s'
  | _, _ => s
  end.

Definition code (c : ascii) : N := N_of_ascii c.

Definition in_range (lo hi c : ascii) : bool :=
  (code lo <=? code c)%N && (code c <=? code hi)%N.

Definition is_upper (c : ascii) : bool := in_range "A" "Z" c.
Definition is_lower (c : ascii) : bool := in_range "a" "z" c.
Definition is_digit (c : ascii) : bool := in_range "0" "9" c.

(** [\s], and the characters [trim] removes, among the ASCII characters. *)
Definition is_space (c : ascii) : bool := Ascii.is_space c.

(** The line terminators among the ASCII characters: [.] does not match
    them, and [^] with the [m] flag matches right after one. *)
Definition is_line_terminator (c : ascii) : bool :=
  bool_decide (c = "010"%char) || bool_decide (c = "013"%char).

Definition char_eqb (a b : ascii) : bool := bool_decide (a = b).

Definition is_empty (s : string) : bool :=
  match s with EmptyString => true | String _ _ => false end.

(** [s.startsWith(p)] *)
Fixpoint startsWith (p s : string) : bool :=
  match p, s with
  | EmptyString, _ => true
  | String a p', String b s' => char_eqb a b && startsWith p' s'
  | String _ _, EmptyString => false
  end.

(** [s.endsWith(p)] *)
Definition endsWith (p s : string) : bool :=
  Nat.leb (String.length p) (String.length s)
  && bool_decide (drop (String.length s - String.length p) s = p).

(** The first occurrence of a literal [pat] in [s]: the text before it and
    the text after it.  (The literals of the script are never empty.) *)
Fixpoint cut (pat s : string) : option (string * string) :=
  if startsWith pat s then Some (EmptyString, drop (String.length pat) s)
  else match s with
       | EmptyString => None
       | String c s' =>
           match cut pat s' with
           | Some (b, a) => Some (String c b, a)
           | None => None
           end
       end.

(** Whether the character [c] occurs in [s]. *)
Fixpoint occurs (c : ascii) (s : string) : bool :=
  match s with
  | EmptyString => false
  | String d s' => char_eqb d c || occurs c s'
  end.

(** [s.includes(pat)] *)
Definition includes (pat s : string) : bool :=
  match cut pat s with Some _ => true | None => false end.

(** [s.replace(pat, '')] with a string pattern: the first occurrence only. *)
Definition remove_first (pat s : string) : string :=
  match cut pat s with
  | Some (b, a) => b +:+ a
  | None => s
  end.

(** [s.split(sep)] for a non-empty literal separator.  Every separator
    consumes a character, so [String.length s] rounds are enough. *)
Fixpoint split_fuel (n : nat) (sep s : string) : list string :=
  match n with
  | O => [s]
  | S n' =>
      match cut sep s with
      | None => [s]
      | Some (b, a) => b :: split_fuel n' sep a
      end
  end.

Definition split (sep s : string) : list string :=
  split_fuel (String.length s) sep s.

(** [parts.join(sep)] *)
Fixpoint join (sep : string) (l : list string) : string :=
  match l with
  | [] => EmptyString
  | [x] => x
  | x :: l' => x +:+ sep +:+ join sep l'
  end.

(** The longest prefix of characters in a class, and the rest: what a greedy
    [[class]*] consumes. *)
Fixpoint span (p : ascii -> bool) (s : string) : string * string :=
  match s with
  | EmptyString => (EmptyString, EmptyString)
  | String c s' =>
      if p c then let (a, b) := span p s' in (String c a, b)
      else (EmptyString, s)
  end.

Definition skip_spaces (s : string) : string := snd (span is_space s).

Fixpoint trimEnd (s : string) : string :=
  match s with
  | EmptyString => EmptyString
  | String c s' =>
      let t := trimEnd s' in
      if is_space c && is_empty t then EmptyString else String c t
  end.

(** [s.trim()] *)
Definition trim (s : string) : string := trimEnd (skip_spaces s).

Definition lower (c : ascii) : ascii :=
  if is_upper c then ascii_of_N (code c + 32) else c.

(** [s.toLowerCase()], on ASCII text. *)
Fixpoint toLowerCase (s : string) : string :=
  match s with
  | EmptyString => EmptyString
  | String c s' => String (lower c) (toLowerCase s')
  end.

(** [s.split(/\s+/)]: the pieces between maximal runs of whitespace; [cur]
    is the piece being read, [inws] tells that a run is being skipped. *)
Fixpoint split_ws_go (cur : string) (inws : bool) (s : string) : list string :=
  match s with
  | EmptyString => [cur]
  | String c s' =>
      if is_space c then
        if inws then split_ws_go cur true s'
        else cur :: split_ws_go EmptyString true s'
      else split_ws_go (cur +:+ String c EmptyString) false s'
  end.

Definition split_ws (s : string) : list string :=
  split_ws_go EmptyString false s.

Definition no_line_terminator (s : string) : bool :=
  match span (fun c => negb (is_line_terminator c)) s with
  | (_, EmptyString) => true
  | _ => false
  end.

(** Decimal rendering of an array index or a count. *)
Definition of_nat (n : nat) : string :=
  NilEmpty.string_of_uint (Nat.to_uint n).

End JS.

(* ================================================================= *)
(** ** JavaScript values, exceptions and the runtime *)

Local Set Warnings "-register-all".

(** A number is a double: a dyadic rational or an infinity ([JSON.parse]
    yields no NaN). *)
Inductive number :=
| Finite (mantissa exponent : Z)
| Infinite (negative : bool).

Inductive value :=
| VUndefined
| VNull
| VBool (b : bool)
| VNum (n : number)
| VStr (s : string)
| VArr (items : list value)
| VObj (props : list (string * value)).

Inductive outcome (A : Type) :=
| Ok (a : A)
| Throw (msg : string).
Arguments Ok {A} a.
Arguments Throw {A} msg.

(** The record a parser pushes: the object literal
    [{ ecosystem, name, version, dev, lockfile_source }]. *)
Record Dependency := {
  ecosystem : string;
  name : value;
  version : value;
  dev : value;
  lockfile_source : string;
}.

(** What the run does to the outside: console lines, the inventory written
    (the value handed to [JSON.stringify]) and the lines appended to the
    results channel.  The file system is taken to accept what is written. *)
Inductive effect :=
| ConsoleLog (line : string)
| ConsoleError (line : string)
| ConsoleWarn (line : string)
| WriteFile (path : string) (document : value)
| AppendFile (path : string) (text : string).

(** The file system ([fs.readFileSync(path, 'utf-8')] returns the content or
    throws), [process.env] and the clock ([new Date().toISOString()]). *)
Record World := {
  readFileSync : string -> outcome string;
  env : string -> option string;
  now : string;
}.

(** ToBoolean *)
Definition truthy (v : value) : bool :=
  match v with
  | VUndefined | VNull => false
  | VBool b => b
  | VNum (Finite m _) => negb (m =? 0)%Z
  | VNum (Infinite _) => true
  | VStr s => negb (JS.is_empty s)
  | VArr _ | VObj _ => true
  end.

(** [a || b] *)
Definition or_else (a b : value) : value := if truthy a then a else b.

Fixpoint lookup_prop (key : string) (props : list (string * value)) : value :=
  match props with
  | [] => VUndefined
  | (k, v) :: rest => if bool_decide (k = key) then v else lookup_prop key rest
  end.

(** The property read [v.key], for the keys the script reads (none is an
    index, [length] or an inherited property): a [TypeError] on [null] and
    [undefined], [undefined] on every value that is not an object. *)
Definition get (v : value) (key : string) : outcome value :=
  match v with
  | VUndefined =>
      Throw ("Cannot read properties of undefined (reading '" +:+ key +:+ "')")
  | VNull =>
      Throw ("Cannot read properties of null (reading '" +:+ key +:+ "')")
  | VObj props => Ok (lookup_prop key props)
  | _ => Ok VUndefined
  end.

Fixpoint indexed (i : nat) (items : list value) : list (string * value) :=
  match items with
  | [] => []
  | v :: rest => (JS.of_nat i, v) :: indexed (S i) rest
  end.

Fixpoint characters (s : string) : list value :=
  match s with
  | EmptyString => []
  | String c s' => VStr (String c EmptyString) :: characters s'
  end.

(** [Object.entries(v)] *)
Definition Object_entries (v : value) : outcome (list (string * value)) :=
  match v with
  | VUndefined | VNull => Throw "Cannot convert undefined or null to object"
  | VObj props => Ok props
  | VArr items => Ok (indexed 0 items)
  | VStr s => Ok (indexed 0 (characters s))
  | VBool _ | VNum _ => Ok []
  end.

(** [typeof v === 'object'] *)
Definition typeof_object (v : value) : bool :=
  match v with
  | VNull | VArr _ | VObj _ => true
  | _ => false
  end.

(** ** The parser monad

    The body of a [try] block: the records pushed on [dependencies] so far,
    and either a result or the exception that ended the block.  The records
    pushed before an exception stay in the array. *)
Definition M (A : Type) : Type := list Dependency * outcome A.

Definition ret {A} (a : A) : M A := ([], Ok a).

Definition bind {A B} (m : M A) (f : A -> M B) : M B :=
  match m with
  | (w, Ok a) => let (w', r) := f a in (w ++ w', r)
  | (w, Throw msg) => (w, Throw msg)
  end.

Definition lift {A} (o : outcome A) : M A := ([], o).

(** [dependencies.push(d)] *)
Definition push (d : Dependency) : M unit := ([d], Ok tt).

Notation "'let*' x ':=' m 'in' k" := (bind m (fun x => k))
  (at level 10, x pattern, m at level 200, k at level 200).
Notation "m ';;;' k" := (bind m (fun _ => k))
  (at level 100, k at level 200, right associativity).

(** [for (const x of l) body], where [continue] ends [body] with [ret tt]. *)
Fixpoint for_of {A} (l : list A) (body : A -> M unit) : M unit :=
  match l with
  | [] => ret tt
  | x :: rest => body x ;;; for_of rest body
  end.

(** A record the parser classified as a development dependency, and one it
    did not. *)
Definition classified_dev (dep : Dependency) : bool := truthy (dev dep).

Definition production (dep : Dependency) : bool := negb (classified_dev dep).

(** Two runs of a piece of a parser, the first with development
    dependencies excluded: it ends as the second does, and its records are
    the records of the second that are not classified dev, in their order. *)
Definition excludes_dev {A} (m0 m1 : M A) : Prop :=
  fst m0 = List.filter production (fst m1) /\ snd m0 = snd m1.

(** A non-empty string. *)
Definition nonempty_string (v : value) : bool :=
  match v with
  | VStr (String _ _) => true
  | _ => false
  end.

(** A parser function around its [try] block: the [catch] logs the message
    and the function returns [dependencies] either way. *)
Definition try_catch (filePath : string) (body : M unit)
  : list effect * list Dependency :=
  match body with
  | (deps, Ok _) =>
      ([ConsoleLog ("Parsed " +:+ JS.of_nat (length deps)
                    +:+ " packages from " +:+ filePath)], deps)
  | (deps, Throw msg) =>
      ([ConsoleError ("Error parsing " +:+ filePath +:+ ": " +:+ msg)], deps)
  end.

(** The module constants read from the environment. *)
Definition LOCKFILES (W : World) : string :=
  match env W "LOCKFILES" with Some s => s | None => "" end.

Definition PROJECT_ID (W : World) : string :=
  match env W "PROJECT_ID" with
  | Some s => if JS.is_empty s then "unknown" else s
  | None => "unknown"
  end.

Definition INCLUDE_DEV (W : World) : bool :=
  negb (bool_decide (env W "INCLUDE_DEV" = Some "false")).

Definition WORKING_DIR (W : World) : string :=
  match env W "WORKING_DIR" with
  | Some s => if JS.is_empty s then "." else s
  | None => "."
  end.

(* ================================================================= *)
(** ** The parsers of text formats *)

Definition LF : string := String "010"%char EmptyString.

Definition is_not (x : ascii) (c : ascii) : bool := negb (JS.char_eqb c x).

(** *** requirements.txt *)

(** [[a-zA-Z0-9_-]] *)
Definition is_requirement_name_char (c : ascii) : bool :=
  JS.is_lower c || JS.is_upper c || JS.is_digit c
  || JS.char_eqb c "_" || JS.char_eqb c "-".

(** [[=<>!~]] *)
Definition is_operator_char (c : ascii) : bool :=
  JS.char_eqb c "=" || JS.char_eqb c "<" || JS.char_eqb c ">"
  || JS.char_eqb c "!" || JS.char_eqb c "~".

(** [[^\s;#]] *)
Definition is_version_char (c : ascii) : bool :=
  negb (JS.is_space c || JS.char_eqb c ";" || JS.char_eqb c "#").

(** [(?:\[[^\]]+\])?] at the head of [s]: the extras matched and the rest,
    when the bracket closes. *)
Definition match_extras (s : string) : option (string * string) :=
  match s with
  | String "["%char s1 =>
      let (e, s2) := JS.span (is_not "]") s1 in
      match e, s2 with
      | String _ _, String "]"%char s3 => Some ("[" +:+ e +:+ "]", s3)
      | _, _ => None
      end
  | _ => None
  end.

(** [trimmed.match(/^([a-zA-Z0-9_-]+(?:\[[^\]]+\])?)\s*([=<>!~]+)?\s*([^\s;#]+)?/)]:
    the groups 1 and 3 ([None] for a group that did not take part).  Every
    part after the name is optional, so the greedy choices are never
    undone. *)
Definition match_requirement (trimmed : string)
  : option (string * option string) :=
  let (n, s1) := JS.span is_requirement_name_char trimmed in
  if JS.is_empty n then None
  else
    let (g1, s2) :=
      match match_extras s1 with
      | Some (e, r) => (n +:+ e, r)
      | None => (n, s1)
      end in
    let (_, s4) := JS.span is_operator_char (JS.skip_spaces s2) in
    let (v, _) := JS.span is_version_char (JS.skip_spaces s4) in
    Some (g1, if JS.is_empty v then None else Some v).

(** [s.replace(/\[.*\]$/, '')]: cut at the leftmost bracket from which the
    rest, free of line terminators, runs to a closing bracket at the end. *)
Fixpoint remove_extras (s : string) : string :=
  match s with
  | EmptyString => EmptyString
  | String c s' =>
      if JS.char_eqb c "[" && JS.endsWith "]" s' && JS.no_line_terminator s'
      then EmptyString
      else String c (remove_extras s')
  end.

(** [s.replace(/[,;].*$/, '')] *)
Fixpoint remove_clauses (s : string) : string :=
  match s with
  | EmptyString => EmptyString
  | String c s' =>
      if (JS.char_eqb c "," || JS.char_eqb c ";") && JS.no_line_terminator s'
      then EmptyString
      else String c (remove_clauses s')
  end.

Definition requirement_line (filePath line : string) : M unit :=
  let trimmed := JS.trim line in
  if JS.is_empty trimmed || JS.startsWith "#" trimmed || JS.startsWith "-" trimmed
  then ret tt
  else
    match match_requirement trimmed with
    | Some (g1, g3) =>
        let name := remove_extras g1 in
        let version := match g3 with Some v => v | None => "*" end in
        let version := JS.trim (remove_clauses version) in
        if JS.is_empty name then ret tt
        else push {| ecosystem := "pypi";
                     name := VStr (JS.toLowerCase name);
                     version := VStr version;
                     dev := VBool (JS.includes "dev" filePath
                                   || JS.includes "test" filePath);
                     lockfile_source := filePath |}
    | None => ret tt
    end.

Definition parseRequirements (W : World) (filePath : string)
  : list effect * list Dependency :=
  try_catch filePath
    (let* content := lift (readFileSync W filePath) in
     for_of (JS.split LF content) (requirement_line filePath)).

(** *** poetry.lock and Cargo.lock *)

(** The pattern [key\s*=\s*Q([^Q]+)Q], where Q is the double quote
    (character 34), anchored at the head of [s]. *)
Definition match_assignment_here (key s : string) : option string :=
  if JS.startsWith key s then
    match JS.skip_spaces (JS.drop (String.length key) s) with
    | String "="%char s1 =>
        match JS.skip_spaces s1 with
        | String "034"%char s2 =>
            let (v, s3) := JS.span (is_not "034") s2 in
            match v, s3 with
            | String _ _, String "034"%char _ => Some v
            | _, _ => None
            end
        | _ => None
        end
    | _ => None
    end
  else None.

(** [block.match(/^key\s*=\s*Q([^Q]+)Q/m)]: the capture at the first line
    start ([bol]) at which the pattern matches. *)
Fixpoint match_assignment_from (key : string) (bol : bool) (s : string)
  : option string :=
  match (if bol then match_assignment_here key s else None) with
  | Some v => Some v
  | None =>
      match s with
      | EmptyString => None
      | String c s' => match_assignment_from key (JS.is_line_terminator c) s'
      end
  end.

Definition match_assignment (key block : string) : option string :=
  match_assignment_from key true block.

Definition poetry_block (include_dev : bool) (filePath block : string) : M unit :=
  match match_assignment "name" block, match_assignment "version" block with
  | Some n, Some v =>
      (* categoryMatch && categoryMatch[1] === 'dev' *)
      let isDev :=
        match match_assignment "category" block with
        | Some c => VBool (bool_decide (c = "dev"))
        | None => VNull
        end in
      if truthy isDev && negb include_dev then ret tt
      else push {| ecosystem := "pypi";
                   name := VStr (JS.toLowerCase n);
                   version := VStr v;
                   dev := isDev;
                   lockfile_source := filePath |}
  | _, _ => ret tt
  end.

Definition parsePoetryLock (W : World) (filePath : string)
  : list effect * list Dependency :=
  try_catch filePath
    (let* content := lift (readFileSync W filePath) in
     for_of (tail (JS.split "[[package]]" content))
       (poetry_block (INCLUDE_DEV W) filePath)).

Definition cargo_block (filePath block : string) : M unit :=
  match match_assignment "name" block, match_assignment "version" block with
  | Some n, Some v =>
      push {| ecosystem := "cargo";
              name := VStr n;
              version := VStr v;
              dev := VBool false;
              lockfile_source := filePath |}
  | _, _ => ret tt
  end.

Definition parseCargoLock (W : World) (filePath : string)
  : list effect * list Dependency :=
  try_catch filePath
    (let* content := lift (readFileSync W filePath) in
     for_of (tail (JS.split "[[package]]" content)) (cargo_block filePath)).

(** *** go.sum and go.mod *)

Definition go_record (filePath name version : string) : Dependency :=
  {| ecosystem := "go";
     name := VStr name;
     version := VStr version;
     dev := VBool false;
     lockfile_source := filePath |}.

Definition go_sum_line (filePath line : string) : M unit :=
  let trimmed := JS.trim line in
  if JS.is_empty trimmed then ret tt
  else
    match JS.split_ws trimmed with
    | name :: version :: _ =>
        let version :=
          if JS.endsWith "/go.mod" version
          then JS.remove_first "/go.mod" version
          else version in
        if JS.is_empty name || JS.is_empty version then ret tt
        else push (go_record filePath name version)
    | _ => ret tt
    end.

Definition parseGoSum (W : World) (filePath : string)
  : list effect * list Dependency :=
  try_catch filePath
    (let* content := lift (readFileSync W filePath) in
     for_of (JS.split LF content) (go_sum_line filePath)).

(** [trimmed.replace(/^require\s+/, '')] *)
Definition remove_require (trimmed : string) : string :=
  if JS.startsWith "require" trimmed then
    match JS.span JS.is_space (JS.drop 7 trimmed) with
    | (String _ _, rest) => rest
    | (EmptyString, _) => trimmed
    end
  else trimmed.

(** The loop of [parseGoMod]; [inRequireBlock] is its flag. *)
Fixpoint go_mod_lines (filePath : string) (inRequireBlock : bool)
  (lines : list string) : M unit :=
  match lines with
  | [] => ret tt
  | line :: rest =>
      let trimmed := JS.trim line in
      if JS.is_empty trimmed || JS.startsWith "//" trimmed
      then go_mod_lines filePath inRequireBlock rest
      else if JS.startsWith "require (" trimmed
      then go_mod_lines filePath true rest
      else if inRequireBlock && JS.startsWith ")" trimmed
      then go_mod_lines filePath false rest
      else
        let candidate :=
          if inRequireBlock then Some trimmed
          else if JS.startsWith "require " trimmed
               then Some (remove_require trimmed)
               else None in
        (match candidate with
         | Some (String _ _ as candidate) =>
             let cleaned := JS.trim (hd EmptyString (JS.split "//" candidate)) in
             match JS.split_ws cleaned with
             | name :: version :: _ =>
                 if JS.is_empty name || JS.is_empty version then ret tt
                 else push (go_record filePath name version)
             | _ => ret tt
             end
         | _ => ret tt
         end) ;;;
        go_mod_lines filePath inRequireBlock rest
  end.

Definition parseGoMod (W : World) (filePath : string)
  : list effect * list Dependency :=
  try_catch filePath
    (let* content := lift (readFileSync W filePath) in
     go_mod_lines filePath false (JS.split LF content)).

(** *** Gemfile.lock *)

(** [[A-Za-z0-9_.-]] *)
Definition is_gem_name_char (c : ascii) : bool :=
  JS.is_upper c || JS.is_lower c || JS.is_digit c
  || JS.char_eqb c "_" || JS.char_eqb c "." || JS.char_eqb c "-".

(** [line.match(/^\s{4}([A-Za-z0-9_.-]+)\s+\(([^)]+)\)/)]: groups 1 and 2. *)
Definition match_spec (line : string) : option (string * string) :=
  match line with
  | String a (String b (String c (String d s1))) =>
      if JS.is_space a && JS.is_space b && JS.is_space c && JS.is_space d then
        match JS.span is_gem_name_char s1 with
        | (String _ _ as n, s2) =>
            match JS.span JS.is_space s2 with
            | (String _ _, String "("%char s3) =>
                match JS.span (is_not ")") s3 with
                | (String _ _ as v, String ")"%char _) => Some (n, v)
                | _ => None
                end
            | _ => None
            end
        | _ => None
        end
      else None
  | _ => None
  end.

(** [/^[A-Z]/.test(s)] *)
Definition starts_upper (s : string) : bool :=
  match s with
  | String c _ => JS.is_upper c
  | EmptyString => false
  end.

(** The loop of [parseGemfileLock]; [inSpecs] is its flag. *)
Fixpoint gemfile_lines (filePath : string) (inSpecs : bool)
  (lines : list string) : M unit :=
  match lines with
  | [] => ret tt
  | line :: rest =>
      if bool_decide (JS.trim line = "specs:")
      then gemfile_lines filePath true rest
      else if inSpecs && JS.is_empty (JS.trim line)
      then gemfile_lines filePath inSpecs rest
      else
        let inSpecs :=
          if inSpecs && starts_upper (JS.trim line) then false else inSpecs in
        if negb inSpecs then gemfile_lines filePath inSpecs rest
        else
          (match match_spec line with
           | Some (name, versions) =>
               let version := JS.trim (hd EmptyString (JS.split "," versions)) in
               if JS.is_empty name || JS.is_empty version then ret tt
               else push {| ecosystem := "rubygems";
                            name := VStr name;
                            version := VStr version;
                            dev := VBool false;
                            lockfile_source := filePath |}
           | None => ret tt
           end) ;;;
          gemfile_lines filePath inSpecs rest
  end.

Definition parseGemfileLock (W : World) (filePath : string)
  : list effect * list Dependency :=
  try_catch filePath
    (let* content := lift (readFileSync W filePath) in
     gemfile_lines filePath false (JS.split LF content)).

(** *** pom.xml *)

(** [s.replace(/OPEN[\s\S]*?CLOSE/g, '')] for two literal tags: each block
    runs from an opening tag to the first closing tag after it.  When no
    closing tag is left, nothing more matches. *)
Fixpoint remove_blocks_fuel (n : nat) (opening closing s : string) : string :=
  match n with
  | O => s
  | S n' =>
      match JS.cut opening s with
      | None => s
      | Some (before, rest) =>
          match JS.cut closing rest with
          | None => s
          | Some (_, after) =>
              before +:+ remove_blocks_fuel n' opening closing after
          end
      end
  end.

Definition remove_blocks (opening closing s : string) : string :=
  remove_blocks_fuel (String.length s) opening closing s.

(** [s.match(/OPEN[\s\S]*?CLOSE/g) || []]: the blocks, tags included. *)
Fixpoint blocks_fuel (n : nat) (opening closing s : string) : list string :=
  match n with
  | O => []
  | S n' =>
      match JS.cut opening s with
      | None => []
      | Some (_, rest) =>
          match JS.cut closing rest with
          | None => []
          | Some (body, after) =>
              (opening +:+ body +:+ closing)
              :: blocks_fuel n' opening closing after
          end
      end
  end.

Definition blocks (opening closing s : string) : list string :=
  blocks_fuel (String.length s) opening closing s.

Definition open_tag (tag : string) : string := "<" +:+ tag +:+ ">".
Definition close_tag (tag : string) : string := "</" +:+ tag +:+ ">".

(** [/<tag>([^<]+)<\/tag>/] anchored at the head of [s]. *)
Definition match_element_here (tag s : string) : option string :=
  if JS.startsWith (open_tag tag) s then
    match JS.span (is_not "<") (JS.drop (String.length (open_tag tag)) s) with
    | (String _ _ as v, rest) =>
        if JS.startsWith (close_tag tag) rest then Some v else None
    | _ => None
    end
  else None.

(** [block.match(/<tag>([^<]+)<\/tag>/)]: the capture of the leftmost match. *)
Fixpoint match_element (tag s : string) : option string :=
  match match_element_here tag s with
  | Some v => Some v
  | None =>
      match s with
      | EmptyString => None
      | String _ s' => match_element tag s'
      end
  end.

(** [scopeMatch ? scopeMatch[1].trim() : ''] *)
Definition maven_scope (block : string) : string :=
  match match_element "scope" block with
  | Some s => JS.trim s
  | None => EmptyString
  end.

Definition maven_block (include_dev : bool) (filePath block : string) : M unit :=
  match match_element "groupId" block, match_element "artifactId" block,
        match_element "version" block with
  | Some g, Some a, Some v =>
      let groupId := JS.trim g in
      let artifactId := JS.trim a in
      let version := JS.trim v in
      let scope := maven_scope block in
      if JS.is_empty groupId || JS.is_empty artifactId || JS.is_empty version
      then ret tt
      else if JS.includes "${" version then ret tt
      else
        let isDev := bool_decide (scope = "test") in
        if isDev && negb include_dev then ret tt
        else push {| ecosystem := "maven";
                     name := VStr (groupId +:+ ":" +:+ artifactId);
                     version := VStr version;
                     dev := VBool isDev;
                     lockfile_source := filePath |}
  | _, _, _ => ret tt
  end.

Definition remove_dependencyManagement (content : string) : string :=
  remove_blocks "<dependencyManagement>" "</dependencyManagement>" content.

Definition dependency_blocks (content : string) : list string :=
  blocks "<dependency>" "</dependency>" content.

Definition parseMavenPom (W : World) (filePath : string)
  : list effect * list Dependency :=
  try_catch filePath
    (let* content := lift (readFileSync W filePath) in
     let content := remove_dependencyManagement content in
     for_of (dependency_blocks content) (maven_block (INCLUDE_DEV W) filePath)).

(* ================================================================= *)
(** ** The parsers of JSON formats, the dispatcher and the inventory *)

Section Script.

(** The runtime functions the script calls: [JSON.parse] (a value or a
    [SyntaxError]), the rendering of a number in a template literal, and
    [path.join]. *)
Variable JSON_parse : string -> outcome value.
Variable Number_toString : number -> string.
Variable path_join : string -> string -> string.

(** The string a template literal makes of a value (for an object, the
    default conversion of a plain object).  The conversion of the script
    throws a [TypeError] on an object that has a [toString] key of its own,
    and on an array that holds one: [ToString] is the conversion on the
    other values ([printable]). *)
Fixpoint ToString (v : value) : string :=
  match v with
  | VUndefined => "undefined"
  | VNull => "null"
  | VBool true => "true"
  | VBool false => "false"
  | VNum n => Number_toString n
  | VStr s => s
  | VArr items =>
      JS.join ","
        (List.map (fun x => match x with
                            | VUndefined | VNull => EmptyString
                            | _ => ToString x
                            end) items)
  | VObj _ => "[object Object]"
  end.

(** *** package-lock.json *)

(** [pkgPath.replace(/^node_modules\//, '').split('node_modules/').pop()] *)
Definition package_name (pkgPath : string) : string :=
  let stripped :=
    if JS.startsWith "node_modules/" pkgPath
    then JS.drop 13 pkgPath else pkgPath in
  List.last (JS.split "node_modules/" stripped) EmptyString.

(** The body of the loop over [Object.entries(lock.packages)]. *)
Definition npm_package (include_dev : bool) (filePath : string)
  (entry : string * value) : M unit :=
  let (pkgPath, pkg) := entry in
  if JS.is_empty pkgPath then ret tt
  else
    let name := package_name pkgPath in
    if JS.is_empty name then ret tt
    else
      let* version := lift (get pkg "version") in
      if negb (truthy version) then ret tt
      else
        let* pkg_dev := lift (get pkg "dev") in
        if truthy pkg_dev && negb include_dev then ret tt
        else push {| ecosystem := "npm";
                     name := VStr name;
                     version := version;
                     dev := or_else pkg_dev (VBool false);
                     lockfile_source := filePath |}.

(** One entry [name, info] of the loop of [parseDepsV1], [nested] being the
    recursion into [info.dependencies]. *)
Definition deps_v1_entry (include_dev : bool) (filePath : string) (isDev : bool)
  (name : string) (info : value) (nested : M unit) : M unit :=
  let* version := lift (get info "version") in
  if negb (truthy version) then ret tt
  else if isDev && negb include_dev then ret tt
  else
    push {| ecosystem := "npm";
            name := VStr name;
            version := version;
            dev := VBool isDev;
            lockfile_source := filePath |} ;;;
    nested.

(** [parseDepsV1(deps, isDev)], by recursion on the parsed value: the loop
    over [Object.entries(deps)] and, for an entry that is an object with a
    truthy [dependencies] property, the nested call. *)
Fixpoint parseDepsV1 (include_dev : bool) (filePath : string)
  (deps : value) (isDev : bool) {struct deps} : M unit :=
  match deps with
  | VUndefined | VNull => lift (Throw "Cannot convert undefined or null to object")
  | VBool _ | VNum _ => ret tt
  | VStr s =>
      for_of (indexed 0 (characters s))
        (fun '(name, info) =>
           deps_v1_entry include_dev filePath isDev name info (ret tt))
  | VArr items =>
      (fix each (i : nat) (items : list value) : M unit :=
         match items with
         | [] => ret tt
         | info :: rest =>
             deps_v1_entry include_dev filePath isDev (JS.of_nat i) info
               (match info with
                | VObj props =>
                    (fix find (props : list (string * value)) : M unit :=
                       match props with
                       | [] => ret tt
                       | (k, v) :: others =>
                           if bool_decide (k = "dependencies")
                           then if truthy v
                                then parseDepsV1 include_dev filePath v isDev
                                else ret tt
                           else find others
                       end) props
                | _ => ret tt
                end) ;;;
             each (S i) rest
         end) 0 items
  | VObj entries =>
      (fix each (entries : list (string * value)) : M unit :=
         match entries with
         | [] => ret tt
         | (name, info) :: rest =>
             deps_v1_entry include_dev filePath isDev name info
               (match info with
                | VObj props =>
                    (fix find (props : list (string * value)) : M unit :=
                       match props with
                       | [] => ret tt
                       | (k, v) :: others =>
                           if bool_decide (k = "dependencies")
                           then if truthy v
                                then parseDepsV1 include_dev filePath v isDev
                                else ret tt
                           else find others
                       end) props
                | _ => ret tt
                end) ;;;
             each rest
         end) entries
  end.

Definition parseNpmLockfile (W : World) (filePath : string)
  : list effect * list Dependency :=
  try_catch filePath
    (let* content := lift (readFileSync W filePath) in
     let* lock := lift (JSON_parse content) in
     let* packages := lift (get lock "packages") in
     if truthy packages then
       let* entries := lift (Object_entries packages) in
       for_of entries (npm_package (INCLUDE_DEV W) filePath)
     else
       let* dependencies := lift (get lock "dependencies") in
       if truthy dependencies then
         parseDepsV1 (INCLUDE_DEV W) filePath dependencies false ;;;
         let* devDependencies := lift (get lock "devDependencies") in
         if truthy devDependencies
         then parseDepsV1 (INCLUDE_DEV W) filePath devDependencies true
         else ret tt
       else ret tt).

(** *** composer.lock *)

Definition composer_package (filePath : string) (isDev : bool) (pkg : value)
  : M unit :=
  let* pkg_name := lift (get pkg "name") in
  if negb (truthy pkg_name) then ret tt
  else
    let* pkg_version := lift (get pkg "version") in
    if negb (truthy pkg_version) then ret tt
    else push {| ecosystem := "composer";
                 name := pkg_name;
                 version := pkg_version;
                 dev := VBool isDev;
                 lockfile_source := filePath |}.

(** [Array.isArray(v) ? v : []] *)
Definition array_or_empty (v : value) : list value :=
  match v with
  | VArr items => items
  | _ => []
  end.

Definition parseComposerLock (W : World) (filePath : string)
  : list effect * list Dependency :=
  try_catch filePath
    (let* content := lift (readFileSync W filePath) in
     let* lock := lift (JSON_parse content) in
     let* packages := lift (get lock "packages") in
     let* packagesDev := lift (get lock "packages-dev") in
     for_of (array_or_empty packages) (composer_package filePath false) ;;;
     if INCLUDE_DEV W
     then for_of (array_or_empty packagesDev) (composer_package filePath true)
     else ret tt).

(** *** packages.lock.json *)

Definition nuget_package (filePath : string) (entry : string * value) : M unit :=
  let (name, info) := entry in
  if negb (truthy info) || negb (typeof_object info) then ret tt
  else
    let* resolved := lift (get info "resolved") in
    let* version :=
      if truthy resolved then ret resolved
      else
        let* info_version := lift (get info "version") in
        if truthy info_version then ret info_version
        else lift (get info "requested") in
    if negb (truthy version) then ret tt
    else push {| ecosystem := "nuget";
                 name := VStr name;
                 version := version;
                 dev := VBool false;
                 lockfile_source := filePath |}.

Definition nuget_target (filePath : string) (target : value) : M unit :=
  if negb (truthy target) || negb (typeof_object target) then ret tt
  else
    let* entries := lift (Object_entries target) in
    for_of entries (nuget_package filePath).

Definition parseNugetLock (W : World) (filePath : string)
  : list effect * list Dependency :=
  try_catch filePath
    (let* content := lift (readFileSync W filePath) in
     let* lock := lift (JSON_parse content) in
     let* dependencies := lift (get lock "dependencies") in
     let targets := or_else dependencies (VObj []) in
     let* entries := lift (Object_entries targets) in
     for_of (List.map snd entries) (nuget_target filePath)).

(** *** The dispatcher *)

(** The [switch (type)] of [main]: the parser of the kind, or the warning. *)
Definition dispatch (W : World) (type filePath : string)
  : list effect * list Dependency :=
  if bool_decide (type = "npm") then parseNpmLockfile W filePath
  else if bool_decide (type = "requirements") then parseRequirements W filePath
  else if bool_decide (type = "poetry") then parsePoetryLock W filePath
  else if bool_decide (type = "go") then
    if JS.endsWith "go.sum" filePath
    then parseGoSum W filePath
    else parseGoMod W filePath
  else if bool_decide (type = "rubygems") then parseGemfileLock W filePath
  else if bool_decide (type = "cargo") then parseCargoLock W filePath
  else if bool_decide (type = "composer") then parseComposerLock W filePath
  else if bool_decide (type = "nuget") then parseNugetLock W filePath
  else if bool_decide (type = "maven") then parseMavenPom W filePath
  else ([ConsoleWarn ("Unknown lockfile type: " +:+ type)], []).

(** The kinds the [switch] has a case for. *)
Definition kinds : list string :=
  ["npm"; "requirements"; "poetry"; "go"; "rubygems"; "cargo"; "composer";
   "nuget"; "maven"].

(** [const [type, ...pathParts] = entry.split(':')] and
    [pathParts.join(':')]. *)
Definition entry_type (entry : string) : string :=
  hd EmptyString (JS.split ":" entry).

Definition entry_path (entry : string) : string :=
  JS.join ":" (tail (JS.split ":" entry)).

(** One round of the loop of [main]: what it prints and what it appends to
    [allDependencies]. *)
Definition process_entry (W : World) (entry : string)
  : list effect * list Dependency :=
  let filePath := entry_path entry in
  if JS.is_empty filePath then ([], [])
  else dispatch W (entry_type entry) filePath.

Fixpoint process_entries (W : World) (entries : list string)
  : list effect * list Dependency :=
  match entries with
  | [] => ([], [])
  | entry :: rest =>
      let (out, deps) := process_entry W entry in
      let (out', deps') := process_entries W rest in
      (out ++ out', deps ++ deps')
  end.

(** *** The deduplicator *)

Definition dedup_key (dep : Dependency) : string :=
  ecosystem dep +:+ ":" +:+ ToString (name dep) +:+ ":" +:+ ToString (version dep).

(** [allDependencies.filter(...)] with the set [seen] of the keys met. *)
Fixpoint unique_from (seen : gset string) (deps : list Dependency)
  : list Dependency :=
  match deps with
  | [] => []
  | dep :: rest =>
      if bool_decide (dedup_key dep ∈ seen) then unique_from seen rest
      else dep :: unique_from ({[dedup_key dep]} ∪ seen) rest
  end.

Definition unique (deps : list Dependency) : list Dependency :=
  unique_from ∅ deps.

(** The identity the specification gives a record: the triple of its
    ecosystem, name and version, as strings. *)
Definition triple (dep : Dependency) : string * string * string :=
  (ecosystem dep, ToString (name dep), ToString (version dep)).

(** The deduplication in the words of the specification: keep a record
    when no earlier record has its triple. *)
Fixpoint first_occurrences (seen : list (string * string * string))
  (deps : list Dependency) : list Dependency :=
  match deps with
  | [] => []
  | dep :: rest =>
      if bool_decide (triple dep ∈ seen) then first_occurrences seen rest
      else dep :: first_occurrences (triple dep :: seen) rest
  end.

(** The ecosystems of the data model. *)
Definition ecosystems : list string :=
  ["npm"; "pypi"; "go"; "rubygems"; "cargo"; "composer"; "nuget"; "maven"].

(** What holds of every record of every parser run on [filePath]: a known
    ecosystem, a [dev] that is not [undefined], and the path as source. *)
Definition record_of (filePath : string) (dep : Dependency) : Prop :=
  ecosystem dep ∈ ecosystems
  /\ dev dep <> VUndefined
  /\ lockfile_source dep = filePath.

(** *** The inventory *)

(** The object [writeInventory] makes of a record: [dev] when it is not
    [undefined], [lockfile_source] when it is truthy. *)
Definition inventory_entry (dep : Dependency) : value :=
  VObj ([("ecosystem", VStr (ecosystem dep));
         ("name", name dep);
         ("version", version dep)]
        ++ (match dev dep with
            | VUndefined => []
            | d => [("dev", d)]
            end)
        ++ (if JS.is_empty (lockfile_source dep) then []
            else [("lockfile_source", VStr (lockfile_source dep))])).

Definition inventory (W : World) (dependencies : list Dependency) : value :=
  VObj [("project_id", VStr (PROJECT_ID W));
        ("generated_at", VStr (now W));
        ("source", VStr "github-action");
        ("dependencies", VArr (List.map inventory_entry dependencies))].

Definition writeInventory (W : World) (dependencies : list Dependency)
  : list effect :=
  let outputPath := path_join (WORKING_DIR W) ".canary-inventory.json" in
  [WriteFile outputPath (inventory W dependencies);
   ConsoleLog ("Wrote inventory to " +:+ outputPath)]
  ++ match env W "GITHUB_OUTPUT" with
     | Some (String _ _ as outputFile) =>
         [AppendFile outputFile
            ("packages_count=" +:+ JS.of_nat (length dependencies) +:+ LF);
          AppendFile outputFile ("inventory_path=" +:+ outputPath +:+ LF)]
     | _ => []
     end.

(** The [dependencies] array of a written document, and the arrays a run
    writes. *)
Definition document_dependencies (document : value) : value :=
  match document with
  | VObj props => lookup_prop "dependencies" props
  | _ => VUndefined
  end.

Definition written_dependencies (out : list effect) : list value :=
  flat_map (fun e => match e with
                     | WriteFile _ document => [document_dependencies document]
                     | _ => []
                     end) out.

(** The records [main] hands to [writeInventory], and the run, when the
    deduplication converts every name and version ([printable]): a
    conversion that throws ends the script before the inventory is
    written. *)
Definition main_dependencies (W : World) : list Dependency :=
  if JS.is_empty (LOCKFILES W) then []
  else unique (snd (process_entries W (JS.split "," (LOCKFILES W)))).

Definition main (W : World) : list effect :=
  if JS.is_empty (LOCKFILES W) then
    ConsoleLog "No lockfiles to parse" :: writeInventory W []
  else
    let (out, allDependencies) :=
      process_entries W (JS.split "," (LOCKFILES W)) in
    let unique := unique allDependencies in
    out
    ++ [ConsoleLog ("Total unique packages: " +:+ JS.of_nat (length unique))]
    ++ writeInventory W unique.

End Script.

(* ================================================================= *)
(** ** Sample inputs *)

Fixpoint assoc {A} (key : string) (table : list (string * A)) : option A :=
  match table with
  | [] => None
  | (k, v) :: rest => if bool_decide (k = key) then Some v else assoc key rest
  end.

(** A world with the given files and environment variables; reading any
    other path throws. *)
Definition sample_world (files vars : list (string * string)) : World :=
  {| readFileSync := fun path =>
       match assoc path files with
       | Some content => Ok content
       | None => Throw ("ENOENT: no such file or directory, open '" +:+ path +:+ "'")
       end;
     env := fun key => assoc key vars;
     now := "2024-01-01T00:00:00.000Z" |}.

(** A [JSON.parse] that knows the documents of a table. *)
Definition sample_JSON_parse (table : list (string * value)) (text : string)
  : outcome value :=
  match assoc text table with
  | Some v => Ok v
  | None => Throw "Unexpected end of JSON input"
  end.

(** A rendering of numbers, exact on the natural numbers. *)
Definition sample_Number_toString (n : number) : string :=
  match n with
  | Finite m 0 => JS.of_nat (Z.to_nat m)
  | Finite _ _ => "NaN"
  | Infinite false => "Infinity"
  | Infinite true => "-Infinity"
  end.

Definition sample_path_join (dir file : string) : string :=
  dir +:+ "/" +:+ file.

(** A [JSON.parse] for the runs that parse no JSON. *)
Definition no_JSON : string -> outcome value := sample_JSON_parse [].

(** The requirements file of the end-to-end example. *)
Definition requirements_example : string :=
  "flask==2.0.0" +:+ LF +:+ "requests>=2.28.0" +:+ LF +:+ "# comment" +:+ LF
  +:+ "-r other.txt" +:+ LF +:+ "pytest==7.0.0".

Definition pypi_record (filePath name version : string) : Dependency :=
  {| ecosystem := "pypi";
     name := VStr name;
     version := VStr version;
     dev := VBool (JS.includes "dev" filePath || JS.includes "test" filePath);
     lockfile_source := filePath |}.

(** A development requirements file, scanned with development dependencies
    excluded. *)
Definition dev_requirements_world : World :=
  sample_world [("requirements-dev.txt", "pytest==7.0.0")]
               [("LOCKFILES", "requirements:requirements-dev.txt");
                ("INCLUDE_DEV", "false")].

(** A requirements file whose version clause starts with a comma. *)
Definition comma_requirements_world : World :=
  sample_world [("requirements.txt", "flask ,<2.0")]
               [("LOCKFILES", "requirements:requirements.txt")].

(** A go.sum with two modules whose names and versions differ and whose
    keys are the same string. *)
Definition colon_go_sum : string :=
  "example.com/a:b v1 h1:x" +:+ LF +:+ "example.com/a b:v1 h1:y".

Definition colon_world : World :=
  sample_world [("go.sum", colon_go_sum)] [("LOCKFILES", "go:go.sum")].

Definition colon_first : Dependency :=
  go_record "go.sum" "example.com/a:b" "v1".

Definition colon_second : Dependency :=
  go_record "go.sum" "example.com/a" "b:v1".

(** A string between double quotes. *)
Definition quoted (s : string) : string :=
  String "034"%char s +:+ String "034"%char EmptyString.

(** A poetry.lock with one package that has no [category] line. *)
Definition poetry_example : string :=
  "[[package]]" +:+ LF
  +:+ "name = " +:+ quoted "requests" +:+ LF
  +:+ "version = " +:+ quoted "2.28.0" +:+ LF
  +:+ "description = " +:+ quoted "HTTP library" +:+ LF.

Definition poetry_world : World :=
  sample_world [("poetry.lock", poetry_example)]
               [("LOCKFILES", "poetry:poetry.lock")].

(** A pom with a managed dependency, a runtime dependency, a test
    dependency and a dependency whose version is a property. *)
Definition pom_managed : string :=
  "<dependencies><dependency><groupId>org.apache.commons</groupId>"
  +:+ "<artifactId>commons-lang3</artifactId><version>3.11</version>"
  +:+ "</dependency></dependencies>".

Definition pom_dependencies : string :=
  "<dependencies>"
  +:+ "<dependency><groupId>org.apache.commons</groupId>"
  +:+ "<artifactId>commons-lang3</artifactId><version>3.12.0</version>"
  +:+ "</dependency>"
  +:+ "<dependency><groupId>junit</groupId><artifactId>junit</artifactId>"
  +:+ "<version>4.13.2</version><scope>test</scope></dependency>"
  +:+ "<dependency><groupId>org.slf4j</groupId><artifactId>slf4j-api</artifactId>"
  +:+ "<version>${slf4j.version}</version></dependency>"
  +:+ "</dependencies></project>".

Definition pom_example : string :=
  "<project>" +:+ "<dependencyManagement>" +:+ pom_managed
  +:+ "</dependencyManagement>" +:+ pom_dependencies.

Definition pom_world (include_dev : string) : World :=
  sample_world [("pom.xml", pom_example)]
               [("LOCKFILES", "maven:pom.xml"); ("INCLUDE_DEV", include_dev)].

Definition maven_record (name version : string) (dev : bool) : Dependency :=
  {| ecosystem := "maven";
     name := VStr name;
     version := VStr version;
     dev := VBool dev;
     lockfile_source := "pom.xml" |}.

(** A package-lock.json whose second package entry is [null]: its text and
    the value [JSON.parse] makes of it. *)
Definition npm_broken_text : string :=
  "{" +:+ quoted "packages" +:+ ":{"
  +:+ quoted "node_modules/lodash" +:+ ":{"
  +:+ quoted "version" +:+ ":" +:+ quoted "4.17.21" +:+ "},"
  +:+ quoted "node_modules/broken" +:+ ":null}}".

Definition npm_broken_lock : value :=
  VObj [("packages",
         VObj [("node_modules/lodash", VObj [("version", VStr "4.17.21")]);
               ("node_modules/broken", VNull)])].

Definition npm_broken_JSON : string -> outcome value :=
  sample_JSON_parse [(npm_broken_text, npm_broken_lock)].

Definition npm_broken_world : World :=
  sample_world [("package-lock.json", npm_broken_text)]
               [("LOCKFILES", "npm:package-lock.json")].

(** The kinds whose file is JSON, and the kinds whose parser tests the name
    and the version it extracted. *)
Definition json_kinds : list string := ["npm"; "composer"; "nuget"].

Definition guarded_kinds : list string :=
  ["poetry"; "go"; "rubygems"; "cargo"; "maven"].

(** *** The fixtures of the test suite

    The text fixtures are the template literals of the tests (they start
    and end with a line break); a JSON fixture is the value of its object
    literal, under a text that stands for its serialization. *)

Definition text_of_lines (lines : list string) : string :=
  LF +:+ JS.join LF lines +:+ LF.

Definition fixture_requirements : string :=
  text_of_lines
    ["# Production dependencies"; "flask==2.0.0"; "requests>=2.28.0";
     "sqlalchemy~=1.4.0"; ""; "# Comment line"; "-r other-requirements.txt";
     ""; "# Dev dependencies in main file"; "pytest==7.0.0  # inline comment"].

Definition fixture_poetry : string :=
  text_of_lines
    ["[[package]]"; "name = " +:+ quoted "requests";
     "version = " +:+ quoted "2.28.0";
     "description = " +:+ quoted "HTTP library"; "";
     "[[package]]"; "name = " +:+ quoted "pytest";
     "version = " +:+ quoted "7.0.0";
     "description = " +:+ quoted "Testing framework";
     "category = " +:+ quoted "dev"; "";
     "[[package]]"; "name = " +:+ quoted "flask";
     "version = " +:+ quoted "2.0.0";
     "description = " +:+ quoted "Web framework"].

Definition fixture_goSum : string :=
  text_of_lines
    ["github.com/pkg/errors v0.9.1 h1:abcdef";
     "golang.org/x/net v0.7.0 h1:ghijkl";
     "golang.org/x/sys v0.6.0/go.mod h1:mnopqr"].

Definition fixture_goMod : string :=
  text_of_lines
    ["module example.com/test"; ""; "go 1.21"; ""; "require (";
     "  github.com/pkg/errors v0.9.1";
     "  golang.org/x/net v0.7.0 // indirect"; ")"].

Definition fixture_gemfile : string :=
  text_of_lines
    ["GEM"; "  remote: https://rubygems.org/"; "  specs:";
     "    rack (2.2.7)"; "    rake (13.0.6)"; ""; "PLATFORMS"; "  ruby"; "";
     "DEPENDENCIES"; "  rack"; "  rake"].

Definition fixture_cargo : string :=
  text_of_lines
    ["[[package]]"; "name = " +:+ quoted "serde";
     "version = " +:+ quoted "1.0.188"; "";
     "[[package]]"; "name = " +:+ quoted "tokio";
     "version = " +:+ quoted "1.32.0"].

Definition fixture_pom : string :=
  text_of_lines
    ["<project>"; "  <modelVersion>4.0.0</modelVersion>"; "  <dependencies>";
     "    <dependency>"; "      <groupId>org.apache.commons</groupId>";
     "      <artifactId>commons-lang3</artifactId>";
     "      <version>3.12.0</version>"; "    </dependency>";
     "    <dependency>"; "      <groupId>junit</groupId>";
     "      <artifactId>junit</artifactId>"; "      <version>4.13.2</version>";
     "      <scope>test</scope>"; "    </dependency>"; "  </dependencies>";
     "</project>"].

Definition fixture_package_lock_v3 : value :=
  VObj [("name", VStr "test-project");
        ("lockfileVersion", VNum (Finite 3 0));
        ("packages",
         VObj [("", VObj [("name", VStr "test-project");
                          ("version", VStr "1.0.0")]);
               ("node_modules/lodash", VObj [("version", VStr "4.17.21")]);
               ("node_modules/typescript",
                VObj [("version", VStr "5.0.0"); ("dev", VBool true)]);
               ("node_modules/jest",
                VObj [("version", VStr "29.0.0"); ("dev", VBool true)])])].

Definition fixture_composer : value :=
  VObj [("packages",
         VArr [VObj [("name", VStr "laravel/framework");
                     ("version", VStr "v10.0.0")]]);
        ("packages-dev",
         VArr [VObj [("name", VStr "phpunit/phpunit");
                     ("version", VStr "v10.1.0")]])].

Definition fixture_nuget : value :=
  VObj [("version", VNum (Finite 1 0));
        ("dependencies",
         VObj [("net7.0",
                VObj [("Newtonsoft.Json",
                       VObj [("resolved", VStr "13.0.1");
                             ("type", VStr "Direct")]);
                      ("Serilog",
                       VObj [("resolved", VStr "2.12.0");
                             ("type", VStr "Transitive")])])])].

Definition fixture_JSON : string -> outcome value :=
  sample_JSON_parse [("package-lock-v3", fixture_package_lock_v3);
                     ("composer", fixture_composer);
                     ("nuget", fixture_nuget)].

(** The world of a test: one file, under the path of its lockfile entry. *)
Definition test_world (kind path content include_dev : string) : World :=
  sample_world [(path, content)]
               [("LOCKFILES", kind +:+ ":" +:+ path);
                ("INCLUDE_DEV", include_dev)].

(** The name, version and [dev] of the records a test run hands to the
    inventory. *)
Definition test_run (kind path content include_dev : string)
  : list (value * value * value) :=
  List.map (fun d => (name d, version d, dev d))
    (main_dependencies fixture_JSON sample_Number_toString
       (test_world kind path content include_dev)).

(** The worlds of the end-to-end example, of a missing lockfile, and of a
    second run at a later time. *)
Definition requirements_world : World :=
  sample_world [("requirements.txt", requirements_example)]
               [("LOCKFILES", "requirements:requirements.txt")].

Definition missing_file_world : World :=
  sample_world [] [("LOCKFILES", "npm:package-lock.json")].

Definition later_world (W : World) : World :=
  {| readFileSync := readFileSync W;
     env := env W;
     now := "2025-06-30T12:00:00.000Z" |}.

(** The ecosystem each kind writes in its records, and the kinds whose
    parser writes [dev: false] in every record. *)
Definition ecosystem_of_kind (kind : string) : string :=
  if bool_decide (kind = "requirements") || bool_decide (kind = "poetry")
  then "pypi" else kind.

Definition never_dev_kinds : list string :=
  ["go"; "rubygems"; "cargo"; "nuget"].

(** The effects of a run on the file system: what it writes and what it
    appends, in order. *)
Definition is_file_effect (e : effect) : bool :=
  match e with
  | WriteFile _ _ | AppendFile _ _ => true
  | _ => false
  end.

Definition file_effects (out : list effect) : list effect :=
  List.filter is_file_effect out.

(** The path of the inventory, [path.join(WORKING_DIR, '.canary-inventory.json')]. *)
Definition outputPath (path_join : string -> string -> string) (W : World)
  : string :=
  path_join (WORKING_DIR W) ".canary-inventory.json".

(** The kinds of the Python ecosystem. *)
Definition pypi_kinds : list string := ["requirements"; "poetry"].

(** Every character of [s] is in the class [p]. *)
Fixpoint every (p : ascii -> bool) (s : string) : bool :=
  match s with
  | EmptyString => true
  | String c s' => p c && every p s'
  end.

Definition non_space (c : ascii) : bool := negb (JS.is_space c).

(** The ASCII characters, and the texts made of them: the texts on which
    the classes of characters of the model are those of JavaScript. *)
Definition is_ascii (c : ascii) : bool := (JS.code c <? 128)%N.

Definition ascii_text (s : string) : bool := every is_ascii s.

(** The characters of a version specifier that hold no comma. *)
Definition is_clean_version_char (c : ascii) : bool :=
  is_version_char c && negb (JS.char_eqb c ",").

(** The characters of a quoted value that stays on its line. *)
Definition is_plain_char (c : ascii) : bool :=
  is_not "034" c && negb (JS.is_line_terminator c).

(** A line [key = Qvalue Q] of a TOML block, Q being the double quote. *)
Definition assignment (key value : string) : string :=
  key +:+ " = " +:+ quoted value.

(** The characters of one version between the parentheses of a spec line. *)
Definition is_gem_version_char (c : ascii) : bool :=
  non_space c && is_not ")" c && is_not "," c.

(** A line [    name (version)] of a specs section. *)
Definition spec_line (name version : string) : string :=
  "    " +:+ name +:+ " (" +:+ version +:+ ")".

(** *** The earlier script

    [scripts/parse-all.js], the script before the parsers of Go, RubyGems,
    Cargo, Composer, NuGet and Maven were added: the same functions, and a
    [switch] with three cases. *)
Definition legacy_dispatch (JSON_parse : string -> outcome value) (W : World)
  (type filePath : string) : list effect * list Dependency :=
  if bool_decide (type = "npm") then parseNpmLockfile JSON_parse W filePath
  else if bool_decide (type = "requirements") then parseRequirements W filePath
  else if bool_decide (type = "poetry") then parsePoetryLock W filePath
  else ([ConsoleWarn ("Unknown lockfile type: " +:+ type)], []).

Definition legacy_process_entry (JSON_parse : string -> outcome value)
  (W : World) (entry : string) : list effect * list Dependency :=
  let filePath := entry_path entry in
  if JS.is_empty filePath then ([], [])
  else legacy_dispatch JSON_parse W (entry_type entry) filePath.

Fixpoint legacy_process_entries (JSON_parse : string -> outcome value)
  (W : World) (entries : list string) : list effect * list Dependency :=
  match entries with
  | [] => ([], [])
  | entry :: rest =>
      let (out, deps) := legacy_process_entry JSON_parse W entry in
      let (out', deps') := legacy_process_entries JSON_parse W rest in
      (out ++ out', deps ++ deps')
  end.

Definition legacy_main (JSON_parse : string -> outcome value)
  (Number_toString : number -> string)
  (path_join : string -> string -> string) (W : World) : list effect :=
  if JS.is_empty (LOCKFILES W) then
    ConsoleLog "No lockfiles to parse" :: writeInventory path_join W []
  else
    let (out, allDependencies) :=
      legacy_process_entries JSON_parse W (JS.split "," (LOCKFILES W)) in
    let unique := unique Number_toString allDependencies in
    out
    ++ [ConsoleLog ("Total unique packages: " +:+ JS.of_nat (length unique))]
    ++ writeInventory path_join W unique.

(** The kinds the later script added. *)
Definition later_kinds : list string :=
  ["go"; "rubygems"; "cargo"; "composer"; "nuget"; "maven"].

(** *** Inputs of the further properties *)

(** A run over two lockfiles. *)
Definition two_lockfiles : list string :=
  ["requirements:requirements.txt"; "go:go.sum"].

Definition two_lockfiles_world : World :=
  sample_world [("requirements.txt", requirements_example);
                ("go.sum", colon_go_sum)]
               [("LOCKFILES", "requirements:requirements.txt,go:go.sum")].

(** Files without the markers of their format. *)
Definition markerless_world : World :=
  sample_world [("Cargo.lock", "version = 3");
                ("Gemfile.lock", "GEM");
                ("go.mod", "module example.com/m");
                ("package-lock.json", "{}")] [].

Definition empty_object_JSON : string -> outcome value :=
  sample_JSON_parse [("{}", VObj [])].

(** *** Values a template literal converts

    The conversion to a string throws on an object with a [toString] key of
    its own (no value of a JSON document is a function), and on an array
    with such an element. *)
Fixpoint printable (v : value) : bool :=
  match v with
  | VObj props =>
      negb (existsb (fun p => bool_decide (fst p = "toString")) props)
  | VArr items => forallb printable items
  | _ => true
  end.

Definition printable_record (d : Dependency) : bool :=
  printable (name d) && printable (version d).

(** *** A pom, as the text of its parts

    The text of a pom: passages without the opening tags [<dependency>] and
    [<dependencyManagement>], dependencyManagement blocks, whose body is
    any text without the closing tag, and dependencies, each with its
    coordinate, its version and, maybe, its scope. *)
Record pom_dependency := {
  dep_groupId : string;
  dep_artifactId : string;
  dep_version : string;
  dep_scope : option string;
}.

Inductive pom_item :=
| pom_text (text : string)
| pom_management (body : string)
| pom_dependency_block (d : pom_dependency).

Definition element (tag body : string) : string :=
  open_tag tag +:+ body +:+ close_tag tag.

(** A dependency, [gap] being the text between its elements. *)
Definition dependency_xml (gap : string) (d : pom_dependency) : string :=
  "<dependency>" +:+ gap
  +:+ element "groupId" (dep_groupId d) +:+ gap
  +:+ element "artifactId" (dep_artifactId d) +:+ gap
  +:+ element "version" (dep_version d) +:+ gap
  +:+ match dep_scope d with
      | Some s => element "scope" s +:+ gap
      | None => EmptyString
      end
  +:+ "</dependency>".

Definition render_item (gap : string) (i : pom_item) : string :=
  match i with
  | pom_text text => text
  | pom_management body =>
      "<dependencyManagement>" +:+ body +:+ "</dependencyManagement>"
  | pom_dependency_block d => dependency_xml gap d
  end.

Fixpoint render (gap : string) (doc : list pom_item) : string :=
  match doc with
  | [] => EmptyString
  | i :: rest => render_item gap i +:+ render gap rest
  end.

(** Whether a text ends inside a tag: after a [<] that no [>] follows. *)
Fixpoint ends_in_tag (inside : bool) (s : string) : bool :=
  match s with
  | EmptyString => inside
  | String c s' =>
      ends_in_tag (if JS.char_eqb c "<" then true
                   else if JS.char_eqb c ">" then false
                   else inside) s'
  end.

(** The content of an element: not empty, without [<], ASCII. *)
Definition field_ok (s : string) : bool :=
  negb (JS.is_empty s) && every (is_not "<") s && ascii_text s.

Definition item_ok (i : pom_item) : bool :=
  match i with
  | pom_text text =>
      negb (ends_in_tag false text)
      && negb (JS.includes "<dependency>" text)
      && negb (JS.includes "<dependencyManagement>" text)
  | pom_management body => negb (JS.includes "</dependencyManagement>" body)
  | pom_dependency_block d =>
      field_ok (dep_groupId d) && field_ok (dep_artifactId d)
      && field_ok (dep_version d)
      && match dep_scope d with
         | Some s => field_ok s
         | None => true
         end
  end.

Definition well_formed (gap : string) (doc : list pom_item) : bool :=
  every (is_not "<") gap && forallb item_ok doc.

Definition unmanaged (i : pom_item) : bool :=
  match i with
  | pom_management _ => false
  | _ => true
  end.

(** The records a pom is to give: none for a passage of text and none for
    a dependencyManagement block, whatever its body; for a dependency, the
    record of its coordinate and version, unless the version holds a
    placeholder or the scope is [test] and development dependencies are
    excluded. *)
Definition maven_expected (include_dev : bool) (filePath : string)
  (i : pom_item) : list Dependency :=
  match i with
  | pom_dependency_block d =>
      let g := JS.trim (dep_groupId d) in
      let a := JS.trim (dep_artifactId d) in
      let v := JS.trim (dep_version d) in
      let test :=
        match dep_scope d with
        | Some s => bool_decide (JS.trim s = "test")
        | None => false
        end in
      if JS.is_empty g || JS.is_empty a || JS.is_empty v then []
      else if JS.includes "${" v then []
      else if test && negb include_dev then []
      else [{| ecosystem := "maven";
               name := VStr (g +:+ ":" +:+ a);
               version := VStr v;
               dev := VBool test;
               lockfile_source := filePath |}]
  | _ => []
  end.

(** The text of a tag and what follows it up to the next [<], and the text
    of a list of them. *)
Definition segment (head body : string) : string :=
  String "<" (head +:+ body).

Fixpoint segments (l : list (string * string)) : string :=
  match l with
  | [] => EmptyString
  | (head, body) :: rest => segment head body +:+ segments rest
  end.

Definition scope_segments (gap : string) (d : pom_dependency)
  : list (string * string) :=
  match dep_scope d with
  | Some s => [("scope>", s); ("/scope>", gap)]
  | None => []
  end.

Definition dependency_segments (gap : string) (d : pom_dependency)
  : list (string * string) :=
  [("groupId>", dep_groupId d); ("/groupId>", gap);
   ("artifactId>", dep_artifactId d); ("/artifactId>", gap);
   ("version>", dep_version d); ("/version>", gap)]
  ++ scope_segments gap d.

(** Whether two strings differ at a position both have. *)
Fixpoint mismatch (p s : string) : bool :=
  match p, s with
  | String a p', String b s' => negb (JS.char_eqb a b) || mismatch p' s'
  | _, _ => false
  end.

(** The result of a search, with [a] before what was searched. *)
Definition prepend (a : string) (found : option (string * string))
  : option (string * string) :=
  match found with
  | Some (before, after) => Some (a +:+ before, after)
  | None => None
  end.

(** A pom with a managed dependency, a dependency, a test dependency and a
    dependency whose version is a property, each element on its line. *)
Definition pom_gap : string := LF +:+ "    ".

Definition commons_lang3 (version : string) : pom_dependency :=
  {| dep_groupId := "org.apache.commons";
     dep_artifactId := "commons-lang3";
     dep_version := version;
     dep_scope := None |}.

Definition pom_document : list pom_item :=
  [pom_text ("<project>" +:+ LF +:+ "  ");
   pom_management ("<dependencies>"
                   +:+ dependency_xml pom_gap (commons_lang3 "3.11")
                   +:+ "</dependencies>");
   pom_text (LF +:+ "  <dependencies>" +:+ LF +:+ "    ");
   pom_dependency_block (commons_lang3 "3.12.0");
   pom_text (LF +:+ "    ");
   pom_dependency_block {| dep_groupId := "junit";
                           dep_artifactId := "junit";
                           dep_version := " 4.13.2 ";
                           dep_scope := Some "test" |};
   pom_dependency_block {| dep_groupId := "org.slf4j";
                           dep_artifactId := "slf4j-api";
                           dep_version := "${slf4j.version}";
                           dep_scope := Some "compile" |};
   pom_text (LF +:+ "  </dependencies>" +:+ LF +:+ "</project>" +:+ LF)].

Definition pom_document_world (include_dev : string) : World :=
  sample_world [("pom.xml", render pom_gap pom_document)]
               [("LOCKFILES", "maven:pom.xml"); ("INCLUDE_DEV", include_dev)].

(** A run that reports to the workflow. *)
Definition output_world : World :=
  sample_world [("requirements.txt", requirements_example)]
               [("LOCKFILES", "requirements:requirements.txt");
                ("GITHUB_OUTPUT", "/tmp/github_output")].

(* ================================================================= *)
(** ** Facts about strings *)

Module JSFacts.
Import JS.

Lemma append_nil_l (s : string) : "" +:+ s = s.
Proof. reflexivity. Qed.

Lemma append_cons (c : ascii) (s t : string) :
  String c s +:+ t = String c (s +:+ t).
Proof. reflexivity. Qed.

Lemma append_nil_r (s : string) : s +:+ "" = s.
Proof. induction s as [|c s IH]; [reflexivity|]. by rewrite append_cons, IH. Qed.

Lemma append_assoc (a b c : string) : (a +:+ b) +:+ c = a +:+ (b +:+ c).
Proof.
  induction a as [|x a IH]; [reflexivity|].
  by rewrite !append_cons, IH.
Qed.

Lemma length_append (a b : string) :
  String.length (a +:+ b) = String.length a + String.length b.
Proof.
  induction a as [|x a IH]; [reflexivity|].
  rewrite append_cons. simpl. by rewrite IH.
Qed.

Lemma char_eqb_refl (c : ascii) : char_eqb c c = true.
Proof. unfold char_eqb. by rewrite bool_decide_eq_true. Qed.

Lemma is_empty_true (s : string) : is_empty s = true <-> s = "".
Proof. destruct s; simpl; split; congruence. Qed.

Lemma is_empty_false (s : string) : is_empty s = false <-> s <> "".
Proof. destruct s; simpl; split; congruence. Qed.

Lemma startsWith_app (p s : string) : startsWith p (p +:+ s) = true.
Proof.
  induction p as [|c p IH]; [reflexivity|].
  rewrite append_cons. simpl. by rewrite char_eqb_refl, IH.
Qed.

Lemma drop_app (p s : string) : drop (String.length p) (p +:+ s) = s.
Proof.
  induction p as [|c p IH]; [by destruct s|].
  rewrite append_cons. simpl. exact IH.
Qed.

Lemma startsWith_inv (p s : string) :
  startsWith p s = true -> s = p +:+ drop (String.length p) s.
Proof.
  revert s. induction p as [|c p IH]; intros s H.
  - by destruct s.
  - destruct s as [|d s]; [discriminate|]. simpl in H.
    apply andb_true_iff in H as [Hc Hp].
    unfold char_eqb in Hc. apply bool_decide_eq_true in Hc. subst d.
    rewrite append_cons. simpl. f_equal. by apply IH.
Qed.

(** [cut] finds an occurrence: the string is the text before, the pattern
    and the text after. *)
Lemma cut_Some (p s b a : string) :
  cut p s = Some (b, a) -> s = b +:+ p +:+ a.
Proof.
  revert b. induction s as [|c s IH]; intros b H.
  - simpl in H. destruct (startsWith p "") eqn:E; [|discriminate].
    injection H as <- <-. by apply startsWith_inv in E.
  - simpl in H. destruct (startsWith p (String c s)) eqn:E.
    + injection H as <- <-. by apply startsWith_inv in E.
    + destruct (cut p s) as [[b' a']|] eqn:E'; [|discriminate].
      injection H as <- <-. rewrite append_cons. f_equal. by apply IH.
Qed.

Lemma cut_shorter (p s b a : string) :
  p <> "" -> cut p s = Some (b, a) -> String.length a < String.length s.
Proof.
  intros Hp H. apply cut_Some in H. subst s.
  rewrite !length_append. destruct p; [done|]. simpl. lia.
Qed.

Lemma cut_empty (p : string) : p <> "" -> cut p "" = None.
Proof. by destruct p. Qed.

(** The rounds of [split_fuel] beyond the length of the string change
    nothing. *)
Lemma split_fuel_enough (sep : string) (n m : nat) (s : string) :
  sep <> "" -> String.length s <= n -> String.length s <= m ->
  split_fuel n sep s = split_fuel m sep s.
Proof.
  intros Hsep. revert m s. induction n as [|n IH]; intros m s Hn Hm.
  - destruct s; [|simpl in Hn; lia].
    destruct m; [done|]. cbn [split_fuel]. by rewrite (cut_empty _ Hsep).
  - destruct m as [|m].
    + destruct s; [|simpl in Hm; lia].
      cbn [split_fuel]. by rewrite (cut_empty _ Hsep).
    + cbn [split_fuel]. destruct (cut sep s) as [[b a]|] eqn:E; [|done].
      pose proof (cut_shorter _ _ _ _ Hsep E). f_equal. apply IH; lia.
Qed.

Lemma split_found (sep s b a : string) :
  sep <> "" -> cut sep s = Some (b, a) -> split sep s = b :: split sep a.
Proof.
  intros Hsep E. unfold split.
  pose proof (cut_shorter _ _ _ _ Hsep E) as Hlt.
  destruct (String.length s) as [|n] eqn:El; [lia|].
  cbn [split_fuel]. rewrite E. f_equal. apply split_fuel_enough; [done|lia|lia].
Qed.

Lemma split_not_found (sep s : string) :
  cut sep s = None -> split sep s = [s].
Proof.
  intros E. unfold split. destruct (String.length s); [done|].
  cbn [split_fuel]. by rewrite E.
Qed.

Lemma split_nonempty (sep s : string) : split sep s <> [].
Proof.
  unfold split. destruct (String.length s); [done|].
  cbn [split_fuel]. by destruct (cut sep s) as [[? ?]|].
Qed.

(** Joining the pieces with the separator gives the string back. *)
Lemma join_split (sep s : string) :
  sep <> "" -> join sep (split sep s) = s.
Proof.
  intros Hsep. remember (String.length s) as n eqn:Hn.
  revert s Hn. induction (lt_wf n) as [n _ IH]. intros s ->.
  destruct (cut sep s) as [[b a]|] eqn:E.
  - rewrite (split_found _ _ _ _ Hsep E).
    pose proof (split_nonempty sep a) as Hne.
    pose proof (IH _ (cut_shorter _ _ _ _ Hsep E) a eq_refl) as Ha.
    destruct (split sep a) as [|x l] eqn:Es; [done|].
    change (join sep (b :: x :: l)) with (b +:+ sep +:+ join sep (x :: l)).
    rewrite Ha. symmetry. by apply cut_Some.
  - by rewrite (split_not_found _ _ E).
Qed.

Lemma cut_no_longer (p s b a : string) :
  cut p s = Some (b, a) -> String.length a <= String.length s.
Proof.
  intros H. apply cut_Some in H. subst s. rewrite !length_append. lia.
Qed.

Lemma includes_false (p s : string) : includes p s = false <-> cut p s = None.
Proof. unfold includes. destruct (cut p s); split; congruence. Qed.

Lemma startsWith_across (c : ascii) (p u w : string) :
  occurs c p = false ->
  startsWith p (u +:+ String c w) = true -> startsWith p u = true.
Proof.
  revert p. induction u as [|y u IH]; intros p Hc H.
  - destruct p as [|d p]; [done|]. rewrite append_nil_l in H.
    simpl in H, Hc. destruct (char_eqb d c); [done|]. done.
  - destruct p as [|d p]; [done|]. rewrite append_cons in H.
    simpl in H, Hc. apply andb_true_iff in H as [Hd Hp].
    apply orb_false_iff in Hc as [_ Hc].
    simpl. rewrite Hd. simpl. by apply IH.
Qed.

(** A pattern whose first character does not occur again in it is found
    right where it was appended, when it does not occur before. *)
Lemma cut_app (c : ascii) (p a b : string) :
  occurs c p = false ->
  cut (String c p) a = None ->
  cut (String c p) (a +:+ String c p +:+ b) = Some (a, b).
Proof.
  intros Hc. induction a as [|x a IH]; intros Hnone.
  - rewrite append_nil_l.
    pose proof (startsWith_app (String c p) b) as Hs.
    pose proof (drop_app (String c p) b) as Hd.
    destruct (String c p +:+ b) eqn:E; [done|].
    cbn [cut]. rewrite Hs. by rewrite Hd.
  - rewrite append_cons. cbn [cut] in Hnone |- *.
    destruct (startsWith (String c p) (String x a)) eqn:E1; [done|].
    destruct (cut (String c p) a) as [[? ?]|] eqn:E2; [done|].
    destruct (startsWith (String c p) (String x (a +:+ String c p +:+ b))) eqn:E3.
    + exfalso. simpl in E1, E3.
      apply andb_true_iff in E3 as [Hx Hp]. rewrite Hx in E1. simpl in E1.
      rewrite (startsWith_across c p a (p +:+ b) Hc) in E1; [done|].
      by rewrite <- append_cons.
    + by rewrite IH.
Qed.

(** The rounds of [remove_blocks_fuel] beyond the length of the string
    change nothing. *)
Lemma remove_blocks_fuel_enough (opening closing : string) (n m : nat)
  (s : string) :
  opening <> "" -> String.length s <= n -> String.length s <= m ->
  remove_blocks_fuel n opening closing s
  = remove_blocks_fuel m opening closing s.
Proof.
  intros Ho. revert m s. induction n as [|n IH]; intros m s Hn Hm.
  - destruct s; [|simpl in Hn; lia].
    destruct m; [done|]. cbn [remove_blocks_fuel]. by rewrite (cut_empty _ Ho).
  - destruct m as [|m].
    + destruct s; [|simpl in Hm; lia].
      cbn [remove_blocks_fuel]. by rewrite (cut_empty _ Ho).
    + cbn [remove_blocks_fuel].
      destruct (cut opening s) as [[b r]|] eqn:E; [|done].
      destruct (cut closing r) as [[x a]|] eqn:E'; [|done].
      pose proof (cut_shorter _ _ _ _ Ho E).
      pose proof (cut_no_longer _ _ _ _ E').
      f_equal. apply IH; lia.
Qed.

Lemma blocks_fuel_enough (opening closing : string) (n m : nat) (s : string) :
  opening <> "" -> String.length s <= n -> String.length s <= m ->
  blocks_fuel n opening closing s = blocks_fuel m opening closing s.
Proof.
  intros Ho. revert m s. induction n as [|n IH]; intros m s Hn Hm.
  - destruct s; [|simpl in Hn; lia].
    destruct m; [done|]. cbn [blocks_fuel]. by rewrite (cut_empty _ Ho).
  - destruct m as [|m].
    + destruct s; [|simpl in Hm; lia].
      cbn [blocks_fuel]. by rewrite (cut_empty _ Ho).
    + cbn [blocks_fuel].
      destruct (cut opening s) as [[b r]|] eqn:E; [|done].
      destruct (cut closing r) as [[x a]|] eqn:E'; [|done].
      pose proof (cut_shorter _ _ _ _ Ho E).
      pose proof (cut_no_longer _ _ _ _ E').
      f_equal. apply IH; lia.
Qed.

(** One block matched: the scan goes on after its closing tag. *)
Lemma blocks_found (opening closing s b r x a : string) :
  opening <> "" ->
  cut opening s = Some (b, r) -> cut closing r = Some (x, a) ->
  blocks opening closing s
  = (opening +:+ x +:+ closing) :: blocks opening closing a.
Proof.
  intros Ho E E'. unfold blocks.
  pose proof (cut_shorter _ _ _ _ Ho E).
  pose proof (cut_no_longer _ _ _ _ E').
  destruct (String.length s) as [|n] eqn:El; [lia|].
  cbn [blocks_fuel]. rewrite E, E'. f_equal.
  apply blocks_fuel_enough; [done|lia|lia].
Qed.

(** One block removed: the text before it stays, the scan goes on after
    its closing tag. *)
Lemma remove_blocks_found (opening closing s b r x a : string) :
  opening <> "" ->
  cut opening s = Some (b, r) -> cut closing r = Some (x, a) ->
  remove_blocks opening closing s = b +:+ remove_blocks opening closing a.
Proof.
  intros Ho E E'. unfold remove_blocks.
  pose proof (cut_shorter _ _ _ _ Ho E).
  pose proof (cut_no_longer _ _ _ _ E').
  destruct (String.length s) as [|n] eqn:El; [lia|].
  cbn [remove_blocks_fuel]. rewrite E, E'. f_equal.
  apply remove_blocks_fuel_enough; [done|lia|lia].
Qed.

End JSFacts.

(** *** Joining and splitting again *)

Module JSMore.
Import JS JSFacts.

Lemma cut_char_app (c : ascii) (a b : string) :
  cut (String c "") a = None -> cut (String c "") b = None ->
  cut (String c "") (a +:+ b) = None.
Proof.
  intros Ha Hb. induction a as [|x a IH]; [exact Hb|].
  rewrite append_cons. cbn [cut startsWith] in Ha |- *.
  destruct (char_eqb c x); [done|]. cbn [andb] in Ha |- *.
  destruct (cut (String c "") a) as [[? ?]|]; [done|]. by rewrite IH.
Qed.

Lemma includes_char_app (c : ascii) (a b : string) :
  includes (String c "") a = false -> includes (String c "") b = false ->
  includes (String c "") (a +:+ b) = false.
Proof.
  rewrite !includes_false. apply cut_char_app.
Qed.

(** Splitting what was joined gives the pieces back, when no piece holds
    the separator. *)
Lemma split_join (c : ascii) (p : string) (l : list string) :
  occurs c p = false -> l <> [] ->
  Forall (fun piece => includes (String c p) piece = false) l ->
  split (String c p) (join (String c p) l) = l.
Proof.
  intros Hc Hne Hl. induction Hl as [|x l Hx Hl IH]; [done|].
  apply includes_false in Hx.
  destruct l as [|y l].
  - by apply split_not_found.
  - change (join (String c p) (x :: y :: l))
      with (x +:+ String c p +:+ join (String c p) (y :: l)).
    rewrite (split_found _ _ x (join (String c p) (y :: l))); [|done|].
    + f_equal. by apply IH.
    + by apply cut_app.
Qed.

Lemma join_empty (sep : string) (l : list string) :
  sep <> "" -> l <> [] -> join sep l = "" -> l = [""].
Proof.
  intros Hsep Hne H. destruct l as [|x [|y l]]; [done|by simpl in H; subst|].
  exfalso. change (join sep (x :: y :: l))
    with (x +:+ sep +:+ join sep (y :: l)) in H.
  apply (f_equal String.length) in H. rewrite !length_append in H.
  destruct sep; [done|]. simpl in H. lia.
Qed.

Lemma startsWith_prefix (a b s : string) :
  startsWith (a +:+ b) s = true -> startsWith a s = true.
Proof.
  revert s. induction a as [|x a IH]; intros s H; [done|].
  rewrite append_cons in H. destruct s as [|y s]; [done|]. simpl in *.
  apply andb_true_iff in H as [-> H]. by apply IH.
Qed.

Lemma includes_startsWith (p s : string) :
  includes p s = false -> startsWith p s = false.
Proof.
  unfold includes. destruct s; simpl; by destruct (startsWith p _).
Qed.

Lemma lower_idempotent (c : ascii) : lower (lower c) = lower c.
Proof.
  destruct c as [[] [] [] [] [] [] [] []]; reflexivity.
Qed.

Lemma toLowerCase_idempotent (s : string) :
  toLowerCase (toLowerCase s) = toLowerCase s.
Proof.
  induction s as [|c s IH]; [done|]. simpl. by rewrite lower_idempotent, IH.
Qed.

(** *** Strings of one class of characters *)

Lemma every_app (p : ascii -> bool) (a b : string) :
  every p (a +:+ b) = every p a && every p b.
Proof.
  induction a as [|c a IH]; [done|].
  rewrite append_cons. simpl. by rewrite IH, andb_assoc.
Qed.

Lemma every_impl (p q : ascii -> bool) (s : string) :
  (forall c, p c = true -> q c = true) ->
  every p s = true -> every q s = true.
Proof.
  intros Hpq. induction s as [|c s IH]; [done|]. simpl.
  intros [Hc Hs]%andb_true_iff. by rewrite (Hpq c Hc), IH.
Qed.

Lemma span_every (p : ascii -> bool) (s : string) :
  every p (fst (span p s)) = true.
Proof.
  induction s as [|c s IH]; [done|]. simpl.
  destruct (p c) eqn:E; [|done]. destruct (span p s) as [a b].
  simpl in *. by rewrite E, IH.
Qed.

Lemma span_app (p : ascii -> bool) (a b : string) :
  every p a = true -> span p b = ("", b) -> span p (a +:+ b) = (a, b).
Proof.
  intros Ha Hb. induction a as [|c a IH]; [done|].
  simpl in Ha. apply andb_true_iff in Ha as [Hc Ha].
  rewrite append_cons. simpl. by rewrite Hc, (IH Ha).
Qed.

Lemma span_all (p : ascii -> bool) (a : string) :
  every p a = true -> span p a = (a, "").
Proof.
  intros Ha. rewrite <- (append_nil_r a) at 1. by apply span_app.
Qed.

Lemma span_none (p : ascii -> bool) (c : ascii) (s : string) :
  p c = false -> span p (String c s) = ("", String c s).
Proof. intros H. simpl. by rewrite H. Qed.

Lemma skip_spaces_non_space (c : ascii) (s : string) :
  non_space c = true -> skip_spaces (String c s) = String c s.
Proof.
  unfold non_space, skip_spaces. intros H. apply negb_true_iff in H.
  by rewrite (span_none _ _ _ H).
Qed.

Lemma trimEnd_every (s : string) :
  every non_space s = true -> trimEnd s = s.
Proof.
  induction s as [|c s IH]; [done|]. simpl.
  intros [Hc Hs]%andb_true_iff. rewrite (IH Hs).
  unfold non_space in Hc. apply negb_true_iff in Hc. by rewrite Hc.
Qed.

Lemma trimEnd_app (a t : string) :
  every non_space t = true -> t <> "" -> trimEnd (a +:+ t) = a +:+ t.
Proof.
  intros Ht Hne. induction a as [|c a IH]; [by apply trimEnd_every|].
  rewrite append_cons. simpl. rewrite IH.
  destruct (a +:+ t) eqn:E; [|by rewrite andb_false_r].
  apply (f_equal String.length) in E. rewrite length_append in E.
  destruct t; [done|]. simpl in E. lia.
Qed.

Lemma trim_every (s : string) :
  every non_space s = true -> trim s = s.
Proof.
  intros Hs. unfold trim. destruct s as [|c s]; [done|].
  pose proof Hs as Hs'. simpl in Hs'. apply andb_true_iff in Hs' as [Hc _].
  rewrite (skip_spaces_non_space c s Hc). by apply trimEnd_every.
Qed.

Lemma every_skip_spaces (p : ascii -> bool) (s : string) :
  every p s = true -> every p (skip_spaces s) = true.
Proof.
  unfold skip_spaces. induction s as [|c s IH]; [done|]. simpl.
  intros H. destruct (is_space c); [|done].
  apply andb_true_iff in H as [_ H]. specialize (IH H).
  by destruct (span is_space s).
Qed.

Lemma every_trimEnd (p : ascii -> bool) (s : string) :
  every p s = true -> every p (trimEnd s) = true.
Proof.
  induction s as [|c s IH]; [done|]. simpl.
  intros [Hc Hs]%andb_true_iff. destruct (_ && _); [done|].
  simpl. by rewrite Hc, IH.
Qed.

Lemma every_trim (p : ascii -> bool) (s : string) :
  every p s = true -> every p (trim s) = true.
Proof. intros H. by apply every_trimEnd, every_skip_spaces. Qed.

Lemma no_line_terminator_every (s : string) :
  every (fun c => negb (is_line_terminator c)) s = true ->
  no_line_terminator s = true.
Proof. intros H. unfold no_line_terminator. by rewrite (span_all _ _ H). Qed.

(** *** Words between spaces *)

Lemma split_ws_go_token (cur : string) (inws : bool) (t rest : string) :
  every non_space t = true -> t <> "" ->
  split_ws_go cur inws (t +:+ rest) = split_ws_go (cur +:+ t) false rest.
Proof.
  revert cur inws. induction t as [|c t IH]; intros cur inws Ht Hne; [done|].
  simpl in Ht. apply andb_true_iff in Ht as [Hc Ht].
  unfold non_space in Hc. apply negb_true_iff in Hc.
  rewrite append_cons. cbn [split_ws_go]. rewrite Hc.
  destruct t as [|d t].
  - by rewrite append_nil_l.
  - rewrite IH by done. by rewrite append_assoc.
Qed.

Lemma split_ws_three (a b c : string) :
  every non_space a = true -> a <> "" ->
  every non_space b = true -> b <> "" ->
  every non_space c = true -> c <> "" ->
  split_ws (a +:+ " " +:+ b +:+ " " +:+ c) = [a; b; c].
Proof.
  intros Ha Hae Hb Hbe Hc Hce. unfold split_ws.
  rewrite (split_ws_go_token "" false a) by done.
  rewrite append_cons. cbn [split_ws_go]. change (is_space " ") with true.
  cbn match. rewrite !append_nil_l.
  rewrite (split_ws_go_token "" true b) by done.
  rewrite append_cons. cbn [split_ws_go]. change (is_space " ") with true.
  cbn match. rewrite !append_nil_l.
  rewrite <- (append_nil_r c) at 1.
  rewrite (split_ws_go_token "" true c) by done.
  by rewrite append_nil_l.
Qed.

Lemma trim_words (a b : string) :
  every non_space a = true -> a <> "" ->
  every non_space b = true -> b <> "" ->
  forall mid, trim (a +:+ mid +:+ b) = a +:+ mid +:+ b.
Proof.
  intros Ha Hae Hb Hbe mid. unfold trim.
  destruct a as [|x a]; [done|]. simpl in Ha.
  apply andb_true_iff in Ha as [Hx _].
  rewrite append_cons, (skip_spaces_non_space _ _ Hx), <- append_cons.
  rewrite <- append_assoc. by rewrite trimEnd_app.
Qed.

(** *** Occurrences *)

Lemma cut_startsWith (p s : string) :
  startsWith p s = true -> cut p s = Some ("", drop (String.length p) s).
Proof. intros H. destruct s; simpl; by rewrite H. Qed.

Lemma cut_occurrence (p a b : string) : cut p (a +:+ p +:+ b) <> None.
Proof.
  induction a as [|c a IH].
  - rewrite append_nil_l. by rewrite (cut_startsWith _ _ (startsWith_app p b)).
  - rewrite append_cons. simpl. destruct (startsWith p _); [done|].
    by destruct (cut p (a +:+ p +:+ b)) as [[? ?]|].
Qed.

Lemma drop_suffix (k : nat) (s : string) : exists a, s = a +:+ drop k s.
Proof.
  revert s. induction k as [|k IH]; intros s; [by exists ""|].
  destruct s as [|c s]; [by exists ""|]. destruct (IH s) as [a Ha].
  exists (String c a). rewrite append_cons. simpl. by rewrite <- Ha.
Qed.

Lemma endsWith_includes (p s : string) :
  includes p s = false -> endsWith p s = false.
Proof.
  intros H. apply includes_false in H. unfold endsWith.
  destruct (Nat.leb _ _); [|done]. simpl.
  apply bool_decide_eq_false. intros E.
  destruct (drop_suffix (String.length s - String.length p) s) as [a Ha].
  rewrite E in Ha. rewrite <- (append_nil_r p) in Ha. rewrite Ha in H.
  by apply cut_occurrence in H.
Qed.

Lemma endsWith_app (a p : string) : endsWith p (a +:+ p) = true.
Proof.
  unfold endsWith. rewrite length_append.
  rewrite (proj2 (Nat.leb_le _ _)) by lia.
  replace (String.length a + String.length p - String.length p)
    with (String.length a) by lia.
  rewrite drop_app. by rewrite bool_decide_eq_true_2.
Qed.

Lemma skip_spaces_app (a b : string) :
  every is_space a = true -> span is_space b = ("", b) ->
  skip_spaces (a +:+ b) = b.
Proof. intros Ha Hb. unfold skip_spaces. by rewrite (span_app _ a b Ha Hb). Qed.

Lemma cut_char_none (c : ascii) (s : string) :
  every (fun d => negb (char_eqb d c)) s = true -> cut (String c "") s = None.
Proof.
  induction s as [|d s IH]; [done|]. simpl.
  intros [Hd Hs]%andb_true_iff. apply negb_true_iff in Hd.
  unfold char_eqb in *. apply bool_decide_eq_false in Hd.
  rewrite bool_decide_eq_false_2 by congruence. simpl. by rewrite IH.
Qed.

(** *** Searches across tags *)

Lemma char_eqb_sym (a b : ascii) : char_eqb a b = char_eqb b a.
Proof. unfold char_eqb. apply bool_decide_ext. split; congruence. Qed.

Lemma mismatch_startsWith (p s x : string) :
  mismatch p s = true -> startsWith p (s +:+ x) = false.
Proof.
  revert s. induction p as [|a p IH]; intros s H; [done|].
  destruct s as [|b s]; [done|]. rewrite append_cons. simpl in *.
  destruct (char_eqb a b); [|done]. simpl in *. by apply IH.
Qed.

Lemma prepend_nil (found : option (string * string)) :
  prepend "" found = found.
Proof. by destruct found as [[x y]|]. Qed.

Lemma prepend_prepend (a b : string) (found : option (string * string)) :
  prepend a (prepend b found) = prepend (a +:+ b) found.
Proof. destruct found as [[x y]|]; [|done]. simpl. by rewrite append_assoc. Qed.

Lemma cut_cons (p : string) (c : ascii) (s : string) :
  startsWith p (String c s) = false ->
  cut p (String c s) = prepend (String c "") (cut p s).
Proof. intros H. cbn [cut]. rewrite H. by destruct (cut p s) as [[x y]|]. Qed.

Lemma cut_fresh (c : ascii) (p a rest : string) :
  every (is_not c) a = true ->
  cut (String c p) (a +:+ rest) = prepend a (cut (String c p) rest).
Proof.
  intros Ha. induction a as [|d a IH].
  - by rewrite append_nil_l, prepend_nil.
  - simpl in Ha. apply andb_true_iff in Ha as [Hd Ha].
    unfold is_not in Hd. apply negb_true_iff in Hd.
    rewrite append_cons, cut_cons, (IH Ha), prepend_prepend; [done|].
    cbn [startsWith]. by rewrite char_eqb_sym, Hd.
Qed.

Lemma cut_segment (p head body rest : string) :
  every (is_not "<") (head +:+ body) = true ->
  mismatch (String "<" p) (String "<" head) = true ->
  cut (String "<" p) (segment head body +:+ rest)
  = prepend (segment head body) (cut (String "<" p) rest).
Proof.
  intros Hf Hm. unfold segment. rewrite append_cons.
  rewrite cut_cons.
  - by rewrite (cut_fresh "<" p _ rest Hf), prepend_prepend.
  - rewrite append_assoc.
    exact (mismatch_startsWith _ (String "<" head) (body +:+ rest) Hm).
Qed.

Lemma cut_segments (p : string) (l : list (string * string)) (rest : string) :
  Forall (fun hb => every (is_not "<") (fst hb +:+ snd hb) = true
                    /\ mismatch (String "<" p) (String "<" (fst hb)) = true) l ->
  cut (String "<" p) (segments l +:+ rest)
  = prepend (segments l) (cut (String "<" p) rest).
Proof.
  induction 1 as [|[h b] l [Hf Hm] _ IH]; cbn [segments].
  - by rewrite append_nil_l, prepend_nil.
  - rewrite append_assoc, (cut_segment p h b _ Hf Hm), IH.
    by rewrite prepend_prepend.
Qed.

Lemma ends_in_tag_occurs (s : string) :
  ends_in_tag true s = false -> occurs ">" s = true.
Proof.
  induction s as [|d s IH]; [done|]. cbn [ends_in_tag occurs].
  destruct (char_eqb d "<") eqn:E1.
  - intros H. rewrite (IH H). by rewrite orb_true_r.
  - destruct (char_eqb d ">"); [done|]. intros H. by rewrite (IH H).
Qed.

Lemma startsWith_straddle (q : string) (x : ascii) (s rest : string) :
  occurs ">" q = false -> occurs ">" s = true ->
  startsWith (q +:+ String x "") (s +:+ rest)
  = startsWith (q +:+ String x "") s.
Proof.
  revert s. induction q as [|a q IH]; intros s Hq Hs.
  - destruct s as [|b s]; [done|]. rewrite append_nil_l, append_cons. done.
  - destruct s as [|b s]; [done|]. rewrite !append_cons.
    cbn [startsWith occurs] in *.
    apply orb_false_iff in Hq as [Ha Hq].
    destruct (char_eqb a b) eqn:E; [|done]. cbn [andb].
    unfold char_eqb in E. apply bool_decide_eq_true in E. subst b.
    rewrite Ha in Hs. by apply IH.
Qed.

(** A text that does not end inside a tag hides no occurrence of a tag
    that starts in it and ends in what follows. *)
Lemma cut_closed (q s rest : string) (inside : bool) :
  occurs ">" q = false ->
  ends_in_tag inside s = false ->
  cut (String "<" (q +:+ ">")) s = None ->
  cut (String "<" (q +:+ ">")) (s +:+ rest)
  = prepend s (cut (String "<" (q +:+ ">")) rest).
Proof.
  intros Hq. revert inside. induction s as [|d s IH]; intros inside He Hc.
  - by rewrite append_nil_l, prepend_nil.
  - cbn [cut] in Hc.
    destruct (startsWith (String "<" (q +:+ ">")) (String d s)) eqn:Es;
      [done|].
    destruct (cut (String "<" (q +:+ ">")) s) as [[x y]|] eqn:Ec; [done|].
    cbn [ends_in_tag] in He.
    rewrite append_cons, cut_cons, (IH _ He eq_refl), prepend_prepend; [done|].
    cbn [startsWith] in Es |- *.
    destruct (char_eqb "<" d) eqn:Ed; [|done]. cbn [andb] in Es |- *.
    rewrite char_eqb_sym in Ed. rewrite Ed in He.
    by rewrite (startsWith_straddle q ">" s rest Hq (ends_in_tag_occurs s He)).
Qed.

(** *** Blocks between two tags *)

Lemma remove_blocks_none (opening closing s : string) :
  cut opening s = None -> remove_blocks opening closing s = s.
Proof.
  intros E. unfold remove_blocks. destruct (String.length s); [done|].
  cbn [remove_blocks_fuel]. by rewrite E.
Qed.

Lemma remove_blocks_unclosed (opening closing s b r : string) :
  cut opening s = Some (b, r) -> cut closing r = None ->
  remove_blocks opening closing s = s.
Proof.
  intros E E'. unfold remove_blocks. destruct (String.length s); [done|].
  cbn [remove_blocks_fuel]. by rewrite E, E'.
Qed.

Lemma remove_blocks_skip (opening closing x s : string) :
  opening <> "" ->
  (forall rest, cut opening (x +:+ rest) = prepend x (cut opening rest)) ->
  remove_blocks opening closing (x +:+ s)
  = x +:+ remove_blocks opening closing s.
Proof.
  intros Ho Hx. pose proof (Hx s) as E.
  destruct (cut opening s) as [[b r]|] eqn:Es; cbn [prepend] in E.
  - destruct (cut closing r) as [[y a]|] eqn:Er.
    + rewrite (remove_blocks_found _ _ _ _ _ _ _ Ho E Er).
      rewrite (remove_blocks_found _ _ _ _ _ _ _ Ho Es Er).
      by rewrite append_assoc.
    + rewrite (remove_blocks_unclosed _ _ _ _ _ E Er).
      by rewrite (remove_blocks_unclosed _ _ _ _ _ Es Er).
  - by rewrite (remove_blocks_none _ _ _ E), (remove_blocks_none _ _ _ Es).
Qed.

Lemma blocks_none (opening closing s : string) :
  cut opening s = None -> blocks opening closing s = [].
Proof.
  intros E. unfold blocks. destruct (String.length s); [done|].
  cbn [blocks_fuel]. by rewrite E.
Qed.

Lemma blocks_unclosed (opening closing s b r : string) :
  cut opening s = Some (b, r) -> cut closing r = None ->
  blocks opening closing s = [].
Proof.
  intros E E'. unfold blocks. destruct (String.length s); [done|].
  cbn [blocks_fuel]. by rewrite E, E'.
Qed.

Lemma blocks_skip (opening closing x s : string) :
  opening <> "" ->
  (forall rest, cut opening (x +:+ rest) = prepend x (cut opening rest)) ->
  blocks opening closing (x +:+ s) = blocks opening closing s.
Proof.
  intros Ho Hx. pose proof (Hx s) as E.
  destruct (cut opening s) as [[b r]|] eqn:Es; cbn [prepend] in E.
  - destruct (cut closing r) as [[y a]|] eqn:Er.
    + rewrite (blocks_found _ _ _ _ _ _ _ Ho E Er).
      by rewrite (blocks_found _ _ _ _ _ _ _ Ho Es Er).
    + rewrite (blocks_unclosed _ _ _ _ _ E Er).
      by rewrite (blocks_unclosed _ _ _ _ _ Es Er).
  - by rewrite (blocks_none _ _ _ E), (blocks_none _ _ _ Es).
Qed.

End JSMore.

(* ================================================================= *)
(** ** Properties of the script *)

Section Properties.

Set Default Proof Using "Type".

Context (JSON_parse : string -> outcome value).
Context (Number_toString : number -> string).
Context (path_join : string -> string -> string).

Import JSFacts.

(** *** The parser monad *)

Lemma bind_records {A B} (m : M A) (f : A -> M B) (P : Dependency -> Prop) :
  Forall P (fst m) -> (forall a, Forall P (fst (f a))) ->
  Forall P (fst (bind m f)).
Proof.
  intros Hm Hf. destruct m as [w [a|msg]]; simpl in *; [|done].
  specialize (Hf a). destruct (f a) as [w' r]. simpl in *.
  by apply Forall_app.
Qed.

Lemma for_of_records {A} (l : list A) (body : A -> M unit)
  (P : Dependency -> Prop) :
  (forall x, Forall P (fst (body x))) -> Forall P (fst (for_of l body)).
Proof.
  intros Hb. induction l as [|x l IH]; simpl; [constructor|].
  by apply bind_records.
Qed.

Lemma try_catch_records (filePath : string) (body : M unit) :
  snd (try_catch filePath body) = fst body.
Proof. by destruct body as [w [a|msg]]. Qed.

Lemma try_catch_logs (filePath : string) (body : M unit) :
  fst (try_catch filePath body) <> [].
Proof. by destruct body as [w [a|msg]]. Qed.

(** *** The shape of the records

    For each parser, the records it can push: a property that holds of
    every record of that shape holds of every record of the parser. *)

Ltac records_with tac :=
  repeat match goal with
  | |- Forall _ [] => constructor
  | |- Forall _ (fst (ret _)) => constructor
  | |- Forall _ (fst (lift _)) => constructor
  | |- Forall _ (fst (push _)) => apply Forall_singleton; tac
  | |- Forall _ (fst (bind _ _)) => apply bind_records; [|intros ?]
  | |- Forall _ (fst (for_of _ _)) => apply for_of_records; intros ?
  | |- Forall _ (fst (if ?b then _ else _)) => destruct b eqn:?
  | |- Forall _ (fst (match ?x with _ => _ end)) => destruct x eqn:?
  end.

Ltac nonempty :=
  repeat match goal with
  | H : _ || _ = false |- _ => apply orb_false_iff in H as [? ?]
  | H : JS.is_empty _ = false |- _ => apply is_empty_false in H
  | H : negb _ = false |- _ => apply negb_false_iff in H
  end;
  try assumption; try discriminate.

Lemma toLowerCase_nonempty (s : string) : s <> "" -> JS.toLowerCase s <> "".
Proof. by destruct s. Qed.

Lemma match_assignment_here_nonempty (key s v : string) :
  match_assignment_here key s = Some v -> v <> "".
Proof.
  unfold match_assignment_here. intros H.
  repeat case_match; try discriminate. by injection H as <-.
Qed.

Lemma match_assignment_nonempty (key block v : string) :
  match_assignment key block = Some v -> v <> "".
Proof.
  unfold match_assignment. generalize true.
  induction block as [|c s IH]; intros bol H; simpl in H.
  - destruct bol; [|done].
    destruct (match_assignment_here key "") eqn:E; [|done].
    injection H as <-. by apply match_assignment_here_nonempty in E.
  - destruct (if bol then _ else _) eqn:E.
    + injection H as <-. destruct bol; [|done].
      by apply match_assignment_here_nonempty in E.
    + by apply IH in H.
Qed.

Lemma requirement_line_shape (filePath line : string) (P : Dependency -> Prop) :
  (forall n v, n <> "" ->
     P {| ecosystem := "pypi";
          name := VStr n;
          version := VStr v;
          dev := VBool (JS.includes "dev" filePath
                        || JS.includes "test" filePath);
          lockfile_source := filePath |}) ->
  Forall P (fst (requirement_line filePath line)).
Proof.
  intros HP. unfold requirement_line.
  records_with ltac:(apply HP; apply toLowerCase_nonempty; nonempty).
Qed.

Lemma poetry_block_shape (include_dev : bool) (filePath block : string)
  (P : Dependency -> Prop) :
  (forall n v d, n <> "" -> v <> "" ->
     d = VNull \/ d = VBool false \/ (d = VBool true /\ include_dev = true) ->
     P {| ecosystem := "pypi";
          name := VStr n;
          version := VStr v;
          dev := d;
          lockfile_source := filePath |}) ->
  Forall P (fst (poetry_block include_dev filePath block)).
Proof.
  intros HP. unfold poetry_block.
  destruct (match_assignment "name" block) as [n|] eqn:En; [|constructor].
  destruct (match_assignment "version" block) as [v|] eqn:Ev; [|constructor].
  apply match_assignment_nonempty in En, Ev.
  assert (Hn : JS.toLowerCase n <> "") by by apply toLowerCase_nonempty.
  destruct (match_assignment "category" block) as [c|];
    [destruct (bool_decide (c = "dev"))|]; destruct include_dev; simpl;
    try constructor; try (apply HP; auto); constructor.
Qed.

Lemma cargo_block_shape (filePath block : string) (P : Dependency -> Prop) :
  (forall n v, n <> "" -> v <> "" ->
     P {| ecosystem := "cargo";
          name := VStr n;
          version := VStr v;
          dev := VBool false;
          lockfile_source := filePath |}) ->
  Forall P (fst (cargo_block filePath block)).
Proof.
  intros HP. unfold cargo_block.
  destruct (match_assignment "name" block) as [n|] eqn:En; [|constructor].
  destruct (match_assignment "version" block) as [v|] eqn:Ev; [|constructor].
  apply match_assignment_nonempty in En, Ev.
  apply Forall_singleton. by apply HP.
Qed.

Lemma go_sum_line_shape (filePath line : string) (P : Dependency -> Prop) :
  (forall n v, n <> "" -> v <> "" -> P (go_record filePath n v)) ->
  Forall P (fst (go_sum_line filePath line)).
Proof.
  intros HP. unfold go_sum_line. records_with ltac:(apply HP; nonempty).
Qed.

Lemma go_mod_lines_shape (filePath : string) (inRequireBlock : bool)
  (lines : list string) (P : Dependency -> Prop) :
  (forall n v, n <> "" -> v <> "" -> P (go_record filePath n v)) ->
  Forall P (fst (go_mod_lines filePath inRequireBlock lines)).
Proof.
  intros HP. revert inRequireBlock.
  induction lines as [|line rest IH]; intros inRequireBlock; simpl;
    [constructor|].
  records_with ltac:(apply HP; nonempty); apply IH.
Qed.

Lemma gemfile_lines_shape (filePath : string) (inSpecs : bool)
  (lines : list string) (P : Dependency -> Prop) :
  (forall n v, n <> "" -> v <> "" ->
     P {| ecosystem := "rubygems";
          name := VStr n;
          version := VStr v;
          dev := VBool false;
          lockfile_source := filePath |}) ->
  Forall P (fst (gemfile_lines filePath inSpecs lines)).
Proof.
  intros HP. revert inSpecs.
  induction lines as [|line rest IH]; intros inSpecs; simpl; [constructor|].
  records_with ltac:(apply HP; nonempty); apply IH.
Qed.

Lemma maven_block_shape (include_dev : bool) (filePath block : string)
  (P : Dependency -> Prop) :
  (forall n v d, n <> "" -> v <> "" -> (d = true -> include_dev = true) ->
     P {| ecosystem := "maven";
          name := VStr n;
          version := VStr v;
          dev := VBool d;
          lockfile_source := filePath |}) ->
  Forall P (fst (maven_block include_dev filePath block)).
Proof.
  intros HP. unfold maven_block.
  records_with ltac:(apply HP; [by destruct (JS.trim _)|nonempty|]).
  intros Ht. match goal with H : _ && _ = false |- _ => rewrite Ht in H end.
  by destruct include_dev.
Qed.

Lemma npm_package_shape (include_dev : bool) (filePath : string)
  (entry : string * value) (P : Dependency -> Prop) :
  (forall n v d, n <> "" -> truthy v = true ->
     (truthy d = true -> include_dev = true) ->
     P {| ecosystem := "npm";
          name := VStr n;
          version := v;
          dev := or_else d (VBool false);
          lockfile_source := filePath |}) ->
  Forall P (fst (npm_package include_dev filePath entry)).
Proof.
  intros HP. unfold npm_package.
  records_with ltac:(apply HP; [nonempty|nonempty|]).
  intros Ht. match goal with H : _ && _ = false |- _ => rewrite Ht in H end.
  by destruct include_dev.
Qed.

Lemma deps_v1_entry_shape (include_dev : bool) (filePath : string)
  (isDev : bool) (key : string) (info : value) (nested : M unit)
  (P : Dependency -> Prop) :
  (forall n v, truthy v = true -> (isDev = true -> include_dev = true) ->
     P {| ecosystem := "npm";
          name := VStr n;
          version := v;
          dev := VBool isDev;
          lockfile_source := filePath |}) ->
  Forall P (fst nested) ->
  Forall P (fst (deps_v1_entry include_dev filePath isDev key info nested)).
Proof.
  intros HP Hn. unfold deps_v1_entry.
  records_with ltac:(apply HP; [nonempty|]); [|exact Hn].
  intros ->. match goal with H : _ && _ = false |- _ => simpl in H end.
  by destruct include_dev.
Qed.

(** Two runs of [parseDepsV1] go through the same entries: a relation kept
    by the empty run, the error, one entry and the sequence holds of the two
    runs. *)
Lemma parseDepsV1_related (R : M unit -> M unit -> Prop)
  (include_dev0 include_dev1 : bool) (filePath : string) (isDev : bool) :
  R (ret tt) (ret tt) ->
  (forall msg, R (lift (Throw msg)) (lift (Throw msg))) ->
  (forall key info n0 n1, R n0 n1 ->
     R (deps_v1_entry include_dev0 filePath isDev key info n0)
       (deps_v1_entry include_dev1 filePath isDev key info n1)) ->
  (forall m0 m1 k0 k1, R m0 m1 -> R k0 k1 -> R (m0 ;;; k0) (m1 ;;; k1)) ->
  forall deps,
    R (parseDepsV1 include_dev0 filePath deps isDev)
      (parseDepsV1 include_dev1 filePath deps isDev).
Proof.
  intros Hret Hthrow Hentry Hseq. fix IH 1.
  intros [| | | | s | items | entries]; simpl.
  - apply Hthrow.
  - apply Hthrow.
  - apply Hret.
  - apply Hret.
  - generalize (indexed 0 (characters s)). intros l.
    induction l as [|[key info] l IHl]; simpl; [apply Hret|].
    apply Hseq; [|exact IHl]. apply Hentry, Hret.
  - generalize 0.
    induction items as [|info rest IHrest]; intros i; [apply Hret|].
    apply Hseq; [|apply IHrest]. apply Hentry.
    destruct info as [| | | | | |props]; try apply Hret.
    induction props as [|[k v] others IHp]; [apply Hret|].
    destruct (bool_decide (k = "dependencies")); [|exact IHp].
    destruct (truthy v); [apply IH|apply Hret].
  - induction entries as [|[key info] rest IHrest]; [apply Hret|].
    apply Hseq; [|apply IHrest]. apply Hentry.
    destruct info as [| | | | | |props]; try apply Hret.
    induction props as [|[k v] others IHp]; [apply Hret|].
    destruct (bool_decide (k = "dependencies")); [|exact IHp].
    destruct (truthy v); [apply IH|apply Hret].
Qed.

Lemma bind_lift_Ok {A B} (a : A) (f : A -> M B) : bind (lift (Ok a)) f = f a.
Proof. unfold bind, lift. by destruct (f a). Qed.

(** [parseDepsV1] as the script writes it: the loop over
    [Object.entries(deps)], each entry followed by the call on its
    [dependencies] property when that is truthy. *)
Lemma parseDepsV1_unfold (include_dev : bool) (filePath : string)
  (deps : value) (isDev : bool) :
  parseDepsV1 include_dev filePath deps isDev
  = (let* entries := lift (Object_entries deps) in
     for_of entries
       (fun '(key, info) =>
          deps_v1_entry include_dev filePath isDev key info
            (let* nested := lift (get info "dependencies") in
             if truthy nested
             then parseDepsV1 include_dev filePath nested isDev
             else ret tt))).
Proof.
  assert (Hentry : forall key info,
    deps_v1_entry include_dev filePath isDev key info
      (match info with
       | VObj props =>
           (fix find (props : list (string * value)) : M unit :=
              match props with
              | [] => ret tt
              | (k, v) :: others =>
                  if bool_decide (k = "dependencies")
                  then if truthy v
                       then parseDepsV1 include_dev filePath v isDev
                       else ret tt
                  else find others
              end) props
       | _ => ret tt
       end)
    = deps_v1_entry include_dev filePath isDev key info
        (let* nested := lift (get info "dependencies") in
         if truthy nested
         then parseDepsV1 include_dev filePath nested isDev
         else ret tt)).
  { intros key info. destruct info as [| | | | | |props]; try done.
    f_equal. cbn [get]. rewrite bind_lift_Ok.
    induction props as [|[k v] others IH]; [done|].
    cbn [lookup_prop]. by destruct (bool_decide (k = "dependencies")). }
  destruct deps as [| | | | s | items | entries]; cbn [Object_entries];
    rewrite ?bind_lift_Ok; try done.
  - cbn [parseDepsV1]. generalize 0.
    induction s as [|c s IH]; intros i; [done|].
    cbn [characters indexed for_of]. by rewrite IH.
  - cbn [parseDepsV1]. generalize 0.
    induction items as [|info rest IH]; intros i; [done|].
    cbn [indexed for_of]. by rewrite IH, Hentry.
  - cbn [parseDepsV1].
    induction entries as [|[key info] rest IH]; [done|].
    cbn [for_of]. by rewrite IH, Hentry.
Qed.

Lemma parseDepsV1_shape (include_dev : bool) (filePath : string)
  (isDev : bool) (deps : value) (P : Dependency -> Prop) :
  (forall n v, truthy v = true -> (isDev = true -> include_dev = true) ->
     P {| ecosystem := "npm";
          name := VStr n;
          version := v;
          dev := VBool isDev;
          lockfile_source := filePath |}) ->
  Forall P (fst (parseDepsV1 include_dev filePath deps isDev)).
Proof.
  intros HP.
  apply (parseDepsV1_related (fun m _ => Forall P (fst m))
           include_dev include_dev).
  - constructor.
  - constructor.
  - intros key info n0 _ Hn. by apply deps_v1_entry_shape.
  - intros m0 _ k0 _ Hm Hk. by apply bind_records.
Qed.

Lemma composer_package_shape (filePath : string) (isDev : bool) (pkg : value)
  (P : Dependency -> Prop) :
  (forall n v, truthy n = true -> truthy v = true ->
     P {| ecosystem := "composer";
          name := n;
          version := v;
          dev := VBool isDev;
          lockfile_source := filePath |}) ->
  Forall P (fst (composer_package filePath isDev pkg)).
Proof.
  intros HP. unfold composer_package.
  records_with ltac:(apply HP; nonempty).
Qed.

Lemma nuget_target_shape (filePath : string) (target : value)
  (P : Dependency -> Prop) :
  (forall n v, truthy v = true ->
     P {| ecosystem := "nuget";
          name := VStr n;
          version := v;
          dev := VBool false;
          lockfile_source := filePath |}) ->
  Forall P (fst (nuget_target filePath target)).
Proof.
  intros HP. unfold nuget_target, nuget_package.
  records_with ltac:(apply HP; nonempty).
Qed.

(** The records of each kind, through the [try] block of its parser. *)
Ltac parser_records :=
  unfold parseNpmLockfile, parseRequirements, parsePoetryLock, parseGoSum,
    parseGoMod, parseGemfileLock, parseCargoLock, parseComposerLock,
    parseNugetLock, parseMavenPom;
  rewrite try_catch_records;
  records_with fail;
  first [ apply npm_package_shape | apply parseDepsV1_shape
        | apply requirement_line_shape | apply poetry_block_shape
        | apply go_sum_line_shape | apply go_mod_lines_shape
        | apply gemfile_lines_shape | apply cargo_block_shape
        | apply composer_package_shape | apply nuget_target_shape
        | apply maven_block_shape ].

(** *** The records of the parsers *)

Lemma or_else_defined (a b : value) :
  b <> VUndefined -> or_else a b <> VUndefined.
Proof.
  intros Hb. unfold or_else. destruct (truthy a) eqn:E; [|done].
  intros ->. discriminate E.
Qed.

Lemma known_ecosystem (e : string) :
  In e ecosystems -> e ∈ ecosystems.
Proof. apply list_elem_of_In. Qed.

Ltac record_of_shape :=
  intros; split; [apply known_ecosystem; simpl; auto 10
                 |split; [|reflexivity]].

(** Every record of every parser has a known ecosystem, a defined [dev] and
    the path of its file as source. *)
Lemma dispatch_records (W : World) (type filePath : string) :
  Forall (record_of filePath) (snd (dispatch JSON_parse W type filePath)).
Proof.
  unfold dispatch.
  repeat (case_bool_decide; [try destruct (JS.endsWith _ _)|]);
    [..|constructor];
    parser_records; record_of_shape;
    first [ discriminate
          | apply or_else_defined; discriminate
          | match goal with
            | H : _ \/ _ \/ _ |- _ =>
                destruct H as [->|[->|[-> _]]]; discriminate
            end ].
Qed.

Lemma nonempty_string_VStr (s : string) :
  s <> "" -> nonempty_string (VStr s) = true.
Proof. by destruct s. Qed.

(** The parsers that test what they extracted give non-empty names and
    versions. *)
Lemma guarded_records_nonempty (W : World) (kind filePath : string) :
  kind ∈ guarded_kinds ->
  Forall (fun d => nonempty_string (name d) = true
                   /\ nonempty_string (version d) = true)
    (snd (dispatch JSON_parse W kind filePath)).
Proof.
  intros Hk. apply list_elem_of_In in Hk. simpl in Hk.
  destruct Hk as [<-|[<-|[<-|[<-|[<-|[]]]]]];
    unfold dispatch; simpl; try destruct (JS.endsWith _ _);
    parser_records; intros; split; by apply nonempty_string_VStr.
Qed.

(** The requirements parser gives a non-empty name and a version string,
    which is the sentinel when the line has no version. *)
Lemma requirements_records_named (W : World) (filePath : string) :
  Forall (fun d => nonempty_string (name d) = true
                   /\ exists v, version d = VStr v)
    (snd (parseRequirements W filePath)).
Proof.
  parser_records. intros n v Hn. split; [by apply nonempty_string_VStr|].
  by exists v.
Qed.

Lemma requirement_without_version (filePath line g1 : string) :
  match_requirement (JS.trim line) = Some (g1, None) ->
  Forall (fun d => version d = VStr "*")
    (fst (requirement_line filePath line)).
Proof.
  intros Hm. unfold requirement_line. rewrite Hm.
  destruct (_ || _); [constructor|].
  destruct (JS.is_empty _); [constructor|]. by apply Forall_singleton.
Qed.

(** The parsers of JSON give a truthy version. *)
Lemma json_records_versioned (W : World) (kind filePath : string) :
  kind ∈ json_kinds ->
  Forall (fun d => truthy (version d) = true)
    (snd (dispatch JSON_parse W kind filePath)).
Proof.
  intros Hk. apply list_elem_of_In in Hk. simpl in Hk.
  destruct Hk as [<-|[<-|[<-|[]]]];
    unfold dispatch; simpl; parser_records; by intros.
Qed.

(** *** Development dependencies excluded *)

Lemma excludes_dev_ret {A} (a : A) : excludes_dev (ret a) (ret a).
Proof. done. Qed.

Lemma excludes_dev_lift {A} (o : outcome A) : excludes_dev (lift o) (lift o).
Proof. done. Qed.

Lemma excludes_dev_bind_records {A B} (m0 m1 : M A) (f0 f1 : A -> M B) :
  excludes_dev m0 m1 ->
  (forall a, fst (f0 a) = List.filter production (fst (f1 a))) ->
  fst (bind m0 f0) = List.filter production (fst (bind m1 f1)).
Proof.
  intros [Hw Hr] Hf. destruct m0 as [w0 r0], m1 as [w1 r1]. simpl in *.
  subst w0 r0. destruct r1 as [a|msg]; [|done].
  specialize (Hf a). destruct (f0 a), (f1 a). simpl in *.
  by rewrite List.filter_app, Hf.
Qed.

Lemma excludes_dev_bind {A B} (m0 m1 : M A) (f0 f1 : A -> M B) :
  excludes_dev m0 m1 ->
  (forall a, excludes_dev (f0 a) (f1 a)) ->
  excludes_dev (bind m0 f0) (bind m1 f1).
Proof.
  intros Hm Hf. split.
  - apply excludes_dev_bind_records; [done|]. intros a. apply Hf.
  - destruct Hm as [_ Hr]. destruct m0 as [w0 r0], m1 as [w1 r1].
    simpl in *. subst r0. destruct r1 as [a|msg]; [|done].
    destruct (Hf a) as [_ Hs]. by destruct (f0 a), (f1 a).
Qed.

Lemma excludes_dev_for_of {A} (l : list A) (b0 b1 : A -> M unit) :
  (forall x, excludes_dev (b0 x) (b1 x)) ->
  excludes_dev (for_of l b0) (for_of l b1).
Proof.
  intros Hb. induction l as [|x l IH]; [done|].
  simpl. by apply excludes_dev_bind.
Qed.

Lemma filter_production_all (l : list Dependency) :
  Forall (fun d => production d = true) l -> List.filter production l = l.
Proof.
  induction 1 as [|d l Hd _ IH]; [done|]. simpl. by rewrite Hd, IH.
Qed.

Lemma filter_production_none (l : list Dependency) :
  Forall (fun d => production d = false) l -> List.filter production l = [].
Proof.
  induction 1 as [|d l Hd _ IH]; [done|]. simpl. by rewrite Hd, IH.
Qed.

(** A piece that pushes no record classified dev is its own exclusion. *)
Lemma excludes_dev_same {A} (m : M A) :
  Forall (fun d => production d = true) (fst m) -> excludes_dev m m.
Proof. intros H. split; [|done]. by rewrite filter_production_all. Qed.

Lemma poetry_block_excludes_dev (filePath block : string) :
  excludes_dev (poetry_block false filePath block)
    (poetry_block true filePath block).
Proof.
  unfold poetry_block.
  destruct (match_assignment "name" block); [|done].
  destruct (match_assignment "version" block); [|done].
  destruct (match_assignment "category" block) as [c|]; [|done].
  by destruct (bool_decide (c = "dev")).
Qed.

Lemma maven_block_excludes_dev (filePath block : string) :
  excludes_dev (maven_block false filePath block)
    (maven_block true filePath block).
Proof.
  unfold maven_block.
  destruct (match_element "groupId" block); [|done].
  destruct (match_element "artifactId" block); [|done].
  destruct (match_element "version" block); [|done].
  destruct (_ || _); [done|].
  destruct (JS.includes _ _); [done|].
  by destruct (bool_decide (maven_scope block = "test")).
Qed.

Lemma npm_package_excludes_dev (filePath : string) (entry : string * value) :
  excludes_dev (npm_package false filePath entry)
    (npm_package true filePath entry).
Proof.
  unfold npm_package. destruct entry as [pkgPath pkg].
  destruct (JS.is_empty pkgPath); [done|].
  destruct (JS.is_empty (package_name pkgPath)); [done|].
  apply excludes_dev_bind; [done|]. intros version.
  destruct (negb (truthy version)); [done|].
  apply excludes_dev_bind; [done|]. intros pkg_dev.
  unfold excludes_dev, production, classified_dev, or_else. simpl.
  by destruct (truthy pkg_dev) eqn:E; simpl; rewrite ?E.
Qed.

(** The entries of [dependencies] are pushed whatever the flag. *)
Lemma parseDepsV1_production (filePath : string) (deps : value) :
  excludes_dev (parseDepsV1 false filePath deps false)
    (parseDepsV1 true filePath deps false).
Proof.
  apply (parseDepsV1_related excludes_dev).
  - done.
  - done.
  - intros key info n0 n1 Hn. unfold deps_v1_entry.
    apply excludes_dev_bind; [done|]. intros version.
    destruct (negb (truthy version)); [done|]. cbn [andb].
    apply (excludes_dev_bind (push _) (push _)); [done|]. by intros _.
  - intros m0 m1 k0 k1 Hm Hk. apply excludes_dev_bind; [done|]. by intros _.
Qed.

(** The entries of [devDependencies] are all skipped when the flag is off,
    and all classified dev when it is on. *)
Lemma parseDepsV1_dev_skipped (filePath : string) (deps : value) :
  fst (parseDepsV1 false filePath deps true) = [].
Proof.
  apply (parseDepsV1_related (fun m _ => fst m = []) false false).
  - done.
  - done.
  - intros key info n0 _ _. unfold deps_v1_entry.
    destruct (get info "version") as [version|msg]; [|done]. simpl.
    by destruct (truthy version).
  - intros [w0 [[]|msg]] _ [w1 r1] _ Hm Hk; simpl in *; subst; done.
Qed.

Lemma parseDepsV1_dev_excluded (filePath : string) (deps : value) :
  fst (parseDepsV1 false filePath deps true)
  = List.filter production (fst (parseDepsV1 true filePath deps true)).
Proof.
  rewrite parseDepsV1_dev_skipped, filter_production_none; [done|].
  by apply parseDepsV1_shape.
Qed.

Lemma composer_package_production (filePath : string) (pkg : value) :
  excludes_dev (composer_package filePath false pkg)
    (composer_package filePath false pkg).
Proof. apply excludes_dev_same. by apply composer_package_shape. Qed.

(** Every parser but the requirements parser: with development
    dependencies excluded it returns the records that the run including
    them returns and does not classify dev, in the same order. *)
Lemma dispatch_excludes_dev (W W' : World) (kind filePath : string) :
  kind <> "requirements" ->
  readFileSync W filePath = readFileSync W' filePath ->
  INCLUDE_DEV W = false -> INCLUDE_DEV W' = true ->
  snd (dispatch JSON_parse W kind filePath)
  = List.filter production (snd (dispatch JSON_parse W' kind filePath)).
Proof.
  intros Hk Hr Hoff Hon. unfold dispatch.
  repeat (case_bool_decide; [try destruct (JS.endsWith _ _)|]);
    [| done | ..| done];
    unfold parseNpmLockfile, parsePoetryLock, parseGoSum,
      parseGoMod, parseGemfileLock, parseCargoLock, parseComposerLock,
      parseNugetLock, parseMavenPom;
    rewrite !try_catch_records, ?Hoff, ?Hon, Hr.
  - (* npm *)
    apply excludes_dev_bind_records; [done|]. intros content.
    apply excludes_dev_bind_records; [done|]. intros lock.
    apply excludes_dev_bind_records; [done|]. intros packages.
    destruct (truthy packages).
    + apply excludes_dev_bind_records; [done|]. intros entries.
      apply excludes_dev_for_of, npm_package_excludes_dev.
    + apply excludes_dev_bind_records; [done|]. intros dependencies.
      destruct (truthy dependencies); [|done].
      apply excludes_dev_bind_records; [apply parseDepsV1_production|].
      intros _. apply excludes_dev_bind_records; [done|].
      intros devDependencies.
      destruct (truthy devDependencies); [|done].
      apply parseDepsV1_dev_excluded.
  - (* poetry *)
    apply excludes_dev_bind_records; [done|]. intros content.
    apply excludes_dev_for_of, poetry_block_excludes_dev.
  - (* go.sum *)
    symmetry. apply filter_production_all.
    records_with fail. by apply go_sum_line_shape.
  - (* go.mod *)
    symmetry. apply filter_production_all.
    records_with fail. by apply go_mod_lines_shape.
  - (* Gemfile.lock *)
    symmetry. apply filter_production_all.
    records_with fail. by apply gemfile_lines_shape.
  - (* Cargo.lock *)
    symmetry. apply filter_production_all.
    records_with fail. by apply cargo_block_shape.
  - (* composer.lock *)
    apply excludes_dev_bind_records; [done|]. intros content.
    apply excludes_dev_bind_records; [done|]. intros lock.
    apply excludes_dev_bind_records; [done|]. intros packages.
    apply excludes_dev_bind_records; [done|]. intros packagesDev.
    apply excludes_dev_bind_records.
    + apply excludes_dev_for_of. intros pkg.
      apply composer_package_production.
    + intros _. simpl. symmetry. apply filter_production_none.
      apply for_of_records. intros pkg. by apply composer_package_shape.
  - (* packages.lock.json *)
    symmetry. apply filter_production_all.
    records_with fail. by apply nuget_target_shape.
  - (* pom.xml *)
    apply excludes_dev_bind_records; [done|]. intros content.
    apply excludes_dev_for_of, maven_block_excludes_dev.
Qed.

(** *** The dispatcher *)

Lemma process_entries_app (W : World) (l1 l2 : list string) :
  process_entries JSON_parse W (l1 ++ l2)
  = (fst (process_entries JSON_parse W l1) ++ fst (process_entries JSON_parse W l2),
     snd (process_entries JSON_parse W l1) ++ snd (process_entries JSON_parse W l2)).
Proof.
  induction l1 as [|e l1 IH]; simpl.
  - by destruct (process_entries JSON_parse W l2).
  - rewrite IH. destruct (process_entry JSON_parse W e) as [o d].
    destruct (process_entries JSON_parse W l1) as [o1 d1].
    destruct (process_entries JSON_parse W l2) as [o2 d2].
    simpl. by rewrite !app_assoc.
Qed.

Lemma process_entries_cons (W : World) (e : string) (l : list string) :
  process_entries JSON_parse W (e :: l)
  = (fst (process_entry JSON_parse W e) ++ fst (process_entries JSON_parse W l),
     snd (process_entry JSON_parse W e) ++ snd (process_entries JSON_parse W l)).
Proof.
  simpl. destruct (process_entry JSON_parse W e).
  by destruct (process_entries JSON_parse W l).
Qed.

(** An entry [kind:path] is split at its first colon; the path keeps its
    own colons. *)
Lemma entry_parts (kind path : string) :
  JS.includes ":" kind = false ->
  entry_type (kind +:+ ":" +:+ path) = kind
  /\ entry_path (kind +:+ ":" +:+ path) = path.
Proof.
  intros Hk. apply includes_false in Hk.
  pose proof (cut_app ":" "" kind path eq_refl Hk) as Hcut.
  unfold entry_type, entry_path.
  rewrite (split_found ":" _ kind path); [|done|exact Hcut].
  split; [done|]. simpl. by apply join_split.
Qed.

Lemma entry_without_colon (entry : string) :
  JS.includes ":" entry = false -> entry_path entry = "".
Proof.
  intros Hk. apply includes_false in Hk.
  unfold entry_path. by rewrite (split_not_found _ _ Hk).
Qed.

Lemma dispatch_logs (W : World) (type filePath : string) :
  fst (dispatch JSON_parse W type filePath) <> [].
Proof.
  unfold dispatch.
  repeat (case_bool_decide; [try destruct (JS.endsWith _ _); apply try_catch_logs|]).
  done.
Qed.

Lemma dispatch_unknown (W : World) (type filePath : string) :
  type ∉ kinds ->
  dispatch JSON_parse W type filePath
  = ([ConsoleWarn ("Unknown lockfile type: " +:+ type)], []).
Proof.
  intros Hk. unfold dispatch.
  repeat (case_bool_decide;
          [exfalso; apply Hk; subst type; apply list_elem_of_In; simpl;
           auto 12|]).
  done.
Qed.

Lemma round_of_entry (W : World) (kind path : string) :
  JS.includes ":" kind = false -> path <> "" ->
  process_entry JSON_parse W (kind +:+ ":" +:+ path)
  = dispatch JSON_parse W kind path.
Proof.
  intros Hk Hp. destruct (entry_parts kind path Hk) as [Ht Hpath].
  unfold process_entry. rewrite Ht, Hpath.
  apply is_empty_false in Hp. by rewrite Hp.
Qed.

Lemma in_kinds_cases (kind : string) (P : string -> Prop) :
  kind ∈ kinds ->
  P "npm" -> P "requirements" -> P "poetry" -> P "go" -> P "rubygems" ->
  P "cargo" -> P "composer" -> P "nuget" -> P "maven" -> P kind.
Proof.
  intros H. apply list_elem_of_In in H. simpl in H.
  repeat (destruct H as [<-|H]; [by intros|]). done.
Qed.

Lemma kinds_without_colon (kind : string) :
  kind ∈ kinds -> JS.includes ":" kind = false.
Proof. intros H. by apply (in_kinds_cases kind). Qed.

(** An unreadable file: the parser of any kind catches the error, prints it
    and returns no record. *)
Lemma dispatch_unreadable (W : World) (kind path msg : string) :
  kind ∈ kinds ->
  readFileSync W path = Throw msg ->
  dispatch JSON_parse W kind path
  = ([ConsoleError ("Error parsing " +:+ path +:+ ": " +:+ msg)], []).
Proof.
  intros Hk Hr. apply (in_kinds_cases kind); [exact Hk|..];
    unfold dispatch; simpl; try destruct (JS.endsWith _ _);
    unfold parseNpmLockfile, parseRequirements, parsePoetryLock, parseGoSum,
      parseGoMod, parseGemfileLock, parseCargoLock, parseComposerLock,
      parseNugetLock, parseMavenPom;
    by rewrite Hr.
Qed.

(** A file that is not JSON: the same, for the kinds that parse JSON. *)
Lemma dispatch_malformed_json (W : World) (kind path content msg : string) :
  kind ∈ json_kinds ->
  readFileSync W path = Ok content ->
  JSON_parse content = Throw msg ->
  dispatch JSON_parse W kind path
  = ([ConsoleError ("Error parsing " +:+ path +:+ ": " +:+ msg)], []).
Proof.
  intros Hk Hr Hj. apply list_elem_of_In in Hk. simpl in Hk.
  destruct Hk as [<-|[<-|[<-|[]]]];
    unfold dispatch; simpl;
    unfold parseNpmLockfile, parseComposerLock, parseNugetLock;
    rewrite Hr; cbn [lift bind]; by rewrite Hj.
Qed.

(** The rounds of the loop write no file. *)
Lemma try_catch_writes_nothing (filePath : string) (body : M unit) :
  written_dependencies (fst (try_catch filePath body)) = [].
Proof. by destruct body as [w [a|msg]]. Qed.

Lemma dispatch_writes_nothing (W : World) (type filePath : string) :
  written_dependencies (fst (dispatch JSON_parse W type filePath)) = [].
Proof.
  unfold dispatch.
  repeat (case_bool_decide;
          [try destruct (JS.endsWith _ _); apply try_catch_writes_nothing|]).
  done.
Qed.

Lemma process_entries_write_nothing (W : World) (entries : list string) :
  written_dependencies (fst (process_entries JSON_parse W entries)) = [].
Proof.
  induction entries as [|e rest IH]; [done|].
  rewrite process_entries_cons. cbn [fst].
  unfold written_dependencies in *. rewrite flat_map_app, IH, app_nil_r.
  unfold process_entry. destruct (JS.is_empty _); [done|].
  apply dispatch_writes_nothing.
Qed.

(** Whatever the rounds did, [main] ends by writing the inventory of the
    deduplicated records. *)
Lemma main_writes (W : World) :
  exists out,
    written_dependencies out = []
    /\ main JSON_parse Number_toString path_join W
       = out ++ writeInventory path_join W
                  (main_dependencies JSON_parse Number_toString W).
Proof using Type.
  unfold main, main_dependencies.
  destruct (JS.is_empty (LOCKFILES W)).
  - by exists [ConsoleLog "No lockfiles to parse"].
  - pose proof (process_entries_write_nothing W (JS.split "," (LOCKFILES W)))
      as Hw.
    destruct (process_entries JSON_parse W (JS.split "," (LOCKFILES W)))
      as [out deps]. cbn [fst snd] in *.
    eexists (out ++ [ConsoleLog _]). split.
    + unfold written_dependencies in *. by rewrite flat_map_app, Hw.
    + by rewrite <- app_assoc.
Qed.

Lemma writeInventory_written (W : World) (deps : list Dependency) :
  written_dependencies (writeInventory path_join W deps)
  = [VArr (List.map inventory_entry deps)].
Proof using Type.
  unfold writeInventory. cbn [app written_dependencies flat_map].
  destruct (env W "GITHUB_OUTPUT") as [[|c o]|]; reflexivity.
Qed.

(** The one [dependencies] array a run writes. *)
Lemma main_written (W : World) :
  written_dependencies (main JSON_parse Number_toString path_join W)
  = [VArr (List.map inventory_entry
             (main_dependencies JSON_parse Number_toString W))].
Proof using Type.
  destruct (main_writes W) as (out & Hout & ->).
  unfold written_dependencies in *.
  rewrite flat_map_app, Hout. apply writeInventory_written.
Qed.

(** A round reads the world through the file of its entry and the
    development flag only. *)
Lemma dispatch_same_file (W1 W2 : World) (type filePath : string) :
  readFileSync W1 filePath = readFileSync W2 filePath ->
  INCLUDE_DEV W1 = INCLUDE_DEV W2 ->
  dispatch JSON_parse W1 type filePath = dispatch JSON_parse W2 type filePath.
Proof.
  intros Hr Hd. unfold dispatch, parseNpmLockfile, parseRequirements,
    parsePoetryLock, parseGoSum, parseGoMod, parseGemfileLock, parseCargoLock,
    parseComposerLock, parseNugetLock, parseMavenPom.
  by rewrite Hr, Hd.
Qed.

Lemma process_entries_same_files (W1 W2 : World) (entries : list string) :
  (forall entry, entry ∈ entries ->
     readFileSync W1 (entry_path entry) = readFileSync W2 (entry_path entry)) ->
  INCLUDE_DEV W1 = INCLUDE_DEV W2 ->
  process_entries JSON_parse W1 entries = process_entries JSON_parse W2 entries.
Proof.
  intros Hr Hd. induction entries as [|e rest IH]; [done|].
  rewrite !process_entries_cons, IH.
  - unfold process_entry. destruct (JS.is_empty _); [done|].
    rewrite (dispatch_same_file W1 W2); [done| |done].
    apply Hr, list_elem_of_here.
  - intros entry He. by apply Hr, list_elem_of_further.
Qed.

(** *** Entries without a path *)

(** C10: an entry whose path portion is empty (an entry without a colon, or
    with nothing after its first colon) is skipped silently: the round does
    nothing at all (no console line, hence no parser and no warning, since
    the dispatcher always leaves a line), it adds no record, and the other
    entries are processed as if it were not in the list. *)
Theorem empty_path_entry_skipped (W : World) (entry : string)
  (pre post : list string) :
  (JS.includes ":" entry = false
   \/ exists kind, JS.includes ":" kind = false /\ entry = kind +:+ ":") ->
  process_entry JSON_parse W entry = ([], [])
  /\ (forall type filePath, fst (dispatch JSON_parse W type filePath) <> [])
  /\ process_entries JSON_parse W (pre ++ entry :: post)
     = process_entries JSON_parse W (pre ++ post).
Proof.
  intros H.
  assert (Hpath : entry_path entry = "").
  { destruct H as [H|(kind & Hk & ->)].
    - by apply entry_without_colon.
    - rewrite <- (append_nil_r (kind +:+ ":")), append_assoc.
      by apply entry_parts. }
  assert (Hskip : process_entry JSON_parse W entry = ([], [])).
  { unfold process_entry. by rewrite Hpath. }
  split; [exact Hskip|]. split; [apply dispatch_logs|].
  rewrite !process_entries_app, process_entries_cons, Hskip. done.
Qed.

(** *** Dispatch by kind *)

(** C5, amended: for an entry [kind:path] with a non-empty path, the round
    is the [switch] on the kind; under [go] it is the go.sum parser exactly
    when the path ends with [go.sum] and the go.mod parser otherwise; under a
    kind without a case it is one warning and no record, and the other
    entries are processed as usual. *)
Theorem dispatch_by_kind (W : World) (kind path : string)
  (pre post : list string) :
  JS.includes ":" kind = false -> path <> "" ->
  let entry := kind +:+ ":" +:+ path in
  process_entry JSON_parse W entry = dispatch JSON_parse W kind path
  /\ (kind = "go" ->
      process_entry JSON_parse W entry
      = if JS.endsWith "go.sum" path
        then parseGoSum W path else parseGoMod W path)
  /\ (kind ∉ kinds ->
      process_entry JSON_parse W entry
      = ([ConsoleWarn ("Unknown lockfile type: " +:+ kind)], [])
      /\ process_entries JSON_parse W (pre ++ entry :: post)
         = (fst (process_entries JSON_parse W pre)
            ++ ConsoleWarn ("Unknown lockfile type: " +:+ kind)
               :: fst (process_entries JSON_parse W post),
            snd (process_entries JSON_parse W pre)
            ++ snd (process_entries JSON_parse W post))).
Proof.
  intros Hk Hp entry.
  pose proof (round_of_entry W kind path Hk Hp) as Hround.
  fold entry in Hround.
  split; [exact Hround|]. split.
  - intros ->. by rewrite Hround.
  - intros Hunknown. rewrite Hround, (dispatch_unknown _ _ _ Hunknown).
    split; [done|].
    rewrite process_entries_app, process_entries_cons, Hround,
      (dispatch_unknown _ _ _ Hunknown). done.
Qed.

(** *** The deduplicator *)

(** The key of a record is made of its triple. *)
Lemma dedup_key_of_triple (d1 d2 : Dependency) :
  triple Number_toString d1 = triple Number_toString d2 ->
  dedup_key Number_toString d1 = dedup_key Number_toString d2.
Proof. unfold triple, dedup_key. intros [= -> -> ->]. done. Qed.

(** Where the key tells the triples of a list apart, the set-based filter of
    [main] is the deduplication of the specification. *)
Lemma unique_from_first_occurrences (deps : list Dependency)
  (seen : gset string) (seen' : list (string * string * string)) :
  (forall d1 d2, d1 ∈ deps -> d2 ∈ deps ->
     dedup_key Number_toString d1 = dedup_key Number_toString d2 ->
     triple Number_toString d1 = triple Number_toString d2) ->
  (forall d, d ∈ deps ->
     dedup_key Number_toString d ∈ seen <-> triple Number_toString d ∈ seen') ->
  unique_from Number_toString seen deps
  = first_occurrences Number_toString seen' deps.
Proof.
  revert seen seen'. induction deps as [|d deps IH]; intros seen seen' Hinj Hseen;
    [done|].
  simpl. pose proof (Hseen d (list_elem_of_here _ _)) as Hd.
  assert (Hinj' : forall d1 d2, d1 ∈ deps -> d2 ∈ deps ->
            dedup_key Number_toString d1 = dedup_key Number_toString d2 ->
            triple Number_toString d1 = triple Number_toString d2).
  { intros d1 d2 H1 H2. apply Hinj; by apply list_elem_of_further. }
  case_bool_decide as Hk; case_bool_decide as Ht; try tauto.
  - apply IH; [exact Hinj'|]. intros d' H'. apply Hseen.
    by apply list_elem_of_further.
  - f_equal. apply IH; [exact Hinj'|]. intros d' H'.
    rewrite elem_of_union, elem_of_singleton, elem_of_cons.
    pose proof (Hseen d' (list_elem_of_further _ _ _ H')) as Hd'.
    split; intros [E|E]; try tauto.
    + left. apply Hinj; [by apply list_elem_of_further|apply list_elem_of_here|done].
    + left. by apply dedup_key_of_triple.
Qed.

Lemma unique_first_occurrences (deps : list Dependency) :
  (forall d1 d2, d1 ∈ deps -> d2 ∈ deps ->
     dedup_key Number_toString d1 = dedup_key Number_toString d2 ->
     triple Number_toString d1 = triple Number_toString d2) ->
  unique Number_toString deps = first_occurrences Number_toString [] deps.
Proof.
  intros Hinj. apply unique_from_first_occurrences; [exact Hinj|].
  intros d _. rewrite elem_of_empty, elem_of_nil. done.
Qed.

(** The key tells apart the triples of records whose ecosystem and name
    hold no colon. *)
Lemma dedup_key_injective (d1 d2 : Dependency) :
  JS.includes ":" (ecosystem d1) = false ->
  JS.includes ":" (ecosystem d2) = false ->
  JS.includes ":" (ToString Number_toString (name d1)) = false ->
  JS.includes ":" (ToString Number_toString (name d2)) = false ->
  dedup_key Number_toString d1 = dedup_key Number_toString d2 ->
  triple Number_toString d1 = triple Number_toString d2.
Proof.
  unfold dedup_key, triple.
  intros He1 He2 Hn1 Hn2 Hkey.
  apply includes_false in He1, He2, Hn1, Hn2.
  pose proof (cut_app ":" "" _ (ToString Number_toString (name d1) +:+ ":"
                +:+ ToString Number_toString (version d1)) eq_refl He1) as C1.
  pose proof (cut_app ":" "" _ (ToString Number_toString (name d2) +:+ ":"
                +:+ ToString Number_toString (version d2)) eq_refl He2) as C2.
  rewrite Hkey in C1. rewrite C1 in C2. injection C2 as -> Hrest.
  pose proof (cut_app ":" "" _ (ToString Number_toString (version d1))
                eq_refl Hn1) as C3.
  pose proof (cut_app ":" "" _ (ToString Number_toString (version d2))
                eq_refl Hn2) as C4.
  rewrite Hrest in C3. rewrite C3 in C4. by injection C4 as -> ->.
Qed.

(** Two records of the same triple collapse to the first, whatever their
    [dev] and [lockfile_source]. *)
Lemma unique_same_triple (d1 d2 : Dependency) :
  triple Number_toString d1 = triple Number_toString d2 ->
  unique Number_toString [d1; d2] = [d1].
Proof.
  intros H. apply dedup_key_of_triple in H. unfold unique. simpl.
  rewrite bool_decide_eq_false_2 by apply not_elem_of_empty.
  rewrite bool_decide_eq_true_2; [done|].
  rewrite elem_of_union, elem_of_singleton. by left.
Qed.

(** *** The records of a run and their inventory objects *)

Lemma process_entry_records (W : World) (entry : string) :
  Forall (fun d => record_of (lockfile_source d) d /\ lockfile_source d <> "")
    (snd (process_entry JSON_parse W entry)).
Proof.
  unfold process_entry.
  destruct (JS.is_empty (entry_path entry)) eqn:E; [constructor|].
  apply is_empty_false in E.
  eapply Forall_impl; [apply dispatch_records|].
  intros d Hd. destruct Hd as (He & Hdev & Hsrc). rewrite Hsrc.
  by repeat split.
Qed.

Lemma process_entries_records (W : World) (entries : list string) :
  Forall (fun d => record_of (lockfile_source d) d /\ lockfile_source d <> "")
    (snd (process_entries JSON_parse W entries)).
Proof.
  induction entries as [|e rest IH]; [constructor|].
  rewrite process_entries_cons. simpl. apply Forall_app. split; [|exact IH].
  apply process_entry_records.
Qed.

Lemma unique_from_Forall (P : Dependency -> Prop) (deps : list Dependency)
  (seen : gset string) :
  Forall P deps -> Forall P (unique_from Number_toString seen deps).
Proof.
  intros H. revert seen. induction H as [|d deps Hd _ IH]; intros seen;
    [constructor|].
  simpl. case_bool_decide; [apply IH|]. constructor; [exact Hd|apply IH].
Qed.

(** The records handed to [writeInventory] have a defined [dev] and a
    non-empty source: their inventory objects have all five keys. *)
Lemma main_inventory_entries (W : World) :
  Forall (fun d =>
            dev d <> VUndefined
            /\ inventory_entry d
               = VObj [("ecosystem", VStr (ecosystem d));
                       ("name", name d);
                       ("version", version d);
                       ("dev", dev d);
                       ("lockfile_source", VStr (lockfile_source d))])
    (main_dependencies JSON_parse Number_toString W).
Proof.
  unfold main_dependencies.
  destruct (JS.is_empty (LOCKFILES W)); [constructor|].
  unfold unique. apply unique_from_Forall.
  eapply Forall_impl; [apply process_entries_records|].
  intros d ((_ & Hdev & _) & Hsrc). split; [exact Hdev|].
  unfold inventory_entry. apply is_empty_false in Hsrc. rewrite Hsrc.
  by destruct (dev d).
Qed.

(** The serializer leaves [lockfile_source] out exactly when it is the
    empty string, and [dev] exactly when it is [undefined]. *)
Lemma inventory_entry_keys (d : Dependency) :
  (lookup_prop "lockfile_source"
     (match inventory_entry d with VObj props => props | _ => [] end)
   = if JS.is_empty (lockfile_source d) then VUndefined
     else VStr (lockfile_source d))
  /\ lookup_prop "dev"
       (match inventory_entry d with VObj props => props | _ => [] end)
     = dev d.
Proof.
  unfold inventory_entry.
  destruct (dev d), (JS.is_empty (lockfile_source d)); by split.
Qed.

(** *** Loops whose body does not throw *)

Lemma for_of_total {A} (l : list A) (body : A -> M unit) :
  (forall x, snd (body x) = Ok tt) ->
  for_of l body = (flat_map (fun x => fst (body x)) l, Ok tt).
Proof.
  intros Hb. induction l as [|x l IH]; [done|].
  simpl. rewrite IH. specialize (Hb x).
  destruct (body x) as [w r]. simpl in Hb. subst r. done.
Qed.

(** *** pom.xml *)

Lemma maven_block_total (include_dev : bool) (filePath block : string) :
  snd (maven_block include_dev filePath block) = Ok tt.
Proof. unfold maven_block. by repeat case_match. Qed.

(** *** Errors inside a parser *)

(** C4, amended: when the file of an entry of a recognized kind cannot be
    read, or is not JSON where JSON is expected, the error is caught inside
    the parser of that entry: the round prints the error and adds no record,
    the entries before and after it are processed as they would be without
    it, and the records the run deduplicates are those of the other
    entries. *)
Theorem parser_errors_contained (W : World) (kind path msg : string)
  (pre post : list string) :
  kind ∈ kinds -> path <> "" ->
  (readFileSync W path = Throw msg
   \/ (kind ∈ json_kinds
       /\ exists content,
            readFileSync W path = Ok content
            /\ JSON_parse content = Throw msg)) ->
  let entry := kind +:+ ":" +:+ path in
  let line := ConsoleError ("Error parsing " +:+ path +:+ ": " +:+ msg) in
  process_entry JSON_parse W entry = ([line], [])
  /\ process_entries JSON_parse W (pre ++ entry :: post)
     = (fst (process_entries JSON_parse W pre)
        ++ line :: fst (process_entries JSON_parse W post),
        snd (process_entries JSON_parse W pre)
        ++ snd (process_entries JSON_parse W post))
  /\ (LOCKFILES W = JS.join "," (pre ++ entry :: post) ->
      Forall (fun e => JS.includes "," e = false) (pre ++ entry :: post) ->
      main_dependencies JSON_parse Number_toString W
      = unique Number_toString
          (snd (process_entries JSON_parse W pre)
           ++ snd (process_entries JSON_parse W post))).
Proof.
  intros Hk Hp Herr entry line.
  assert (Hround : process_entry JSON_parse W entry = ([line], [])).
  { unfold entry.
    rewrite (round_of_entry W kind path (kinds_without_colon _ Hk) Hp).
    destruct Herr as [Hr|(Hj & content & Hr & Hparse)].
    - by apply dispatch_unreadable.
    - by apply (dispatch_malformed_json W kind path content). }
  assert (Hrounds : process_entries JSON_parse W (pre ++ entry :: post)
                    = (fst (process_entries JSON_parse W pre)
                       ++ line :: fst (process_entries JSON_parse W post),
                       snd (process_entries JSON_parse W pre)
                       ++ snd (process_entries JSON_parse W post))).
  { by rewrite process_entries_app, process_entries_cons, Hround. }
  split; [exact Hround|]. split; [exact Hrounds|].
  intros HL Hl. unfold main_dependencies.
  assert (Hne : pre ++ entry :: post <> []) by (by destruct pre).
  destruct (JS.is_empty (LOCKFILES W)) eqn:E.
  - apply is_empty_true in E. rewrite E in HL. symmetry in HL.
    apply (JSMore.join_empty "," _ ltac:(done) Hne) in HL.
    destruct pre as [|e [|e' pre]]; [|destruct post|]; try discriminate HL.
    injection HL as HL _. unfold entry in HL. destruct kind; discriminate HL.
  - rewrite HL, (JSMore.split_join "," "" _ eq_refl Hne Hl). by rewrite Hrounds.
Qed.

(** *** Determinism *)

(** C8: two runs with the same lockfile list and development flag, over
    file systems that give the same content (or the same error) for every
    file of the list, hand the same records to the inventory and write the
    same [dependencies] array, whatever the clocks and the rest of the two
    worlds. *)
Theorem main_deterministic (W1 W2 : World) :
  LOCKFILES W1 = LOCKFILES W2 ->
  PROJECT_ID W1 = PROJECT_ID W2 ->
  INCLUDE_DEV W1 = INCLUDE_DEV W2 ->
  (forall entry, entry ∈ JS.split "," (LOCKFILES W1) ->
     readFileSync W1 (entry_path entry) = readFileSync W2 (entry_path entry)) ->
  main_dependencies JSON_parse Number_toString W1
  = main_dependencies JSON_parse Number_toString W2
  /\ written_dependencies (main JSON_parse Number_toString path_join W1)
     = written_dependencies (main JSON_parse Number_toString path_join W2).
Proof using Type.
  intros Hl _ Hd Hr.
  assert (Hdeps : main_dependencies JSON_parse Number_toString W1
                  = main_dependencies JSON_parse Number_toString W2).
  { unfold main_dependencies. rewrite <- Hl.
    by rewrite (process_entries_same_files W1 W2 _ Hr Hd). }
  split; [exact Hdeps|]. by rewrite !main_written, Hdeps.
Qed.

(** *** requirements.txt *)

(** C6: the requirements entry of the end-to-end example yields the three
    records flask 2.0.0, requests 2.28.0 and pytest 7.0.0 of ecosystem pypi,
    in this order and no other; a line that starts with [#] or [-] yields no
    record, whatever follows. *)
Theorem requirements_example_records (W : World) (filePath : string) :
  readFileSync W filePath = Ok requirements_example ->
  INCLUDE_DEV W = true ->
  filePath <> "" ->
  process_entry JSON_parse W ("requirements:" +:+ filePath)
  = ([ConsoleLog ("Parsed 3 packages from " +:+ filePath)],
     [pypi_record filePath "flask" "2.0.0";
      pypi_record filePath "requests" "2.28.0";
      pypi_record filePath "pytest" "7.0.0"])
  /\ forall line,
       JS.startsWith "#" (JS.trim line) || JS.startsWith "-" (JS.trim line) = true ->
       requirement_line filePath line = ret tt.
Proof.
  intros Hfile _ Hpath. split.
  - etransitivity; [exact (round_of_entry W "requirements" filePath eq_refl Hpath)|].
    change (dispatch JSON_parse W "requirements" filePath)
      with (parseRequirements W filePath).
    unfold parseRequirements. rewrite Hfile. reflexivity.
  - intros line H. unfold requirement_line.
    apply orb_true_iff in H as [-> | ->]; by rewrite ?orb_true_r.
Qed.

(* ----------------------------------------------------------------- *)
(** ** Further properties of the script *)

Import JSMore.

(** *** The lockfile list *)

(** X1: an entry is split at its first colon only: the kind is what stands
    before it and the path is all that follows, colons included. *)
Theorem entry_keeps_path_colons (kind path : string) :
  JS.includes ":" kind = false ->
  entry_type (kind +:+ ":" +:+ path) = kind
  /\ entry_path (kind +:+ ":" +:+ path) = path.
Proof. apply entry_parts. Qed.

(** X2: a list of entries without commas, joined by commas in [LOCKFILES],
    is processed entry by entry, in order: the records of the run are the
    deduplicated records of the rounds of these very entries. *)
Theorem lockfiles_round_trip (W : World) (entries : list string) :
  entries <> [] ->
  Forall (fun entry => JS.includes "," entry = false) entries ->
  LOCKFILES W = JS.join "," entries ->
  main_dependencies JSON_parse Number_toString W
  = unique Number_toString (snd (process_entries JSON_parse W entries)).
Proof.
  intros Hne Hl HL. unfold main_dependencies.
  destruct (JS.is_empty (LOCKFILES W)) eqn:E.
  - apply is_empty_true in E. rewrite E in HL. symmetry in HL.
    by rewrite (join_empty "," entries ltac:(done) Hne HL).
  - rewrite HL. by rewrite (split_join "," "" entries eq_refl Hne Hl).
Qed.

(** X3: a path that holds a comma is not kept whole: the list is split at
    the comma, the entry keeps the path up to the comma, and what follows
    the comma, having no colon, is skipped without a word. *)
Theorem comma_truncates_path (W : World) (kind path rest : string) :
  JS.includes ":" kind = false -> JS.includes "," kind = false ->
  JS.includes "," path = false -> path <> "" ->
  JS.includes "," rest = false -> JS.includes ":" rest = false ->
  process_entries JSON_parse W
    (JS.split "," (kind +:+ ":" +:+ path +:+ "," +:+ rest))
  = dispatch JSON_parse W kind path.
Proof.
  intros Hk Hkc Hp Hne Hr Hrc.
  assert (He : JS.includes "," (kind +:+ ":" +:+ path) = false).
  { apply includes_char_app; [done|]. by apply includes_char_app. }
  assert (Hsplit : JS.split "," (kind +:+ ":" +:+ path +:+ "," +:+ rest)
                   = [kind +:+ ":" +:+ path; rest]).
  { rewrite <- (split_join "," "" [kind +:+ ":" +:+ path; rest]); try done.
    - cbn [JS.join]. by rewrite !append_assoc.
    - by repeat constructor. }
  rewrite Hsplit. cbn [process_entries].
  rewrite (round_of_entry W kind path Hk Hne).
  unfold process_entry. rewrite (entry_without_colon rest Hrc).
  cbn [JS.is_empty]. destruct (dispatch JSON_parse W kind path).
  by rewrite !app_nil_r.
Qed.

(** *** The records of a kind *)

(** X4: every record of a recognized kind carries the ecosystem of the kind
    (pypi for requirements and poetry, the kind's own name otherwise) and,
    as source, the path the parser was given. *)
Theorem records_of_kind (W : World) (kind filePath : string) :
  kind ∈ kinds ->
  Forall (fun d => ecosystem d = ecosystem_of_kind kind
                   /\ lockfile_source d = filePath)
    (snd (dispatch JSON_parse W kind filePath)).
Proof.
  intros Hk. apply (in_kinds_cases kind); [exact Hk|..];
    unfold dispatch; simpl; try destruct (JS.endsWith _ _);
    parser_records; by intros.
Qed.

(** X5: the parsers of go.sum, go.mod, Gemfile.lock, Cargo.lock and
    packages.lock.json write [dev: false] in every record, whatever the
    path and the development flag. *)
Theorem never_dev_records (W : World) (kind filePath : string) :
  kind ∈ never_dev_kinds ->
  Forall (fun d => dev d = VBool false)
    (snd (dispatch JSON_parse W kind filePath)).
Proof.
  intros Hk. apply list_elem_of_In in Hk. simpl in Hk.
  destruct Hk as [<-|[<-|[<-|[<-|[]]]]];
    unfold dispatch; simpl; try destruct (JS.endsWith _ _);
    parser_records; by intros.
Qed.

(** X6: for every kind but requirements, the records returned with
    development dependencies excluded are the records returned with them
    included that are not classified dev, in the same order; so that none
    of the records returned is classified dev. *)
Theorem dev_excluded_but_requirements (W W' : World) (kind filePath : string) :
  kind <> "requirements" ->
  readFileSync W filePath = readFileSync W' filePath ->
  INCLUDE_DEV W = false -> INCLUDE_DEV W' = true ->
  snd (dispatch JSON_parse W kind filePath)
  = List.filter production (snd (dispatch JSON_parse W' kind filePath))
  /\ Forall (fun d => classified_dev d = false)
       (snd (dispatch JSON_parse W kind filePath)).
Proof.
  intros Hk Hr Hoff Hon.
  pose proof (dispatch_excludes_dev W W' kind filePath Hk Hr Hoff Hon)
    as Heq.
  split; [exact Heq|]. rewrite Heq. apply Forall_forall. intros d Hd.
  apply list_elem_of_In, List.filter_In in Hd as [_ Hd].
  unfold production in Hd. by apply negb_true_iff in Hd.
Qed.

(** X7: the parsers that test what they extracted (poetry.lock, go.sum,
    go.mod, Gemfile.lock, Cargo.lock, pom.xml) give every record a name and
    a version that are non-empty strings. *)
Theorem guarded_kinds_nonempty (W : World) (kind filePath : string) :
  kind ∈ guarded_kinds ->
  Forall (fun d => nonempty_string (name d) = true
                   /\ nonempty_string (version d) = true)
    (snd (dispatch JSON_parse W kind filePath)).
Proof. apply guarded_records_nonempty. Qed.


(** *** The deduplicator *)

Lemma unique_from_sublist (seen : gset string) (deps : list Dependency) :
  sublist (unique_from Number_toString seen deps) deps.
Proof.
  revert seen. induction deps as [|d deps IH]; intros seen; simpl;
    [constructor|].
  case_bool_decide; [apply sublist_cons|apply sublist_skip]; apply IH.
Qed.

Lemma unique_from_fresh (seen : gset string) (deps : list Dependency)
  (d : Dependency) :
  d ∈ unique_from Number_toString seen deps ->
  dedup_key Number_toString d ∉ seen.
Proof.
  revert seen. induction deps as [|x deps IH]; intros seen Hd; simpl in Hd.
  - by apply elem_of_nil in Hd.
  - case_bool_decide as Hx; [by apply IH|].
    apply elem_of_cons in Hd as [->|Hd]; [done|].
    apply IH in Hd. intros Hs. apply Hd, elem_of_union. by right.
Qed.

Lemma unique_from_NoDup (seen : gset string) (deps : list Dependency) :
  NoDup (List.map (dedup_key Number_toString)
           (unique_from Number_toString seen deps)).
Proof.
  revert seen. induction deps as [|x deps IH]; intros seen; simpl;
    [constructor|].
  case_bool_decide as Hx; [apply IH|]. simpl. constructor; [|apply IH].
  intros Hin. apply list_elem_of_In, in_map_iff in Hin as (d & Hk & Hd).
  apply list_elem_of_In, unique_from_fresh in Hd. apply Hd.
  rewrite Hk. apply elem_of_union. left. by apply elem_of_singleton.
Qed.

Lemma unique_from_first (seen : gset string) (pre post : list Dependency)
  (d : Dependency) :
  dedup_key Number_toString d ∉ seen ->
  Forall (fun d' => dedup_key Number_toString d'
                    <> dedup_key Number_toString d) pre ->
  d ∈ unique_from Number_toString seen (pre ++ d :: post).
Proof.
  intros Hs Hpre. revert seen Hs.
  induction Hpre as [|x pre Hx _ IH]; intros seen Hs; simpl.
  - rewrite bool_decide_eq_false_2 by done. apply list_elem_of_here.
  - case_bool_decide; [by apply IH|].
    apply list_elem_of_further, IH.
    rewrite elem_of_union, elem_of_singleton. intros [E|E]; [|done].
    by apply Hx.
Qed.

Lemma unique_from_fixed (seen : gset string) (deps : list Dependency) :
  NoDup (List.map (dedup_key Number_toString) deps) ->
  Forall (fun d => dedup_key Number_toString d ∉ seen) deps ->
  unique_from Number_toString seen deps = deps.
Proof.
  revert seen. induction deps as [|x deps IH]; intros seen Hnd Hs; [done|].
  simpl in *. apply NoDup_cons in Hnd as [Hx Hnd].
  apply Forall_cons in Hs as [Hxs Hs].
  rewrite bool_decide_eq_false_2 by done. f_equal. apply IH; [done|].
  apply Forall_forall. intros d Hd.
  rewrite elem_of_union, elem_of_singleton. intros [E|E].
  - apply Hx. rewrite <- E. apply list_elem_of_In, in_map, list_elem_of_In, Hd.
  - by apply (proj1 (Forall_forall _ _) Hs d Hd).
Qed.

(** X8: the deduplicator keeps records in their order (its result is a
    sublist of its input), no two records it keeps have the same key, and
    of the records with one key it keeps the first: a record that no
    earlier record shares its key with is kept. *)
Theorem unique_keeps_first (deps : list Dependency) :
  sublist (unique Number_toString deps) deps
  /\ NoDup (List.map (dedup_key Number_toString) (unique Number_toString deps))
  /\ forall pre d post,
       deps = pre ++ d :: post ->
       Forall (fun d' => dedup_key Number_toString d'
                         <> dedup_key Number_toString d) pre ->
       d ∈ unique Number_toString deps.
Proof.
  split; [apply unique_from_sublist|]. split; [apply unique_from_NoDup|].
  intros pre d post -> Hpre. apply unique_from_first; [|done].
  apply not_elem_of_empty.
Qed.

(** X9: deduplicating twice is deduplicating once, and a list whose keys
    are all different is left as it is. *)
Theorem unique_idempotent (deps : list Dependency) :
  unique Number_toString (unique Number_toString deps)
  = unique Number_toString deps
  /\ (NoDup (List.map (dedup_key Number_toString) deps) ->
      unique Number_toString deps = deps).
Proof.
  assert (H : forall l, NoDup (List.map (dedup_key Number_toString) l) ->
                        unique Number_toString l = l).
  { intros l Hl. apply unique_from_fixed; [done|].
    apply Forall_forall. intros d _. apply not_elem_of_empty. }
  split; [|apply H]. apply H, unique_from_NoDup.
Qed.

(** X10: on records whose ecosystem and name hold no colon, the
    deduplicator keeps exactly the first record of every triple of
    ecosystem, name and version. *)
Theorem unique_by_triple (deps : list Dependency) :
  Forall (fun d => JS.includes ":" (ecosystem d) = false
                   /\ JS.includes ":" (ToString Number_toString (name d))
                      = false) deps ->
  unique Number_toString deps = first_occurrences Number_toString [] deps.
Proof.
  intros H. apply unique_first_occurrences. intros d1 d2 H1 H2.
  destruct (proj1 (Forall_forall _ _) H d1 H1) as [He1 Hn1].
  destruct (proj1 (Forall_forall _ _) H d2 H2) as [He2 Hn2].
  by apply dedup_key_injective.
Qed.

Lemma known_ecosystem_plain (e : string) :
  e ∈ ecosystems -> JS.includes ":" e = false.
Proof.
  intros H. apply list_elem_of_In in H. simpl in H.
  by destruct H as [<-|[<-|[<-|[<-|[<-|[<-|[<-|[<-|[]]]]]]]]].
Qed.

(** X29: the deduplicator never merges records of different ecosystems:
    two records of the rounds of a run that have the same key are of the
    same ecosystem. *)
Theorem ecosystems_never_merged (W : World) (entries : list string)
  (d1 d2 : Dependency) :
  d1 ∈ snd (process_entries JSON_parse W entries) ->
  d2 ∈ snd (process_entries JSON_parse W entries) ->
  dedup_key Number_toString d1 = dedup_key Number_toString d2 ->
  ecosystem d1 = ecosystem d2.
Proof.
  intros H1 H2 Hkey.
  pose proof (proj1 (Forall_forall _ _) (process_entries_records W entries))
    as Hr.
  destruct (Hr d1 H1) as [[He1 _] _]. destruct (Hr d2 H2) as [[He2 _] _].
  apply known_ecosystem_plain, includes_false in He1, He2.
  unfold dedup_key in Hkey.
  pose proof (cut_app ":" "" _ (ToString Number_toString (name d1) +:+ ":"
                +:+ ToString Number_toString (version d1)) eq_refl He1) as C1.
  pose proof (cut_app ":" "" _ (ToString Number_toString (name d2) +:+ ":"
                +:+ ToString Number_toString (version d2)) eq_refl He2) as C2.
  rewrite Hkey in C1. rewrite C1 in C2. by injection C2 as -> _.
Qed.

(** *** What a run prints and writes *)

Lemma try_catch_line (filePath : string) (body : M unit) :
  fst (try_catch filePath body)
  = [ConsoleLog ("Parsed " +:+ JS.of_nat (length (snd (try_catch filePath body)))
                 +:+ " packages from " +:+ filePath)]
  \/ exists msg,
       fst (try_catch filePath body)
       = [ConsoleError ("Error parsing " +:+ filePath +:+ ": " +:+ msg)].
Proof. destruct body as [w [a|msg]]; [by left|right; by exists msg]. Qed.

(** X11: the parser of a recognized kind prints exactly one line: either
    the count of the records it returns, or the error that ended it. *)
Theorem one_line_per_parser (W : World) (kind filePath : string) :
  kind ∈ kinds ->
  fst (dispatch JSON_parse W kind filePath)
  = [ConsoleLog
       ("Parsed "
        +:+ JS.of_nat (length (snd (dispatch JSON_parse W kind filePath)))
        +:+ " packages from " +:+ filePath)]
  \/ exists msg,
       fst (dispatch JSON_parse W kind filePath)
       = [ConsoleError ("Error parsing " +:+ filePath +:+ ": " +:+ msg)].
Proof.
  intros Hk. apply (in_kinds_cases kind); [exact Hk|..];
    unfold dispatch; simpl; try destruct (JS.endsWith _ _);
    apply try_catch_line.
Qed.

Lemma try_catch_file_effects (filePath : string) (body : M unit) :
  file_effects (fst (try_catch filePath body)) = [].
Proof. by destruct body as [w [a|msg]]. Qed.

Lemma dispatch_file_effects (W : World) (type filePath : string) :
  file_effects (fst (dispatch JSON_parse W type filePath)) = [].
Proof.
  unfold dispatch.
  repeat (case_bool_decide;
          [try destruct (JS.endsWith _ _); apply try_catch_file_effects|]).
  done.
Qed.

Lemma process_entries_file_effects (W : World) (entries : list string) :
  file_effects (fst (process_entries JSON_parse W entries)) = [].
Proof.
  induction entries as [|e rest IH]; [done|].
  rewrite process_entries_cons. cbn [fst].
  unfold file_effects in *. rewrite List.filter_app, IH, app_nil_r.
  unfold process_entry. destruct (JS.is_empty _); [done|].
  apply dispatch_file_effects.
Qed.

(** X12: when every name and version of the records of the rounds can be
    converted to a string, all a run does to the file system is to write
    the inventory of its deduplicated records, once, and, when
    [GITHUB_OUTPUT] names a file, to append to it the count of these
    records and the path of the inventory; the parsers write nothing. *)
Theorem main_file_effects (W : World) :
  Forall (fun d => printable_record d = true)
    (snd (process_entries JSON_parse W (JS.split "," (LOCKFILES W)))) ->
  let deps := main_dependencies JSON_parse Number_toString W in
  file_effects (main JSON_parse Number_toString path_join W)
  = WriteFile (outputPath path_join W) (inventory W deps)
    :: match env W "GITHUB_OUTPUT" with
       | Some (String _ _ as outputFile) =>
           [AppendFile outputFile
              ("packages_count=" +:+ JS.of_nat (length deps) +:+ LF);
            AppendFile outputFile
              ("inventory_path=" +:+ outputPath path_join W +:+ LF)]
       | _ => []
       end.
Proof using Type.
  intros _. cbv zeta. unfold main, main_dependencies, file_effects.
  assert (Hw : forall deps,
    List.filter is_file_effect (writeInventory path_join W deps)
    = WriteFile (outputPath path_join W) (inventory W deps)
      :: match env W "GITHUB_OUTPUT" with
         | Some (String _ _ as outputFile) =>
             [AppendFile outputFile
                ("packages_count=" +:+ JS.of_nat (length deps) +:+ LF);
              AppendFile outputFile
                ("inventory_path=" +:+ outputPath path_join W +:+ LF)]
         | _ => []
         end).
  { intros deps. unfold writeInventory, outputPath.
    by destruct (env W "GITHUB_OUTPUT") as [[|c o]|]. }
  destruct (JS.is_empty (LOCKFILES W)); [apply Hw|].
  pose proof (process_entries_file_effects W (JS.split "," (LOCKFILES W)))
    as Hp.
  destruct (process_entries JSON_parse W (JS.split "," (LOCKFILES W)))
    as [out deps].
  cbn [fst snd] in *. unfold file_effects in Hp.
  rewrite !List.filter_app, Hp. apply Hw.
Qed.

(** X13: every record of the rounds of a run, and so every record the
    deduplicator keeps, is made by [writeInventory] into an object with the
    five keys ecosystem, name, version, dev and lockfile_source: no record
    has an undefined [dev] or an empty source, so that neither key is left
    out. *)
Theorem written_objects_complete (W : World) (entries : list string) :
  let complete d :=
    inventory_entry d
    = VObj [("ecosystem", VStr (ecosystem d));
            ("name", name d);
            ("version", version d);
            ("dev", dev d);
            ("lockfile_source", VStr (lockfile_source d))] in
  Forall complete (snd (process_entries JSON_parse W entries))
  /\ Forall complete
       (unique Number_toString (snd (process_entries JSON_parse W entries))).
Proof.
  intros complete.
  assert (H : Forall complete (snd (process_entries JSON_parse W entries))).
  { eapply Forall_impl; [apply process_entries_records|].
    intros d [(_ & Hdev & _) Hsrc]. unfold complete, inventory_entry.
    destruct (dev d); [done|..]; by destruct (lockfile_source d). }
  split; [exact H|]. by apply unique_from_Forall.
Qed.

(** *** Files without the markers the parsers look for *)

Lemma go_mod_lines_outside (filePath : string) (lines : list string) :
  Forall (fun line => JS.startsWith "require" (JS.trim line) = false) lines ->
  go_mod_lines filePath false lines = ret tt.
Proof.
  induction 1 as [|line rest Hline _ IH]; [done|]. cbn [go_mod_lines].
  destruct (_ || _); [exact IH|].
  destruct (JS.startsWith "require (" (JS.trim line)) eqn:E1.
  { apply (startsWith_prefix "require" " (") in E1. congruence. }
  destruct (JS.startsWith "require " (JS.trim line)) eqn:E2.
  { apply (startsWith_prefix "require" " ") in E2. congruence. }
  by rewrite IH.
Qed.

Lemma gemfile_lines_outside (filePath : string) (lines : list string) :
  Forall (fun line => JS.trim line <> "specs:") lines ->
  gemfile_lines filePath false lines = ret tt.
Proof.
  induction 1 as [|line rest Hline _ IH]; [done|]. cbn [gemfile_lines].
  by rewrite bool_decide_eq_false_2.
Qed.

(** X14: a poetry.lock or a Cargo.lock without the marker [[[package]]]
    yields no record and no error: what stands before the first marker is
    never read as a package. *)
Theorem lock_without_package_marker (W : World) (filePath content : string) :
  readFileSync W filePath = Ok content ->
  JS.includes "[[package]]" content = false ->
  parsePoetryLock W filePath
  = ([ConsoleLog ("Parsed 0 packages from " +:+ filePath)], [])
  /\ parseCargoLock W filePath
     = ([ConsoleLog ("Parsed 0 packages from " +:+ filePath)], []).
Proof.
  intros Hr Hc. apply includes_false in Hc.
  unfold parsePoetryLock, parseCargoLock. rewrite Hr. cbn [lift bind].
  by rewrite (split_not_found _ _ Hc).
Qed.

(** X15: an ASCII Gemfile.lock in which no line is [specs:] (spaces
    around it apart) yields no record and no error. *)
Theorem gemfile_without_specs (W : World) (filePath content : string) :
  readFileSync W filePath = Ok content ->
  ascii_text content = true ->
  Forall (fun line => JS.trim line <> "specs:") (JS.split LF content) ->
  parseGemfileLock W filePath
  = ([ConsoleLog ("Parsed 0 packages from " +:+ filePath)], []).
Proof.
  intros Hr _ Hl. unfold parseGemfileLock. rewrite Hr. cbn [lift bind].
  by rewrite (gemfile_lines_outside filePath _ Hl).
Qed.

(** X16: an ASCII go.mod in which no line starts, spaces apart, with
    [require] yields no record and no error: the module, go, replace and
    exclude directives are not read as dependencies. *)
Theorem go_mod_without_require (W : World) (filePath content : string) :
  readFileSync W filePath = Ok content ->
  ascii_text content = true ->
  Forall (fun line => JS.startsWith "require" (JS.trim line) = false)
    (JS.split LF content) ->
  parseGoMod W filePath
  = ([ConsoleLog ("Parsed 0 packages from " +:+ filePath)], []).
Proof.
  intros Hr _ Hl. unfold parseGoMod. rewrite Hr. cbn [lift bind].
  by rewrite (go_mod_lines_outside filePath _ Hl).
Qed.

(** X17: the names of the records of a requirements file and of a
    poetry.lock are in lower case: each is a string that [toLowerCase]
    leaves as it is. *)
Theorem pypi_names_lower_case (W : World) (kind filePath : string) :
  kind ∈ pypi_kinds ->
  Forall (fun d => exists n, name d = VStr n /\ JS.toLowerCase n = n)
    (snd (dispatch JSON_parse W kind filePath)).
Proof.
  intros Hk. apply list_elem_of_In in Hk. simpl in Hk.
  destruct Hk as [<-|[<-|[]]]; unfold dispatch; simpl;
    unfold parseRequirements, parsePoetryLock; rewrite try_catch_records;
    records_with fail; unfold requirement_line, poetry_block;
    records_with ltac:(eexists; split;
                       [reflexivity|apply toLowerCase_idempotent]).
Qed.

(** *** package-lock.json *)

(** X18: the name of a package of a version 2 or 3 lockfile is the last
    segment of its path: what follows the last [node_modules/], scope
    included; a path without [node_modules/] is the name itself. *)
Theorem package_name_last_segment (segments : list string) :
  segments <> [] ->
  Forall (fun s => JS.includes "node_modules/" s = false) segments ->
  package_name ("node_modules/" +:+ JS.join "node_modules/" segments)
  = List.last segments ""
  /\ package_name (List.last segments "") = List.last segments "".
Proof.
  intros Hne Hs. split.
  - unfold package_name. rewrite startsWith_app.
    change 13 with (String.length "node_modules/"). rewrite drop_app.
    by rewrite (split_join "n" "ode_modules/" segments eq_refl Hne Hs).
  - assert (Hl : JS.includes "node_modules/" (List.last segments "") = false).
    { apply (proj1 (Forall_forall _ _) Hs), list_elem_of_In.
      destruct segments as [|x l]; [done|].
      apply (@List.exists_last _ (x :: l)) in Hne as (l' & a & ->).
      rewrite List.last_last. apply in_or_app. right. by left. }
    unfold package_name. rewrite (includes_startsWith _ _ Hl).
    apply includes_false in Hl. by rewrite (split_not_found _ _ Hl).
Qed.

(** X19: every record of [parseDepsV1] has the flag of the call as its
    [dev], nested dependencies included, and a truthy version; a call for
    development dependencies, with these excluded, yields no record. *)
Theorem v1_records_inherit_flag (include_dev : bool) (filePath : string)
  (deps : value) (isDev : bool) :
  Forall (fun d => dev d = VBool isDev /\ truthy (version d) = true
                   /\ exists n, name d = VStr n)
    (fst (parseDepsV1 include_dev filePath deps isDev))
  /\ (isDev = true -> include_dev = false ->
      fst (parseDepsV1 include_dev filePath deps isDev) = []).
Proof.
  split.
  - apply parseDepsV1_shape. intros n v Hv _. split; [done|].
    split; [done|]. by exists n.
  - intros -> ->. apply parseDepsV1_dev_skipped.
Qed.

(** X20: a JSON lockfile that is an object without the keys [packages],
    [dependencies] and [packages-dev] yields no record and no error, under
    each of the three kinds that parse JSON. *)
Theorem json_without_keys (W : World) (kind filePath content : string)
  (props : list (string * value)) :
  kind ∈ json_kinds ->
  readFileSync W filePath = Ok content ->
  JSON_parse content = Ok (VObj props) ->
  lookup_prop "packages" props = VUndefined ->
  lookup_prop "dependencies" props = VUndefined ->
  lookup_prop "packages-dev" props = VUndefined ->
  dispatch JSON_parse W kind filePath
  = ([ConsoleLog ("Parsed 0 packages from " +:+ filePath)], []).
Proof.
  intros Hk Hr Hj Hp Hd Hpd. apply list_elem_of_In in Hk. simpl in Hk.
  destruct Hk as [<-|[<-|[<-|[]]]]; unfold dispatch; simpl;
    unfold parseNpmLockfile, parseComposerLock, parseNugetLock;
    rewrite Hr; cbn [lift bind]; rewrite Hj; cbn [lift bind get];
    rewrite ?Hp, ?Hd, ?Hpd; cbn; try done.
  by destruct (INCLUDE_DEV W).
Qed.

(** *** requirements.txt *)

Lemma version_char_no_terminator (c : ascii) :
  is_version_char c = true -> negb (JS.is_line_terminator c) = true.
Proof. destruct c as [[] [] [] [] [] [] [] []]; by vm_compute. Qed.

Lemma clean_version_char (c : ascii) :
  is_clean_version_char c = true ->
  is_version_char c = true /\ non_space c = true
  /\ JS.char_eqb c "," || JS.char_eqb c ";" = false.
Proof. destruct c as [[] [] [] [] [] [] [] []]; by vm_compute. Qed.

Lemma name_char_plain (c : ascii) :
  is_requirement_name_char c = true ->
  non_space c = true /\ JS.char_eqb c "[" = false
  /\ JS.char_eqb "#" c = false /\ is_operator_char c = false.
Proof. destruct c as [[] [] [] [] [] [] [] []]; by vm_compute. Qed.

Lemma operator_char_plain (c : ascii) :
  is_operator_char c = true ->
  non_space c = true /\ is_requirement_name_char c = false
  /\ JS.char_eqb "[" c = false.
Proof. destruct c as [[] [] [] [] [] [] [] []]; by vm_compute. Qed.

Lemma remove_clauses_clean (v : string) :
  every is_version_char v = true ->
  every is_clean_version_char (remove_clauses v) = true.
Proof.
  induction v as [|c v IH]; [done|]. simpl.
  intros [Hc Hv]%andb_true_iff.
  rewrite (no_line_terminator_every v
             (every_impl _ _ v version_char_no_terminator Hv)).
  rewrite andb_true_r.
  destruct (JS.char_eqb c "," || JS.char_eqb c ";") eqn:E; [done|].
  apply orb_false_iff in E as [E _]. simpl.
  unfold is_clean_version_char at 1. by rewrite Hc, E, (IH Hv).
Qed.

Lemma remove_clauses_id (v : string) :
  every is_clean_version_char v = true -> remove_clauses v = v.
Proof.
  induction v as [|c v IH]; [done|]. simpl.
  intros [Hc Hv]%andb_true_iff.
  destruct (clean_version_char c Hc) as (_ & _ & ->). simpl.
  by rewrite (IH Hv).
Qed.

Lemma remove_extras_id (n : string) :
  every is_requirement_name_char n = true -> remove_extras n = n.
Proof.
  induction n as [|c n IH]; [done|]. simpl.
  intros [Hc Hn]%andb_true_iff.
  destruct (name_char_plain c Hc) as (_ & -> & _). simpl.
  by rewrite (IH Hn).
Qed.

Lemma match_requirement_version (trimmed g1 v : string) :
  match_requirement trimmed = Some (g1, Some v) ->
  every is_version_char v = true.
Proof.
  unfold match_requirement.
  destruct (JS.span is_requirement_name_char trimmed) as [n s1].
  destruct (JS.is_empty n); [done|].
  destruct (match match_extras s1 with
            | Some (e, r) => (n +:+ e, r)
            | None => (n, s1)
            end) as [g s2].
  destruct (JS.span is_operator_char (JS.skip_spaces s2)) as [o s4].
  pose proof (span_every is_version_char (JS.skip_spaces s4)) as Hv.
  destruct (JS.span is_version_char (JS.skip_spaces s4)) as [v' r].
  destruct (JS.is_empty v'); intros [= _ <-]. exact Hv.
Qed.

Lemma requirement_line_version (filePath line : string) :
  Forall (fun d => exists v,
            version d = VStr v /\ every is_clean_version_char v = true)
    (fst (requirement_line filePath line)).
Proof.
  unfold requirement_line. destruct (_ || _); [constructor|].
  destruct (match_requirement (JS.trim line)) as [[g1 [v|]]|] eqn:E;
    [| |constructor].
  - destruct (JS.is_empty _); [constructor|]. apply Forall_singleton.
    eexists. split; [reflexivity|].
    apply every_trim, remove_clauses_clean.
    by apply (match_requirement_version _ _ _ E).
  - destruct (JS.is_empty _); [constructor|]. apply Forall_singleton.
    by exists "*".
Qed.

(** X21: the version of a record of a requirements file is a string
    without whitespace, comma, semicolon and number sign. *)
Theorem requirements_version_clean (W : World) (filePath : string) :
  Forall (fun d => exists v,
            version d = VStr v /\ every is_clean_version_char v = true)
    (snd (parseRequirements W filePath)).
Proof.
  unfold parseRequirements. rewrite try_catch_records.
  records_with fail. apply requirement_line_version.
Qed.

(** X22: an ASCII line made of a name, an operator and a version, without
    spaces, is read back as this name, in lower case, and this version. *)
Theorem requirement_round_trip (filePath n op v : string) :
  every is_requirement_name_char n = true -> n <> "" ->
  JS.startsWith "-" n = false ->
  every is_operator_char op = true -> op <> "" ->
  every is_clean_version_char v = true -> v <> "" ->
  ascii_text v = true ->
  JS.span is_operator_char v = ("", v) ->
  requirement_line filePath (n +:+ op +:+ v)
  = push (pypi_record filePath (JS.toLowerCase n) v).
Proof.
  intros Hn Hne Hdash Hop Hope Hv Hve _ Hhead.
  assert (Hvs : every non_space v = true).
  { apply (every_impl _ _ v (fun c H => proj1 (proj2 (clean_version_char c H)))
             Hv). }
  assert (Hvv : every is_version_char v = true).
  { apply (every_impl _ _ v (fun c H => proj1 (clean_version_char c H)) Hv). }
  assert (Hline : every non_space (n +:+ op +:+ v) = true).
  { rewrite !every_app, Hvs.
    rewrite (every_impl _ _ n (fun c H => proj1 (name_char_plain c H)) Hn).
    by rewrite (every_impl _ _ op (fun c H => proj1 (operator_char_plain c H))
                  Hop). }
  unfold requirement_line. rewrite (trim_every _ Hline).
  destruct n as [|n0 n']; [done|]. destruct op as [|o0 op']; [done|].
  destruct v as [|v0 v']; [done|].
  pose proof Hn as Hn0. simpl in Hn0. apply andb_true_iff in Hn0 as [Hn0 _].
  pose proof Hop as Ho0. simpl in Ho0. apply andb_true_iff in Ho0 as [Ho0 _].
  pose proof Hvs as Hv0. simpl in Hv0. apply andb_true_iff in Hv0 as [Hv0 _].
  destruct (name_char_plain n0 Hn0) as (_ & _ & Hsharp & _).
  destruct (operator_char_plain o0 Ho0) as (Hos & Hon & Hob).
  assert (Hstart : JS.is_empty (String n0 n' +:+ String o0 op' +:+ String v0 v')
                   || JS.startsWith "#" (String n0 n' +:+ String o0 op' +:+ String v0 v')
                   || JS.startsWith "-" (String n0 n' +:+ String o0 op' +:+ String v0 v')
                   = false).
  { rewrite append_cons. simpl in Hdash |- *.
    rewrite andb_true_r in *. by rewrite Hsharp, Hdash. }
  rewrite Hstart.
  assert (Hm : match_requirement
                 (String n0 n' +:+ String o0 op' +:+ String v0 v')
               = Some (String n0 n', Some (String v0 v'))).
  { unfold match_requirement.
    rewrite (span_app _ (String n0 n') (String o0 op' +:+ String v0 v') Hn)
      by (rewrite append_cons; by apply span_none).
    cbn [JS.is_empty].
    assert (Hx : match_extras (String o0 op' +:+ String v0 v') = None).
    { rewrite append_cons. unfold JS.char_eqb in Hob.
      apply bool_decide_eq_false in Hob.
      destruct o0 as [[] [] [] [] [] [] [] []]; try done. }
    rewrite Hx.
    rewrite (append_cons o0), (skip_spaces_non_space _ _ Hos),
      <- (append_cons o0).
    rewrite (span_app _ _ _ Hop Hhead).
    rewrite (skip_spaces_non_space _ _ Hv0), (span_all _ _ Hvv).
    done. }
  rewrite Hm. cbv zeta.
  rewrite (remove_extras_id _ Hn), (remove_clauses_id _ Hv),
    (trim_every _ Hvs).
  done.
Qed.

(** *** go.sum *)

(** X23: for ASCII words, the two lines go.sum holds for a module, the one of its content
    and the one of its go.mod file, give the same record: the suffix
    [/go.mod] is taken off the version (the deduplicator then keeps one). *)
Theorem go_sum_lines_agree (filePath n v h h' : string) :
  every non_space n = true -> n <> "" ->
  every non_space v = true -> v <> "" ->
  JS.includes "/go.mod" v = false ->
  every non_space h = true -> h <> "" ->
  every non_space h' = true -> h' <> "" ->
  ascii_text (n +:+ v +:+ h +:+ h') = true ->
  go_sum_line filePath (n +:+ " " +:+ v +:+ " " +:+ h)
  = push (go_record filePath n v)
  /\ go_sum_line filePath (n +:+ " " +:+ (v +:+ "/go.mod") +:+ " " +:+ h')
     = push (go_record filePath n v).
Proof.
  intros Hn Hne Hv Hve Hgm Hh Hhe Hh' Hhe' _.
  assert (Hv' : every non_space (v +:+ "/go.mod") = true).
  { by rewrite every_app, Hv. }
  assert (Hve' : v +:+ "/go.mod" <> "").
  { destruct v; [done|]. by rewrite append_cons. }
  assert (He : forall s, JS.is_empty (n +:+ s) = false).
  { intros s. destruct n; [done|]. by rewrite append_cons. }
  assert (Ht : forall w t, every non_space w = true -> w <> "" ->
                 every non_space t = true -> t <> "" ->
                 JS.trim (n +:+ " " +:+ w +:+ " " +:+ t)
                 = n +:+ " " +:+ w +:+ " " +:+ t).
  { intros w t Hw Hwe Ht Hte.
    pose proof (trim_words n t Hn Hne Ht Hte (" " +:+ w +:+ " ")) as H.
    by rewrite !append_assoc in H. }
  split; unfold go_sum_line.
  - rewrite (Ht v h) by done. rewrite He.
    rewrite (split_ws_three n v h) by done.
    rewrite (endsWith_includes _ _ Hgm).
    destruct n; [done|]. by destruct v.
  - rewrite (Ht (v +:+ "/go.mod") h') by done. rewrite He.
    rewrite (split_ws_three n (v +:+ "/go.mod") h') by done.
    rewrite endsWith_app. unfold JS.remove_first.
    apply includes_false in Hgm.
    rewrite <- (append_nil_r (v +:+ "/go.mod")), append_assoc.
    rewrite (cut_app "/" "go.mod" v "" eq_refl Hgm), append_nil_r.
    destruct n; [done|]. by destruct v.
Qed.

(** *** Cargo.lock and poetry.lock *)

Lemma plain_char (c : ascii) :
  is_plain_char c = true ->
  is_not "034" c = true /\ negb (JS.is_line_terminator c) = true.
Proof. unfold is_plain_char. by intros [? ?]%andb_true_iff. Qed.

Lemma match_assignment_here_line (key val rest : string) :
  val <> "" -> every (is_not "034") val = true ->
  match_assignment_here key (assignment key val +:+ rest) = Some val.
Proof.
  intros Hne Hval. unfold match_assignment_here, assignment, quoted.
  rewrite !append_assoc, startsWith_app, drop_app.
  rewrite !append_cons, !append_nil_l.
  change (JS.skip_spaces (String " " (String "=" ?s))) with (String "=" s).
  cbv iota.
  change (JS.skip_spaces (String " " (String "034" ?s))) with (String "034" s).
  cbv iota.
  rewrite (span_app _ val _ Hval) by (by apply span_none).
  by destruct val.
Qed.

Lemma match_assignment_found (key s v : string) :
  match_assignment_here key s = Some v ->
  match_assignment_from key true s = Some v.
Proof. intros H. destruct s; simpl; by rewrite H. Qed.

Lemma match_assignment_inside (key l rest : string) :
  every (fun c => negb (JS.is_line_terminator c)) l = true ->
  match_assignment_from key false (l +:+ LF +:+ rest)
  = match_assignment_from key true rest.
Proof.
  induction l as [|c l IH]; intros Hl; [done|].
  simpl in Hl. apply andb_true_iff in Hl as [Hc Hl].
  apply negb_true_iff in Hc.
  rewrite append_cons. cbn [match_assignment_from]. rewrite Hc. by apply IH.
Qed.

Lemma match_assignment_next_line (key l rest : string) :
  JS.startsWith key (l +:+ LF +:+ rest) = false ->
  every (fun c => negb (JS.is_line_terminator c)) l = true ->
  match_assignment_from key true (l +:+ LF +:+ rest)
  = match_assignment_from key true rest.
Proof.
  intros Hs Hl.
  assert (Hh : match_assignment_here key (l +:+ LF +:+ rest) = None).
  { unfold match_assignment_here. by rewrite Hs. }
  destruct l as [|c l].
  - rewrite append_nil_l in *. unfold LF in *. rewrite append_cons in *.
    cbn [match_assignment_from]. by rewrite Hh.
  - rewrite append_cons in *. cbn [match_assignment_from]. rewrite Hh.
    simpl in Hl. apply andb_true_iff in Hl as [Hc Hl].
    apply negb_true_iff in Hc. rewrite Hc.
    by apply match_assignment_inside.
Qed.

Lemma match_assignment_first_line (key rest : string) :
  JS.startsWith key (LF +:+ rest) = false ->
  match_assignment_from key true (LF +:+ rest)
  = match_assignment_from key true rest.
Proof. intros H. by apply (match_assignment_next_line key "" rest). Qed.

Lemma assignment_on_line (key val : string) :
  every (fun c => negb (JS.is_line_terminator c)) key = true ->
  every is_plain_char val = true ->
  every (fun c => negb (JS.is_line_terminator c)) (assignment key val) = true.
Proof.
  intros Hk Hv. unfold assignment, quoted.
  rewrite !every_app, Hk. cbn [every].
  by rewrite (every_impl _ _ val (fun c H => proj2 (plain_char c H)) Hv).
Qed.

(** X24: a block of Cargo.lock that starts with the lines of the name and
    of the version, both ASCII, gives the record of this name and this
    version, whatever follows. *)
Theorem cargo_block_round_trip (filePath n v rest : string) :
  n <> "" -> every is_plain_char n = true ->
  v <> "" -> every (is_not "034") v = true ->
  ascii_text (n +:+ v) = true ->
  cargo_block filePath
    (LF +:+ assignment "name" n +:+ LF +:+ assignment "version" v +:+ LF
     +:+ rest)
  = push {| ecosystem := "cargo";
            name := VStr n;
            version := VStr v;
            dev := VBool false;
            lockfile_source := filePath |}.
Proof.
  intros Hne Hn Hve Hv _.
  assert (Hnq : every (is_not "034") n = true).
  { apply (every_impl _ _ n (fun c H => proj1 (plain_char c H)) Hn). }
  unfold cargo_block, match_assignment.
  rewrite (match_assignment_first_line "name" _ eq_refl).
  rewrite (match_assignment_found "name" _ n)
    by (by apply match_assignment_here_line).
  rewrite (match_assignment_first_line "version" _ eq_refl).
  rewrite (match_assignment_next_line "version" (assignment "name" n));
    [|done|by apply assignment_on_line].
  by rewrite (match_assignment_found "version" _ v)
    by (by apply match_assignment_here_line).
Qed.

(** X25: a block of poetry.lock that starts with the lines of the name, of
    the version and of the category, all ASCII, gives the record of the name in lower
    case and of the version, [dev] telling whether the category is [dev];
    with development dependencies excluded, a [dev] block gives none. *)
Theorem poetry_block_round_trip (include_dev : bool)
  (filePath n v c rest : string) :
  n <> "" -> every is_plain_char n = true ->
  v <> "" -> every is_plain_char v = true ->
  c <> "" -> every (is_not "034") c = true ->
  ascii_text (n +:+ v +:+ c) = true ->
  poetry_block include_dev filePath
    (LF +:+ assignment "name" n +:+ LF +:+ assignment "version" v +:+ LF
     +:+ assignment "category" c +:+ LF +:+ rest)
  = if bool_decide (c = "dev") && negb include_dev then ret tt
    else push {| ecosystem := "pypi";
                 name := VStr (JS.toLowerCase n);
                 version := VStr v;
                 dev := VBool (bool_decide (c = "dev"));
                 lockfile_source := filePath |}.
Proof.
  intros Hne Hn Hve Hv Hce Hc _.
  assert (Hnq : every (is_not "034") n = true).
  { apply (every_impl _ _ n (fun c H => proj1 (plain_char c H)) Hn). }
  assert (Hvq : every (is_not "034") v = true).
  { apply (every_impl _ _ v (fun c H => proj1 (plain_char c H)) Hv). }
  unfold poetry_block, match_assignment.
  rewrite (match_assignment_first_line "name" _ eq_refl).
  rewrite (match_assignment_found "name" _ n)
    by (by apply match_assignment_here_line).
  rewrite (match_assignment_first_line "version" _ eq_refl).
  rewrite (match_assignment_next_line "version" (assignment "name" n));
    [|done|by apply assignment_on_line].
  rewrite (match_assignment_found "version" _ v)
    by (by apply match_assignment_here_line).
  rewrite (match_assignment_first_line "category" _ eq_refl).
  rewrite (match_assignment_next_line "category" (assignment "name" n));
    [|done|by apply assignment_on_line].
  rewrite (match_assignment_next_line "category" (assignment "version" v));
    [|done|by apply assignment_on_line].
  rewrite (match_assignment_found "category" _ c)
    by (by apply match_assignment_here_line).
  done.
Qed.

(** *** Gemfile.lock *)

(** X26: in the specs section of an ASCII Gemfile.lock, a line that starts, spaces apart, with an
    upper-case letter ends the section: this line and the lines after it
    yield no record as long as no line is [specs:], be the line a section
    title or the spec of a gem whose name starts with an upper-case
    letter. *)
Theorem gemfile_section_ends (filePath line : string) (rest : list string) :
  Forall (fun l => ascii_text l = true) (line :: rest) ->
  starts_upper (JS.trim line) = true ->
  Forall (fun l => JS.trim l <> "specs:") rest ->
  gemfile_lines filePath true (line :: rest) = ret tt.
Proof.
  intros _ Hu Hrest. cbn [gemfile_lines].
  destruct (JS.trim line) as [|c t] eqn:E; [done|].
  rewrite bool_decide_eq_false_2.
  - cbn [JS.is_empty andb]. rewrite Hu. cbn [negb andb].
    by apply gemfile_lines_outside.
  - intros [= -> ->]. done.
Qed.

Lemma gem_name_char_plain (c : ascii) :
  is_gem_name_char c = true -> non_space c = true /\ is_not "(" c = true.
Proof. destruct c as [[] [] [] [] [] [] [] []]; by vm_compute. Qed.

Lemma gem_version_char (c : ascii) :
  is_gem_version_char c = true ->
  non_space c = true /\ is_not ")" c = true /\ is_not "," c = true.
Proof.
  unfold is_gem_version_char.
  by intros [[? ?]%andb_true_iff ?]%andb_true_iff.
Qed.

(** X27: in the specs section of an ASCII Gemfile.lock, the line of a gem (four spaces, the name, the
    version between parentheses) whose name does not start with an
    upper-case letter gives the record of this name and this version, and
    the section goes on. *)
Theorem gemfile_spec_round_trip (filePath n v : string) (rest : list string) :
  every is_gem_name_char n = true -> n <> "" -> starts_upper n = false ->
  every is_gem_version_char v = true -> v <> "" ->
  Forall (fun l => ascii_text l = true) (v :: rest) ->
  gemfile_lines filePath true (spec_line n v :: rest)
  = (push {| ecosystem := "rubygems";
             name := VStr n;
             version := VStr v;
             dev := VBool false;
             lockfile_source := filePath |} ;;;
     gemfile_lines filePath true rest).
Proof.
  intros Hn Hne Hup Hv Hve _.
  assert (Hns : every non_space n = true).
  { apply (every_impl _ _ n (fun c H => proj1 (gem_name_char_plain c H)) Hn). }
  assert (Hvs : every non_space v = true).
  { apply (every_impl _ _ v (fun c H => proj1 (gem_version_char c H)) Hv). }
  assert (Hvp : every (is_not ")") v = true).
  { apply (every_impl _ _ v
             (fun c H => proj1 (proj2 (gem_version_char c H))) Hv). }
  assert (Hvc : every (is_not ",") v = true).
  { apply (every_impl _ _ v
             (fun c H => proj2 (proj2 (gem_version_char c H))) Hv). }
  assert (Ht : JS.trim (spec_line n v) = n +:+ " (" +:+ v +:+ ")").
  { unfold spec_line, JS.trim.
    rewrite (skip_spaces_app "    " _ eq_refl).
    - replace (n +:+ " (" +:+ v +:+ ")") with ((n +:+ " (" +:+ v) +:+ ")")
        by (by rewrite !append_assoc).
      by apply trimEnd_app.
    - destruct n as [|c n']; [done|]. simpl in Hns.
      apply andb_true_iff in Hns as [Hc _]. unfold non_space in Hc.
      apply negb_true_iff in Hc. rewrite append_cons. by apply span_none. }
  cbn [gemfile_lines]. rewrite Ht.
  rewrite bool_decide_eq_false_2.
  2:{ intros E. apply (f_equal (every (is_not "("))) in E.
      rewrite !every_app in E.
      rewrite (every_impl _ _ n (fun c H => proj2 (gem_name_char_plain c H)) Hn)
        in E.
      done. }
  assert (He : JS.is_empty (n +:+ " (" +:+ v +:+ ")") = false).
  { destruct n; [done|]. by rewrite append_cons. }
  assert (Hu : starts_upper (n +:+ " (" +:+ v +:+ ")") = false).
  { destruct n; [done|]. by rewrite append_cons. }
  rewrite He, Hu. cbn [andb negb].
  assert (Hm : match_spec (spec_line n v) = Some (n, v)).
  { unfold spec_line. rewrite !append_cons, append_nil_l.
    cbn [match_spec]. change (JS.is_space " ") with true. cbn [andb].
    rewrite (span_app _ n _ Hn) by (by apply span_none).
    destruct n as [|c n']; [done|].
    rewrite append_nil_l. cbn [JS.span].
    change (JS.is_space " ") with true. change (JS.is_space "(") with false.
    cbv iota.
    rewrite (span_app _ v _ Hvp) by (by apply span_none).
    by destruct v. }
  rewrite Hm.
  rewrite (split_not_found "," v (cut_char_none "," v Hvc)). cbn [hd].
  rewrite (trim_every _ Hvs).
  destruct n; [done|]. by destruct v.
Qed.

(** *** The earlier script *)

Lemma legacy_dispatch_same (W : World) (kind filePath : string) :
  kind ∉ later_kinds ->
  legacy_dispatch JSON_parse W kind filePath
  = dispatch JSON_parse W kind filePath.
Proof.
  intros Hk. unfold legacy_dispatch, dispatch.
  repeat (case_bool_decide; [done|]).
  repeat (case_bool_decide;
          [exfalso; apply Hk; subst kind; apply list_elem_of_In; simpl;
           auto 12|]).
  done.
Qed.

Lemma legacy_process_entries_same (W : World) (entries : list string) :
  Forall (fun entry => entry_type entry ∉ later_kinds) entries ->
  legacy_process_entries JSON_parse W entries
  = process_entries JSON_parse W entries.
Proof.
  induction 1 as [|e rest He _ IH]; [done|]. simpl. rewrite IH.
  unfold legacy_process_entry, process_entry.
  by rewrite (legacy_dispatch_same W _ _ He).
Qed.

(** X28: the earlier script and the later one do the same on a list whose
    entries are of none of the six kinds added since; on an entry of one
    of these kinds the earlier script prints the warning of an unknown
    kind and adds no record. *)
Theorem legacy_main_agrees (W : World) :
  (Forall (fun entry => entry_type entry ∉ later_kinds)
     (JS.split "," (LOCKFILES W)) ->
   legacy_main JSON_parse Number_toString path_join W
   = main JSON_parse Number_toString path_join W)
  /\ forall kind filePath,
       kind ∈ later_kinds ->
       legacy_dispatch JSON_parse W kind filePath
       = ([ConsoleWarn ("Unknown lockfile type: " +:+ kind)], []).
Proof using Type.
  split.
  - intros H. unfold legacy_main, main.
    by rewrite (legacy_process_entries_same W _ H).
  - intros kind filePath Hk. apply list_elem_of_In in Hk. simpl in Hk.
    by destruct Hk as [<-|[<-|[<-|[<-|[<-|[<-|[]]]]]]].
Qed.

(** *** pom.xml, from the text *)

Lemma match_element_here_None (tag s : string) :
  JS.startsWith (open_tag tag) s = false -> match_element_here tag s = None.
Proof. intros H. unfold match_element_here. by rewrite H. Qed.

Lemma match_element_next (tag : string) (c : ascii) (s : string) :
  JS.startsWith (open_tag tag) (String c s) = false ->
  match_element tag (String c s) = match_element tag s.
Proof.
  intros H. cbn [match_element]. by rewrite (match_element_here_None _ _ H).
Qed.

Lemma match_element_found (tag s v : string) :
  match_element_here tag s = Some v -> match_element tag s = Some v.
Proof. intros H. destruct s; cbn [match_element]; by rewrite H. Qed.

Lemma match_element_fresh (tag a rest : string) :
  every (is_not "<") a = true ->
  match_element tag (a +:+ rest) = match_element tag rest.
Proof.
  intros Ha. induction a as [|d a IH]; [done|].
  simpl in Ha. apply andb_true_iff in Ha as [Hd Ha].
  unfold is_not in Hd. apply negb_true_iff in Hd.
  rewrite append_cons, match_element_next; [by apply IH|].
  unfold open_tag. change ("<" +:+ ?x) with (String "<" x).
  cbn [JS.startsWith]. by rewrite char_eqb_sym, Hd.
Qed.

Lemma match_element_segment (tag head body rest : string) :
  every (is_not "<") (head +:+ body) = true ->
  mismatch (open_tag tag) (String "<" head) = true ->
  match_element tag (segment head body +:+ rest) = match_element tag rest.
Proof.
  intros Hf Hm. unfold segment. rewrite append_cons, match_element_next.
  - by apply match_element_fresh.
  - rewrite append_assoc.
    exact (mismatch_startsWith _ (String "<" head) (body +:+ rest) Hm).
Qed.

Lemma match_element_segments (tag : string) (l : list (string * string))
  (rest : string) :
  Forall (fun hb => every (is_not "<") (fst hb +:+ snd hb) = true
                    /\ mismatch (open_tag tag) (String "<" (fst hb)) = true) l ->
  match_element tag (segments l +:+ rest) = match_element tag rest.
Proof.
  induction 1 as [|[h b] l [Hf Hm] _ IH]; cbn [segments]; [done|].
  by rewrite append_assoc, (match_element_segment tag h b _ Hf Hm).
Qed.

Lemma match_element_segments_none (tag : string)
  (l : list (string * string)) :
  Forall (fun hb => every (is_not "<") (fst hb +:+ snd hb) = true
                    /\ mismatch (open_tag tag) (String "<" (fst hb)) = true) l ->
  match_element tag (segments l) = None.
Proof.
  intros H. rewrite <- (append_nil_r (segments l)).
  by rewrite (match_element_segments tag l "" H).
Qed.

Lemma match_element_of_element (tag body after rest : string) :
  body <> "" -> every (is_not "<") body = true ->
  match_element tag
    (segment (tag +:+ ">") body +:+ segment ("/" +:+ tag +:+ ">") after
     +:+ rest)
  = Some body.
Proof.
  intros Hne Hb. apply match_element_found.
  assert (Heq : segment (tag +:+ ">") body
                +:+ segment ("/" +:+ tag +:+ ">") after +:+ rest
                = open_tag tag +:+ body
                  +:+ String "<" (("/" +:+ tag +:+ ">") +:+ after +:+ rest)).
  { unfold segment, open_tag. rewrite !append_cons, !append_nil_l.
    by rewrite !append_assoc. }
  rewrite Heq. unfold match_element_here.
  rewrite startsWith_app, drop_app.
  rewrite (span_app _ body _ Hb) by (by apply span_none).
  destruct body as [|c body]; [done|].
  unfold close_tag. rewrite !append_assoc.
  change (String "<" ("/" +:+ ?x)) with ("</" +:+ x).
  assert (E : forall x, "</" +:+ tag +:+ ">" +:+ x
                        = ("</" +:+ tag +:+ ">") +:+ x)
    by (intros x; by rewrite !append_assoc).
  by rewrite E, startsWith_app.
Qed.

Lemma match_element_empty (tag : string) : match_element tag "" = None.
Proof. done. Qed.

(** The text of a dependency, tag by tag. *)
Lemma dependency_xml_inner (gap : string) (d : pom_dependency) :
  dependency_xml gap d
  = "<dependency>" +:+ (gap +:+ segments (dependency_segments gap d))
    +:+ "</dependency>".
Proof.
  unfold dependency_xml, dependency_segments, scope_segments, element,
    open_tag, close_tag.
  destruct (dep_scope d); cbn [app segments]; unfold segment;
    rewrite !append_assoc; reflexivity.
Qed.

Lemma dependency_xml_segments (gap : string) (d : pom_dependency) :
  dependency_xml gap d
  = segments (("dependency>", gap)
              :: dependency_segments gap d ++ [("/dependency>", "")]).
Proof.
  rewrite dependency_xml_inner.
  unfold dependency_segments, scope_segments.
  destruct (dep_scope d); cbn [app segments]; unfold segment;
    rewrite !append_assoc, ?append_nil_r; reflexivity.
Qed.

Lemma field_ok_inv (s : string) :
  field_ok s = true ->
  s <> "" /\ every (is_not "<") s = true /\ ascii_text s = true.
Proof.
  unfold field_ok. intros [[Hne Hs]%andb_true_iff Ha]%andb_true_iff.
  repeat split; try done. by destruct s.
Qed.

Lemma dependency_ok_inv (d : pom_dependency) :
  item_ok (pom_dependency_block d) = true ->
  field_ok (dep_groupId d) = true /\ field_ok (dep_artifactId d) = true
  /\ field_ok (dep_version d) = true
  /\ match dep_scope d with Some s => field_ok s = true | None => True end.
Proof.
  cbn [item_ok].
  intros [[[Hg Ha]%andb_true_iff Hv]%andb_true_iff Hs]%andb_true_iff.
  repeat split; try done. by destruct (dep_scope d).
Qed.

Lemma segments_app (l1 l2 : list (string * string)) :
  segments (l1 ++ l2) = segments l1 +:+ segments l2.
Proof.
  induction l1 as [|[h b] l1 IH]; [done|]. cbn [app segments].
  by rewrite IH, append_assoc.
Qed.

(** A list of segments whose bodies hold no [<]. *)
Ltac free_segments :=
  repeat first
    [ apply List.Forall_nil
    | apply Forall_cons; split;
      [ cbn [fst snd]; rewrite every_app; apply andb_true_iff;
        split; [reflexivity|first [assumption|reflexivity]] | ] ].

Ltac other_tags :=
  repeat first [ apply List.Forall_nil | apply Forall_cons; split; [reflexivity|] ].

Lemma Forall_both {A} (P Q : A -> Prop) (l : list A) :
  Forall P l -> Forall Q l -> Forall (fun x => P x /\ Q x) l.
Proof. intros HP HQ. apply Forall_and. by split. Qed.

Lemma match_element_in_segments (tag : string)
  (l1 : list (string * string)) (body after : string)
  (l3 : list (string * string)) :
  Forall (fun hb => every (is_not "<") (fst hb +:+ snd hb) = true) l1 ->
  Forall (fun hb => mismatch (open_tag tag) (String "<" (fst hb)) = true) l1 ->
  body <> "" -> every (is_not "<") body = true ->
  match_element tag
    (segments (l1 ++ (tag +:+ ">", body) :: ("/" +:+ tag +:+ ">", after) :: l3))
  = Some body.
Proof.
  intros Hf Hm Hne Hb. rewrite segments_app.
  rewrite (match_element_segments tag l1 _ (Forall_both _ _ _ Hf Hm)).
  cbn [segments]. by apply match_element_of_element.
Qed.

Section Dependency.

Context (gap : string) (d : pom_dependency).
Context (Hgap : every (is_not "<") gap = true).
Context (Hd : item_ok (pom_dependency_block d) = true).

Lemma dependency_segments_free :
  Forall (fun hb => every (is_not "<") (fst hb +:+ snd hb) = true)
    (dependency_segments gap d).
Proof using Hgap Hd.
  destruct (dependency_ok_inv d Hd) as (Hg & Ha & Hv & Hs).
  apply field_ok_inv in Hg as (_ & Hg & _), Ha as (_ & Ha & _),
    Hv as (_ & Hv & _).
  unfold dependency_segments, scope_segments.
  destruct (dep_scope d) as [s|]; [apply field_ok_inv in Hs as (_ & Hs & _)|];
    cbn [app]; free_segments.
Qed.

Lemma cut_past_dependency (rest : string) :
  JS.cut "<dependencyManagement>" (dependency_xml gap d +:+ rest)
  = prepend (dependency_xml gap d) (JS.cut "<dependencyManagement>" rest).
Proof using Hgap Hd.
  rewrite dependency_xml_segments.
  apply (cut_segments "dependencyManagement>"), Forall_both.
  - apply Forall_cons; split; [|apply Forall_app; split].
    + cbn [fst snd]. by rewrite every_app, Hgap.
    + apply dependency_segments_free.
    + by repeat constructor.
  - unfold dependency_segments, scope_segments.
    destruct (dep_scope d); cbn [app]; other_tags.
Qed.

Lemma cut_inside_dependency :
  JS.cut "</dependency>" (gap +:+ segments (dependency_segments gap d)) = None.
Proof using Hgap Hd.
  rewrite (cut_fresh "<" "/dependency>" gap _ Hgap).
  rewrite <- (append_nil_r (segments _)).
  rewrite (cut_segments "/dependency>"); [done|].
  apply Forall_both; [apply dependency_segments_free|].
  unfold dependency_segments, scope_segments.
  destruct (dep_scope d); cbn [app]; other_tags.
Qed.

Lemma dependency_fields :
  match_element "groupId" (dependency_xml gap d) = Some (dep_groupId d)
  /\ match_element "artifactId" (dependency_xml gap d)
     = Some (dep_artifactId d)
  /\ match_element "version" (dependency_xml gap d) = Some (dep_version d)
  /\ match_element "scope" (dependency_xml gap d) = dep_scope d.
Proof using Hgap Hd.
  destruct (dependency_ok_inv d Hd) as (Hg & Ha & Hv & Hs).
  apply field_ok_inv in Hg as (Hgn & Hg & _), Ha as (Han & Ha & _),
    Hv as (Hvn & Hv & _).
  rewrite dependency_xml_segments.
  unfold dependency_segments, scope_segments.
  split; [|split; [|split]].
  - apply (match_element_in_segments "groupId" [("dependency>", gap)]
             (dep_groupId d) gap); [free_segments|other_tags|done..].
  - apply (match_element_in_segments "artifactId"
             [("dependency>", gap); ("groupId>", dep_groupId d);
              ("/groupId>", gap)]
             (dep_artifactId d) gap); [free_segments|other_tags|done..].
  - apply (match_element_in_segments "version"
             [("dependency>", gap); ("groupId>", dep_groupId d);
              ("/groupId>", gap); ("artifactId>", dep_artifactId d);
              ("/artifactId>", gap)]
             (dep_version d) gap); [free_segments|other_tags|done..].
  - destruct (dep_scope d) as [s|].
    + apply field_ok_inv in Hs as (Hsn & Hs & _).
      apply (match_element_in_segments "scope"
               [("dependency>", gap); ("groupId>", dep_groupId d);
                ("/groupId>", gap); ("artifactId>", dep_artifactId d);
                ("/artifactId>", gap); ("version>", dep_version d);
                ("/version>", gap)]
               s gap [("/dependency>", "")]);
        [free_segments|other_tags|done..].
    + cbn [app]. apply match_element_segments_none.
      apply Forall_both; [free_segments|other_tags].
Qed.

Lemma maven_block_xml (include_dev : bool) (filePath : string) :
  maven_block include_dev filePath (dependency_xml gap d)
  = (maven_expected include_dev filePath (pom_dependency_block d), Ok tt).
Proof using Hgap Hd.
  destruct dependency_fields as (Eg & Ea & Ev & Es).
  unfold maven_block, maven_scope, maven_expected. rewrite Eg, Ea, Ev, Es.
  destruct (_ || _); [done|].
  destruct (JS.includes _ _); [done|].
  destruct (dep_scope d) as [s|].
  - by destruct (bool_decide (JS.trim s = "test")), include_dev.
  - done.
Qed.

End Dependency.

Lemma text_ok_inv (text : string) :
  item_ok (pom_text text) = true ->
  ends_in_tag false text = false
  /\ JS.cut "<dependency>" text = None
  /\ JS.cut "<dependencyManagement>" text = None.
Proof.
  cbn [item_ok].
  intros [[H1 H2]%andb_true_iff H3]%andb_true_iff.
  apply negb_true_iff in H1, H2, H3. by rewrite <- !includes_false.
Qed.

Lemma well_formed_cons (gap : string) (i : pom_item) (doc : list pom_item) :
  well_formed gap (i :: doc) = true ->
  every (is_not "<") gap = true /\ item_ok i = true
  /\ well_formed gap doc = true.
Proof.
  unfold well_formed. cbn [forallb].
  intros [Hg [Hi Hdoc]%andb_true_iff]%andb_true_iff.
  by rewrite Hg, Hi, Hdoc.
Qed.

(** Removing the dependencyManagement blocks leaves the text of the other
    parts. *)
Lemma remove_management_render (gap : string) (doc : list pom_item) :
  well_formed gap doc = true ->
  remove_dependencyManagement (render gap doc)
  = render gap (List.filter unmanaged doc).
Proof.
  unfold remove_dependencyManagement.
  induction doc as [|i doc IH]; intros Hwf; [done|].
  apply well_formed_cons in Hwf as (Hgap & Hi & Hdoc).
  specialize (IH Hdoc). destruct i as [text|body|d]; cbn [render render_item
    List.filter unmanaged].
  - destruct (text_ok_inv text Hi) as (He & _ & Hm).
    rewrite remove_blocks_skip, IH; [done..|].
    intros rest. by apply (cut_closed "dependencyManagement" text rest false).
  - cbn [item_ok] in Hi. apply negb_true_iff, includes_false in Hi.
    rewrite !append_assoc.
    rewrite (remove_blocks_found _ _ _ ""
               (body +:+ "</dependencyManagement>" +:+ render gap doc)
               body (render gap doc)); [by rewrite IH|done| |].
    + rewrite cut_startsWith by apply startsWith_app. by rewrite drop_app.
    + exact (cut_app "<" "/dependencyManagement>" body _ eq_refl Hi).
  - rewrite remove_blocks_skip, IH; [done..|].
    intros rest. by apply cut_past_dependency.
Qed.

(** The dependency blocks of the text left are the dependencies, and each
    gives its record. *)
Lemma blocks_render (include_dev : bool) (filePath gap : string)
  (doc : list pom_item) :
  well_formed gap doc = true ->
  flat_map (fun block => fst (maven_block include_dev filePath block))
    (dependency_blocks (render gap (List.filter unmanaged doc)))
  = flat_map (maven_expected include_dev filePath) doc.
Proof.
  unfold dependency_blocks.
  induction doc as [|i doc IH]; intros Hwf; [done|].
  apply well_formed_cons in Hwf as (Hgap & Hi & Hdoc).
  specialize (IH Hdoc). destruct i as [text|body|d]; cbn [render render_item
    List.filter unmanaged flat_map maven_expected app].
  - destruct (text_ok_inv text Hi) as (He & Hdep & _).
    rewrite blocks_skip; [done..|].
    intros rest. by apply (cut_closed "dependency" text rest false).
  - done.
  - rewrite dependency_xml_inner at 1. rewrite !append_assoc.
    rewrite (blocks_found _ _ _ ""
               ((gap +:+ segments (dependency_segments gap d))
                +:+ "</dependency>" +:+ render gap (List.filter unmanaged doc))
               (gap +:+ segments (dependency_segments gap d))
               (render gap (List.filter unmanaged doc))); [|done| |].
    + rewrite <- dependency_xml_inner. cbn [flat_map].
      by rewrite (maven_block_xml gap d Hgap Hi), IH.
    + rewrite cut_startsWith by apply startsWith_app.
      by rewrite drop_app, !append_assoc.
    + exact (cut_app "<" "/dependency>" _ _ eq_refl
               (cut_inside_dependency gap d Hgap Hi)).
Qed.


End Properties.

(* ================================================================= *)
(** ** Instances and counterexamples *)

Lemma empty_path_entry_skipped_witness :
  (JS.includes ":" "npm:" = false
   \/ exists kind, JS.includes ":" kind = false /\ "npm:" = kind +:+ ":")
  /\ process_entry no_JSON (sample_world [] []) "npm:" = ([], []).
Proof.
  split.
  - right. exists "npm". split; reflexivity.
  - refine (proj1 (empty_path_entry_skipped no_JSON (sample_world [] [])
                     "npm:" [] [] _)).
    right. exists "npm". split; reflexivity.
Defined.

Lemma dispatch_by_kind_witness :
  JS.includes ":" "conan" = false /\ "conanfile.txt" <> ""
  /\ process_entry no_JSON (sample_world [] []) "conan:conanfile.txt"
     = dispatch no_JSON (sample_world [] []) "conan" "conanfile.txt".
Proof.
  split; [reflexivity|]. split; [discriminate|].
  refine (proj1 (dispatch_by_kind no_JSON (sample_world [] [])
                   "conan" "conanfile.txt" [] [] _ _)).
  - reflexivity.
  - discriminate.
Defined.

(** C5 as stated fails on an entry without a path: the kind [conan] has no
    case, and yet no warning is printed; the kind [go] has a case, and
    neither Go parser runs (a parser always leaves a console line). *)
Lemma unknown_kind_without_warning :
  entry_type "conan:" = "conan"
  /\ ("conan" ∉ kinds)
  /\ entry_type "go:" = "go"
  /\ forall JSON_parse W,
       ~ (exists line,
            ConsoleWarn line ∈ fst (process_entry JSON_parse W "conan:"))
       /\ process_entry JSON_parse W "go:" = ([], []).
Proof.
  split; [reflexivity|]. split; [|split; [reflexivity|]].
  - intros H. apply list_elem_of_In in H. simpl in H.
    repeat (destruct H as [H|H]; [discriminate H|]). exact H.
  - intros JSON_parse W. split; [|reflexivity].
    intros [line H]. vm_compute in H. by apply elem_of_nil in H.
Qed.

Lemma requirements_example_records_witness :
  readFileSync requirements_world "requirements.txt" = Ok requirements_example
  /\ INCLUDE_DEV requirements_world = true
  /\ "requirements.txt" <> ""
  /\ snd (process_entry no_JSON requirements_world
            "requirements:requirements.txt")
     = [pypi_record "requirements.txt" "flask" "2.0.0";
        pypi_record "requirements.txt" "requests" "2.28.0";
        pypi_record "requirements.txt" "pytest" "7.0.0"].
Proof.
  split; [reflexivity|]. split; [reflexivity|]. split; [discriminate|].
  refine (f_equal snd (proj1 (requirements_example_records no_JSON
                                requirements_world "requirements.txt" _ _ _))).
  - reflexivity.
  - reflexivity.
  - discriminate.
Defined.

(** C1 fails on the requirements parser: with development dependencies
    excluded, the record of a development requirements file is still
    emitted, flagged [dev]. *)
Theorem requirements_ignore_include_dev :
  INCLUDE_DEV dev_requirements_world = false
  /\ snd (process_entry no_JSON dev_requirements_world
            "requirements:requirements-dev.txt")
     = [{| ecosystem := "pypi";
           name := VStr "pytest";
           version := VStr "7.0.0";
           dev := VBool true;
           lockfile_source := "requirements-dev.txt" |}].
Proof. split; reflexivity. Qed.

(** C2 fails on the requirements parser: a version clause that starts with
    a comma is cleaned to the empty string and the record is pushed with
    it. *)
Theorem requirements_empty_version :
  snd (process_entry no_JSON comma_requirements_world
         "requirements:requirements.txt")
  = [{| ecosystem := "pypi";
        name := VStr "flask";
        version := VStr "";
        dev := VBool false;
        lockfile_source := "requirements.txt" |}].
Proof. reflexivity. Qed.

(** C3 fails on records whose name or version holds a colon: the two
    records of the sample go.sum differ in name and in version, their keys
    are the same string, and the deduplicator drops the second. *)
Theorem unique_merges_distinct_triples :
  snd (process_entries no_JSON colon_world (JS.split "," (LOCKFILES colon_world)))
  = [colon_first; colon_second]
  /\ triple sample_Number_toString colon_first
     <> triple sample_Number_toString colon_second
  /\ dedup_key sample_Number_toString colon_first
     = dedup_key sample_Number_toString colon_second
  /\ main_dependencies no_JSON sample_Number_toString colon_world
     = [colon_first].
Proof.
  split; [reflexivity|]. split; [discriminate|]. split; [reflexivity|].
  vm_compute. reflexivity.
Qed.

(** C9 fails on the Poetry parser: a package without a [category] line is
    pushed with [dev] set to [null], neither [true] nor [false], and the
    inventory object carries that [null]. *)
Theorem poetry_dev_is_null :
  snd (process_entry no_JSON poetry_world "poetry:poetry.lock")
  = [{| ecosystem := "pypi";
        name := VStr "requests";
        version := VStr "2.28.0";
        dev := VNull;
        lockfile_source := "poetry.lock" |}]
  /\ List.map inventory_entry
       (main_dependencies no_JSON sample_Number_toString poetry_world)
     = [VObj [("ecosystem", VStr "pypi");
              ("name", VStr "requests");
              ("version", VStr "2.28.0");
              ("dev", VNull);
              ("lockfile_source", VStr "poetry.lock")]].
Proof. split; vm_compute; reflexivity. Qed.

(** The records of the sample pom: the managed coordinate and the
    placeholder version give none, the test dependency gives one only when
    development dependencies are included. *)
Example maven_example_records :
  snd (parseMavenPom (pom_world "true") "pom.xml")
  = [maven_record "org.apache.commons:commons-lang3" "3.12.0" false;
     maven_record "junit:junit" "4.13.2" true]
  /\ snd (parseMavenPom (pom_world "false") "pom.xml")
     = [maven_record "org.apache.commons:commons-lang3" "3.12.0" false].
Proof. split; vm_compute; reflexivity. Qed.

(** C4 as stated fails when the error comes after a record was pushed: the
    [null] entry raises a [TypeError], the parser catches it, and the record
    of the entry before it stays in the result. *)
Lemma parser_error_keeps_records :
  process_entry npm_broken_JSON npm_broken_world "npm:package-lock.json"
  = ([ConsoleError
        "Error parsing package-lock.json: Cannot read properties of null (reading 'version')"],
     [{| ecosystem := "npm";
         name := VStr "lodash";
         version := VStr "4.17.21";
         dev := VBool false;
         lockfile_source := "package-lock.json" |}]).
Proof. vm_compute. reflexivity. Qed.

Lemma parser_errors_contained_witness :
  ("npm" ∈ kinds) /\ "package-lock.json" <> ""
  /\ readFileSync missing_file_world "package-lock.json"
     = Throw "ENOENT: no such file or directory, open 'package-lock.json'"
  /\ process_entry no_JSON missing_file_world "npm:package-lock.json"
     = ([ConsoleError
           "Error parsing package-lock.json: ENOENT: no such file or directory, open 'package-lock.json'"],
        []).
Proof.
  assert (Hk : "npm" ∈ kinds) by apply list_elem_of_here.
  split; [exact Hk|]. split; [discriminate|]. split; [reflexivity|].
  refine (proj1 (parser_errors_contained no_JSON sample_Number_toString
                   missing_file_world "npm" "package-lock.json" _ [] [] Hk _
                   (or_introl eq_refl))).
  discriminate.
Defined.

Lemma main_deterministic_witness :
  LOCKFILES requirements_world = LOCKFILES (later_world requirements_world)
  /\ PROJECT_ID requirements_world
     = PROJECT_ID (later_world requirements_world)
  /\ INCLUDE_DEV requirements_world
     = INCLUDE_DEV (later_world requirements_world)
  /\ now requirements_world <> now (later_world requirements_world)
  /\ written_dependencies
       (main no_JSON sample_Number_toString sample_path_join
          requirements_world)
     = written_dependencies
         (main no_JSON sample_Number_toString sample_path_join
            (later_world requirements_world)).
Proof.
  split; [reflexivity|]. split; [reflexivity|]. split; [reflexivity|].
  split; [discriminate|].
  refine (proj2 (main_deterministic no_JSON sample_Number_toString
                   sample_path_join requirements_world
                   (later_world requirements_world)
                   eq_refl eq_refl eq_refl _)).
  intros entry _. reflexivity.
Defined.

(* ================================================================= *)
(** ** The tests of the repository, on the embedding *)

Example test_npm_v3 :
  test_run "npm" "/tmp/canary-test-1/package-lock.json"
    "package-lock-v3" "true"
  = [(VStr "lodash", VStr "4.17.21", VBool false);
     (VStr "typescript", VStr "5.0.0", VBool true);
     (VStr "jest", VStr "29.0.0", VBool true)].
Proof. vm_compute. reflexivity. Qed.

Example test_include_dev_false :
  test_run "npm" "/tmp/canary-test-1/package-lock.json"
    "package-lock-v3" "false"
  = [(VStr "lodash", VStr "4.17.21", VBool false)].
Proof. vm_compute. reflexivity. Qed.

Example test_requirements :
  test_run "requirements" "/tmp/canary-test-1/requirements.txt"
    fixture_requirements "true"
  = [(VStr "flask", VStr "2.0.0", VBool true);
     (VStr "requests", VStr "2.28.0", VBool true);
     (VStr "sqlalchemy", VStr "1.4.0", VBool true);
     (VStr "pytest", VStr "7.0.0", VBool true)].
Proof. vm_compute. reflexivity. Qed.

Example test_poetry :
  test_run "poetry" "/tmp/canary-test-1/poetry.lock" fixture_poetry "true"
  = [(VStr "requests", VStr "2.28.0", VNull);
     (VStr "pytest", VStr "7.0.0", VBool true);
     (VStr "flask", VStr "2.0.0", VNull)].
Proof. vm_compute. reflexivity. Qed.

Example test_go_sum :
  test_run "go" "/tmp/canary-test-1/go.sum" fixture_goSum "true"
  = [(VStr "github.com/pkg/errors", VStr "v0.9.1", VBool false);
     (VStr "golang.org/x/net", VStr "v0.7.0", VBool false);
     (VStr "golang.org/x/sys", VStr "v0.6.0", VBool false)].
Proof. vm_compute. reflexivity. Qed.

Example test_go_mod :
  test_run "go" "/tmp/canary-test-1/go.mod" fixture_goMod "true"
  = [(VStr "github.com/pkg/errors", VStr "v0.9.1", VBool false);
     (VStr "golang.org/x/net", VStr "v0.7.0", VBool false)].
Proof. vm_compute. reflexivity. Qed.

Example test_gemfile :
  test_run "rubygems" "/tmp/canary-test-1/Gemfile.lock" fixture_gemfile
    "true"
  = [(VStr "rack", VStr "2.2.7", VBool false);
     (VStr "rake", VStr "13.0.6", VBool false)].
Proof. vm_compute. reflexivity. Qed.

Example test_cargo :
  test_run "cargo" "/tmp/canary-test-1/Cargo.lock" fixture_cargo "true"
  = [(VStr "serde", VStr "1.0.188", VBool false);
     (VStr "tokio", VStr "1.32.0", VBool false)].
Proof. vm_compute. reflexivity. Qed.

Example test_composer :
  test_run "composer" "/tmp/canary-test-1/composer.lock" "composer" "true"
  = [(VStr "laravel/framework", VStr "v10.0.0", VBool false);
     (VStr "phpunit/phpunit", VStr "v10.1.0", VBool true)].
Proof. vm_compute. reflexivity. Qed.

Example test_nuget :
  test_run "nuget" "/tmp/canary-test-1/packages.lock.json" "nuget"
    "true"
  = [(VStr "Newtonsoft.Json", VStr "13.0.1", VBool false);
     (VStr "Serilog", VStr "2.12.0", VBool false)].
Proof. vm_compute. reflexivity. Qed.

Example test_pom :
  test_run "maven" "/tmp/canary-test-1/pom.xml" fixture_pom "false"
  = [(VStr "org.apache.commons:commons-lang3", VStr "3.12.0", VBool false)].
Proof. vm_compute. reflexivity. Qed.

(* ================================================================= *)
(** ** Instances of the further properties *)

Ltac in_list :=
  repeat first [ apply list_elem_of_here | apply list_elem_of_further ].

Lemma entry_keeps_path_colons_witness :
  JS.includes ":" "npm" = false
  /\ entry_path ("npm" +:+ ":" +:+ "C:/repo/package-lock.json")
     = "C:/repo/package-lock.json".
Proof.
  split; [reflexivity|].
  exact (proj2 (entry_keeps_path_colons "npm" "C:/repo/package-lock.json"
                  eq_refl)).
Defined.

Lemma lockfiles_round_trip_witness :
  LOCKFILES two_lockfiles_world = JS.join "," two_lockfiles
  /\ main_dependencies no_JSON sample_Number_toString two_lockfiles_world
     = unique sample_Number_toString
         (snd (process_entries no_JSON two_lockfiles_world two_lockfiles)).
Proof.
  split; [reflexivity|].
  apply lockfiles_round_trip; [discriminate| |reflexivity].
  repeat constructor.
Defined.

Lemma comma_truncates_path_witness :
  JS.includes "," "requirements,dev.txt" = true
  /\ process_entries no_JSON requirements_world
       (JS.split "," "requirements:requirements,dev.txt")
     = dispatch no_JSON requirements_world "requirements" "requirements".
Proof.
  split; [reflexivity|].
  apply (comma_truncates_path no_JSON requirements_world
           "requirements" "requirements" "dev.txt");
    first [reflexivity | discriminate].
Defined.

Lemma records_of_kind_witness :
  ("go" ∈ kinds)
  /\ Forall (fun d => ecosystem d = ecosystem_of_kind "go"
                      /\ lockfile_source d = "go.sum")
       (snd (dispatch no_JSON colon_world "go" "go.sum")).
Proof.
  assert (Hk : "go" ∈ kinds) by in_list.
  split; [exact Hk|]. apply (records_of_kind no_JSON colon_world _ _ Hk).
Defined.

Lemma never_dev_records_witness :
  ("go" ∈ never_dev_kinds)
  /\ Forall (fun d => dev d = VBool false)
       (snd (dispatch no_JSON colon_world "go" "go.sum")).
Proof.
  assert (Hk : "go" ∈ never_dev_kinds) by in_list.
  split; [exact Hk|]. apply (never_dev_records no_JSON colon_world _ _ Hk).
Defined.

Lemma dev_excluded_but_requirements_witness :
  INCLUDE_DEV (test_world "poetry" "poetry.lock" fixture_poetry "false") = false
  /\ snd (dispatch fixture_JSON
            (test_world "poetry" "poetry.lock" fixture_poetry "false")
            "poetry" "poetry.lock")
     = List.filter production
         (snd (dispatch fixture_JSON
                 (test_world "poetry" "poetry.lock" fixture_poetry "true")
                 "poetry" "poetry.lock")).
Proof.
  split; [reflexivity|].
  refine (proj1 (dev_excluded_but_requirements fixture_JSON
                   (test_world "poetry" "poetry.lock" fixture_poetry "false")
                   (test_world "poetry" "poetry.lock" fixture_poetry "true")
                   "poetry" "poetry.lock" _ _ _ _));
    first [reflexivity | discriminate].
Defined.

Lemma guarded_kinds_nonempty_witness :
  ("go" ∈ guarded_kinds)
  /\ Forall (fun d => nonempty_string (name d) = true
                      /\ nonempty_string (version d) = true)
       (snd (dispatch no_JSON colon_world "go" "go.sum")).
Proof.
  assert (Hk : "go" ∈ guarded_kinds) by in_list.
  split; [exact Hk|].
  apply (guarded_kinds_nonempty no_JSON colon_world _ _ Hk).
Defined.

Lemma unique_by_triple_witness :
  unique sample_Number_toString
    [pypi_record "requirements.txt" "flask" "2.0.0";
     pypi_record "dev.txt" "flask" "2.0.0"]
  = first_occurrences sample_Number_toString []
      [pypi_record "requirements.txt" "flask" "2.0.0";
       pypi_record "dev.txt" "flask" "2.0.0"].
Proof.
  apply unique_by_triple. repeat constructor.
Defined.

Lemma one_line_per_parser_witness :
  ("npm" ∈ kinds)
  /\ (fst (dispatch no_JSON missing_file_world "npm" "package-lock.json")
      = [ConsoleLog
           ("Parsed "
            +:+ JS.of_nat
                  (length (snd (dispatch no_JSON missing_file_world "npm"
                                  "package-lock.json")))
            +:+ " packages from " +:+ "package-lock.json")]
      \/ exists msg,
           fst (dispatch no_JSON missing_file_world "npm" "package-lock.json")
           = [ConsoleError ("Error parsing " +:+ "package-lock.json" +:+ ": "
                            +:+ msg)]).
Proof.
  assert (Hk : "npm" ∈ kinds) by in_list.
  split; [exact Hk|].
  apply (one_line_per_parser no_JSON missing_file_world _ _ Hk).
Defined.

Lemma lock_without_package_marker_witness :
  readFileSync markerless_world "Cargo.lock" = Ok "version = 3"
  /\ parseCargoLock markerless_world "Cargo.lock"
     = ([ConsoleLog ("Parsed 0 packages from " +:+ "Cargo.lock")], []).
Proof.
  split; [reflexivity|].
  refine (proj2 (lock_without_package_marker markerless_world "Cargo.lock"
                   "version = 3" _ _)); reflexivity.
Defined.

Lemma gemfile_without_specs_witness :
  readFileSync markerless_world "Gemfile.lock" = Ok "GEM"
  /\ parseGemfileLock markerless_world "Gemfile.lock"
     = ([ConsoleLog ("Parsed 0 packages from " +:+ "Gemfile.lock")], []).
Proof.
  split; [reflexivity|].
  apply (gemfile_without_specs markerless_world "Gemfile.lock" "GEM");
    [reflexivity|reflexivity|].
  change (JS.split LF "GEM") with ["GEM"].
  constructor; [discriminate|constructor].
Defined.

Lemma go_mod_without_require_witness :
  readFileSync markerless_world "go.mod" = Ok "module example.com/m"
  /\ parseGoMod markerless_world "go.mod"
     = ([ConsoleLog ("Parsed 0 packages from " +:+ "go.mod")], []).
Proof.
  split; [reflexivity|].
  apply (go_mod_without_require markerless_world "go.mod"
           "module example.com/m"); [reflexivity|reflexivity|].
  change (JS.split LF "module example.com/m") with ["module example.com/m"].
  constructor; [reflexivity|constructor].
Defined.

Lemma pypi_names_lower_case_witness :
  ("requirements" ∈ pypi_kinds)
  /\ Forall (fun d => exists n, name d = VStr n /\ JS.toLowerCase n = n)
       (snd (dispatch no_JSON requirements_world "requirements"
               "requirements.txt")).
Proof.
  assert (Hk : "requirements" ∈ pypi_kinds) by in_list.
  split; [exact Hk|].
  apply (pypi_names_lower_case no_JSON requirements_world _ _ Hk).
Defined.

Lemma package_name_last_segment_witness :
  package_name "node_modules/@babel/core/node_modules/semver" = "semver".
Proof.
  refine (proj1 (package_name_last_segment ["@babel/core/"; "semver"] _ _)).
  - discriminate.
  - repeat constructor.
Defined.

Lemma json_without_keys_witness :
  ("npm" ∈ json_kinds)
  /\ empty_object_JSON "{}" = Ok (VObj [])
  /\ dispatch empty_object_JSON markerless_world "npm" "package-lock.json"
     = ([ConsoleLog ("Parsed 0 packages from " +:+ "package-lock.json")], []).
Proof.
  assert (Hk : "npm" ∈ json_kinds) by in_list.
  split; [exact Hk|]. split; [reflexivity|].
  apply (json_without_keys empty_object_JSON markerless_world "npm"
           "package-lock.json" "{}" [] Hk); reflexivity.
Defined.

Lemma requirement_round_trip_witness :
  requirement_line "requirements.txt" ("Flask" +:+ "==" +:+ "2.0.0")
  = push (pypi_record "requirements.txt" (JS.toLowerCase "Flask") "2.0.0").
Proof.
  apply requirement_round_trip; first [reflexivity | discriminate].
Defined.

Lemma go_sum_lines_agree_witness :
  go_sum_line "go.sum"
    ("example.com/m" +:+ " " +:+ ("v1.2.3" +:+ "/go.mod") +:+ " " +:+ "h1:def=")
  = push (go_record "go.sum" "example.com/m" "v1.2.3").
Proof.
  refine (proj2 (go_sum_lines_agree "go.sum" "example.com/m" "v1.2.3"
                   "h1:abc=" "h1:def=" _ _ _ _ _ _ _ _ _ _));
    first [reflexivity | discriminate].
Defined.

Lemma cargo_block_round_trip_witness :
  cargo_block "Cargo.lock"
    (LF +:+ assignment "name" "serde" +:+ LF +:+ assignment "version" "1.0.0"
     +:+ LF +:+ assignment "source" "registry")
  = push {| ecosystem := "cargo";
            name := VStr "serde";
            version := VStr "1.0.0";
            dev := VBool false;
            lockfile_source := "Cargo.lock" |}.
Proof.
  apply cargo_block_round_trip; first [reflexivity | discriminate].
Defined.

Lemma poetry_block_round_trip_witness :
  poetry_block true "poetry.lock"
    (LF +:+ assignment "name" "PyTest" +:+ LF +:+ assignment "version" "7.0.0"
     +:+ LF +:+ assignment "category" "dev" +:+ LF +:+ "")
  = push {| ecosystem := "pypi";
            name := VStr "pytest";
            version := VStr "7.0.0";
            dev := VBool true;
            lockfile_source := "poetry.lock" |}.
Proof.
  apply (poetry_block_round_trip true "poetry.lock" "PyTest" "7.0.0" "dev" "");
    first [reflexivity | discriminate].
Defined.

Lemma gemfile_section_ends_witness :
  gemfile_lines "Gemfile.lock" true
    ["    RedCloth (4.3.2)"; "    rails (7.0.4)"]
  = ret tt.
Proof.
  apply gemfile_section_ends; [by repeat constructor|reflexivity|].
  constructor; [discriminate|constructor].
Defined.

Lemma gemfile_spec_round_trip_witness :
  gemfile_lines "Gemfile.lock" true [spec_line "rails" "7.0.4"]
  = (push {| ecosystem := "rubygems";
             name := VStr "rails";
             version := VStr "7.0.4";
             dev := VBool false;
             lockfile_source := "Gemfile.lock" |} ;;;
     gemfile_lines "Gemfile.lock" true []).
Proof.
  apply gemfile_spec_round_trip;
    first [reflexivity | discriminate | by repeat constructor].
Defined.

Lemma ecosystems_never_merged_witness :
  dedup_key sample_Number_toString colon_first
  = dedup_key sample_Number_toString colon_second
  /\ ecosystem colon_first = ecosystem colon_second.
Proof.
  split; [reflexivity|].
  apply (ecosystems_never_merged no_JSON sample_Number_toString colon_world
           ["go:go.sum"] colon_first colon_second);
    [apply list_elem_of_here
    |apply list_elem_of_further, list_elem_of_here
    |reflexivity].
Defined.

Lemma main_file_effects_witness :
  file_effects
    (main no_JSON sample_Number_toString sample_path_join output_world)
  = [WriteFile "./.canary-inventory.json"
       (inventory output_world
          (main_dependencies no_JSON sample_Number_toString output_world));
     AppendFile "/tmp/github_output" ("packages_count=3" +:+ LF);
     AppendFile "/tmp/github_output"
       ("inventory_path=./.canary-inventory.json" +:+ LF)].
Proof.
  apply (main_file_effects no_JSON sample_Number_toString sample_path_join
           output_world).
  repeat constructor.
Defined.

